(** * Atomic-Swaps: the swap state store, the HTLC transaction factory,
      provider quotes and the swap executor

    A shallow embedding of the TypeScript sources
      - [lib/swap/state.ts]            (module [State]),
      - [lib/bitcoin/transactions.ts]  (module [Transactions]),
      - [lib/p2p/discovery.ts]         (module [Discovery]),
      - [lib/swapProvider.ts]          (module [SwapProvider]),
      - [lib/swap/executor.ts]         (module [Executor]),
    followed by the properties of the specification that were checked
    against them.

    Conventions.  A JavaScript [number] that counts something (block
    heights, timestamps, confirmation counts, output indices) is a [Z]; a
    [number] that is a genuine double (fee rate, exchange rate, parsed
    decimal amounts) is a [spec_float] at binary64 precision; a [bigint] is
    a [Z]; a [Uint8Array] is a [list Byte.byte]; an optional property is an
    [option].  Code that reads the clock, the random source, the browser
    storage or the network runs in the monad [M] over an explicit [World]. *)

From Stdlib Require Import ZArith Lia Ascii String Sorted Floats.SpecFloat.
From stdpp Require Import base gmap list strings.

Set Warnings "-register-all".

Open Scope string_scope.
Open Scope list_scope.
Open Scope Z_scope.

(* ================================================================== *)
(** * Part I: definitions *)
(* ================================================================== *)

(** ** Errors and results *)

(** A thrown JavaScript [Error] carries its message.  [OutOfFuel] is not a
    JavaScript value: it marks a loop of the model that was cut off before
    the source loop would have ended. *)
Inductive Error : Type :=
  | JsError (msg : string)
  | OutOfFuel.

Inductive result (A : Type) : Type :=
  | Ok (a : A)
  | Throw (e : Error).
Arguments Ok {A} a.
Arguments Throw {A} e.

Definition result_bind {A B} (r : result A) (k : A -> result B) : result B :=
  match r with
  | Ok a => k a
  | Throw e => Throw e
  end.

Definition is_ok {A} (r : result A) : bool :=
  match r with Ok _ => true | Throw _ => false end.

(** ** Bytes, hexadecimal text, numbers as text *)

Abbreviation bytes := (list Byte.byte).

Definition byte_to_Z (b : Byte.byte) : Z := Z.of_N (Byte.to_N b).

Definition byte_of_Z (z : Z) : Byte.byte :=
  match Byte.of_N (Z.to_N (z mod 256)) with
  | Some b => b
  | None => Byte.x00
  end.

Module Hex.
(** [hex] of @scure/base: lower-case digits on encoding; decoding wants a
    string of even length, lower-cases it and rejects every character
    outside the alphabet. *)

Definition digit (n : Z) : ascii :=
  if n <? 10 then ascii_of_nat (Z.to_nat (48 + n))
  else ascii_of_nat (Z.to_nat (87 + n)).

Definition value (c : ascii) : option Z :=
  let n := Z.of_nat (nat_of_ascii c) in
  if (48 <=? n) && (n <=? 57) then Some (n - 48)
  else if (97 <=? n) && (n <=? 102) then Some (n - 87)
  else if (65 <=? n) && (n <=? 70) then Some (n - 55)
  else None.

Fixpoint encode (bs : bytes) : string :=
  match bs with
  | [] => EmptyString
  | b :: rest =>
      String (digit (byte_to_Z b / 16))
        (String (digit (byte_to_Z b mod 16)) (encode rest))
  end.

Fixpoint decode (s : string) : result bytes :=
  match s with
  | EmptyString => Ok []
  | String hi (String lo rest) =>
      match value hi, value lo with
      | Some h, Some l =>
          result_bind (decode rest) (fun bs => Ok (byte_of_Z (16 * h + l) :: bs))
      | _, _ => Throw (JsError "Unknown letter")
      end
  | String _ EmptyString =>
      Throw (JsError "hex.decode: expected padded hex-string")
  end.
End Hex.

Module Num.
(** Integers as text: [Number.prototype.toString(radix)] on an integral
    number and [BigInt.prototype.toString()]. *)

Definition digit (n : Z) : ascii :=
  if n <? 10 then ascii_of_nat (Z.to_nat (48 + n))
  else ascii_of_nat (Z.to_nat (87 + n)).

Fixpoint digits (fuel : nat) (radix n : Z) (acc : string) : string :=
  match fuel with
  | O => acc
  | S fuel' =>
      if n <? radix then String (digit n) acc
      else digits fuel' radix (n / radix) (String (digit (n mod radix)) acc)
  end.

Definition toString (radix n : Z) : string :=
  if n <? 0
  then String "-" (digits (S (Z.to_nat (Z.log2 (- n)))) radix (- n) EmptyString)
  else digits (S (Z.to_nat (Z.log2 n))) radix n EmptyString.

Definition decimal (n : Z) : string := toString 10 n.
End Num.

(** ** SHA-256 (FIPS 180-4), the [sha256] of @noble/hashes *)

Module Sha256.
Definition w32 (x : Z) : Z := x mod 2 ^ 32.
Definition add32 (x y : Z) : Z := w32 (x + y).
Definition rotr (n x : Z) : Z :=
  w32 (Z.lor (Z.shiftr x n) (Z.shiftl x (32 - n))).
Definition Ch (x y z : Z) : Z :=
  Z.lxor (Z.land x y) (Z.land (Z.lxor x 0xffffffff) z).
Definition Maj (x y z : Z) : Z :=
  Z.lxor (Z.lxor (Z.land x y) (Z.land x z)) (Z.land y z).
Definition bsig0 (x : Z) : Z := Z.lxor (Z.lxor (rotr 2 x) (rotr 13 x)) (rotr 22 x).
Definition bsig1 (x : Z) : Z := Z.lxor (Z.lxor (rotr 6 x) (rotr 11 x)) (rotr 25 x).
Definition ssig0 (x : Z) : Z := Z.lxor (Z.lxor (rotr 7 x) (rotr 18 x)) (Z.shiftr x 3).
Definition ssig1 (x : Z) : Z := Z.lxor (Z.lxor (rotr 17 x) (rotr 19 x)) (Z.shiftr x 10).

(** The round constants are the first 32 bits of the fractional parts of
    the cube roots of the first 64 primes, the initial hash value those
    of the square roots of the first 8. *)
Definition isPrime (n : Z) : bool :=
  (1 <? n)
  && forallb (fun d => (n <? d * d) || negb (n mod d =? 0))
       (Z.of_nat <$> seq 2 16).

Definition primes : list Z :=
  Eval vm_compute in take 64 (filter (fun n => isPrime n = true)
                                (Z.of_nat <$> seq 2 310)).

(** The integer cube root, one bit at a time. *)
Definition icbrt (n : Z) : Z :=
  fold_left (fun r b => let r' := r + 2 ^ b in
                        if r' * r' * r' <=? n then r' else r)
    (Z.of_nat <$> rev (seq 0 35)) 0.

Definition K : list Z :=
  Eval vm_compute in (fun p => icbrt (p * 2 ^ 96) mod 2 ^ 32) <$> primes.

Definition H0 : list Z :=
  Eval vm_compute in (fun p => Z.sqrt (p * 2 ^ 64) mod 2 ^ 32) <$> take 8 primes.

Definition be32 (bs : list Z) : Z :=
  fold_left (fun acc b => acc * 256 + b) bs 0.

Fixpoint words (n : nat) (bs : list Z) : list Z :=
  match n with
  | O => []
  | S n' => be32 (take 4 bs) :: words n' (drop 4 bs)
  end.

Definition word_bytes (w : Z) : list Z :=
  [Z.shiftr w 24 mod 256; Z.shiftr w 16 mod 256; Z.shiftr w 8 mod 256; w mod 256].

(** The message, the byte 0x80, zeros up to 56 modulo 64, and the bit
    length on eight bytes. *)
Definition pad (msg : list Z) : list Z :=
  let l := Z.of_nat (length msg) in
  let k := Z.to_nat ((55 - l) mod 64) in
  msg ++ [0x80] ++ replicate k 0
      ++ word_bytes (Z.shiftr (l * 8) 32) ++ word_bytes (w32 (l * 8)).

Fixpoint schedule (n : nat) (ws : list Z) : list Z :=
  match n with
  | O => ws
  | S n' =>
      let t := length ws in
      let g i := nth (t - i) ws 0 in
      schedule n'
        (ws ++ [w32 (ssig1 (g 2%nat) + g 7%nat + ssig0 (g 15%nat) + g 16%nat)])
  end.

Definition round (st : list Z) (kw : Z * Z) : list Z :=
  match st with
  | [a; b; c; d; e; f; g; h] =>
      let t1 := w32 (h + bsig1 e + Ch e f g + fst kw + snd kw) in
      let t2 := w32 (bsig0 a + Maj a b c) in
      [add32 t1 t2; a; b; c; add32 d t1; e; f; g]
  | _ => st
  end.

Definition compress (h block : list Z) : list Z :=
  let ws := schedule 48 (words 16 block) in
  zip_with add32 h (fold_left round (zip K ws) h).

Fixpoint blocks (n : nat) (h bs : list Z) : list Z :=
  match n with
  | O => h
  | S n' => blocks n' (compress h (take 64 bs)) (drop 64 bs)
  end.

Definition digest (msg : bytes) : bytes :=
  let p := pad (byte_to_Z <$> msg) in
  byte_of_Z <$> concat (word_bytes <$> blocks (length p / 64) H0 p).
End Sha256.

Definition sha256 (msg : bytes) : bytes := Sha256.digest msg.

(** ** JavaScript values and JSON *)

Module JS.
(** The values a swap record is made of. *)
Inductive jsval : Type :=
  | VUndefined
  | VNull
  | VBool (b : bool)
  | VNum (x : spec_float)
  | VBigInt (z : Z)
  | VStr (s : string)
  | VArr (items : list jsval)
  | VObj (props : list (string * jsval)).

(** A JSON text, represented by its syntax tree: the engine's printer and
    parser are inverse to each other on trees, so the text itself is left
    out.  A [JNumber] is always finite. *)
Inductive json : Type :=
  | JNull
  | JBool (b : bool)
  | JNumber (x : spec_float)
  | JString (s : string)
  | JArray (items : list json)
  | JObject (props : list (string * json)).

Definition VInt (z : Z) : jsval :=
  VNum (match z with
        | Z0 => S754_zero false
        | Zpos p => S754_finite false p 0
        | Zneg p => S754_finite true p 0
        end).

Definition getProp (key : string) (v : jsval) : jsval :=
  match v with
  | VObj props =>
      match list_find (fun kv => bool_decide (kv.1 = key)) props with
      | Some (_, (_, x)) => x
      | None => VUndefined
      end
  | _ => VUndefined
  end.

Definition field (key : string) (j : json) : option json :=
  match j with
  | JObject props =>
      match list_find (fun kv => bool_decide (kv.1 = key)) props with
      | Some (_, (_, x)) => Some x
      | None => None
      end
  | _ => None
  end.

Definition startsWith (s pre : string) : bool := String.prefix pre s.

(** [s.includes(sub)]. *)
Fixpoint includes (s sub : string) : bool :=
  String.prefix sub s
  || match s with
     | EmptyString => false
     | String _ rest => includes rest sub
     end.

(** [s.slice(n)] for [0 <= n]. *)
Definition sliceFrom (n : nat) (s : string) : string :=
  String.substring n (String.length s - n) s.

(** [s.slice(0, n)]. *)
Definition sliceTo (n : nat) (s : string) : string :=
  String.substring 0 n s.

(** *** [BigInt(string)]: StringToBigInt of ECMAScript.  Leading and
    trailing white space is dropped; the empty text is zero; a decimal
    literal may carry a sign; a literal with prefix 0x, 0o or 0b may
    not.  Anything else is a SyntaxError. *)

Definition isWhite (c : ascii) : bool :=
  let n := nat_of_ascii c in
  bool_decide (n = 32%nat \/ (9 <= n <= 13)%nat).

Fixpoint trimStart (s : string) : string :=
  match s with
  | String c rest => if isWhite c then trimStart rest else s
  | EmptyString => s
  end.

Definition trim (s : string) : string :=
  String.rev (trimStart (String.rev (trimStart s))).

Definition digitValue (radix : Z) (c : ascii) : option Z :=
  match Hex.value c with
  | Some d => if d <? radix then Some d else None
  | None => None
  end.

Fixpoint parseDigits (radix : Z) (s : string) (acc : Z) : option Z :=
  match s with
  | EmptyString => Some acc
  | String c rest =>
      match digitValue radix c with
      | Some d => parseDigits radix rest (acc * radix + d)
      | None => None
      end
  end.

Definition parseNonEmpty (radix : Z) (s : string) : option Z :=
  match s with
  | EmptyString => None
  | _ => parseDigits radix s 0
  end.

Definition stringToBigInt (s : string) : option Z :=
  match trim s with
  | EmptyString => Some 0
  | String "-" rest => Z.opp <$> parseNonEmpty 10 rest
  | String "+" rest => parseNonEmpty 10 rest
  | String "0" (String "x" rest) | String "0" (String "X" rest) =>
      parseNonEmpty 16 rest
  | String "0" (String "o" rest) | String "0" (String "O" rest) =>
      parseNonEmpty 8 rest
  | String "0" (String "b" rest) | String "0" (String "B" rest) =>
      parseNonEmpty 2 rest
  | t => parseNonEmpty 10 t
  end.

Definition BigInt_of_string (s : string) : result Z :=
  match stringToBigInt s with
  | Some z => Ok z
  | None => Throw (JsError ("Cannot convert " +:+ s +:+ " to a BigInt"))
  end.

(** *** [JSON.stringify(value, replacer)].  The replacer sees every
    property before it is printed; [undefined] drops a property and
    prints as [null] inside an array; a number that is not finite prints
    as [null] and minus zero as [0]; a bigint that the replacer left in
    place is a TypeError.  [fuel] bounds the nesting depth. *)

Definition numberToJson (x : spec_float) : json :=
  match x with
  | S754_finite _ _ _ => JNumber x
  | S754_zero _ => JNumber (S754_zero false)
  | _ => JNull
  end.

Fixpoint serializeProperty (fuel : nat) (replacer : string -> jsval -> jsval)
    (key : string) (v : jsval) : result (option json) :=
  match fuel with
  | O => Throw OutOfFuel
  | S fuel' =>
      match replacer key v with
      | VUndefined => Ok None
      | VNull => Ok (Some JNull)
      | VBool b => Ok (Some (JBool b))
      | VNum x => Ok (Some (numberToJson x))
      | VBigInt _ => Throw (JsError "Do not know how to serialize a BigInt")
      | VStr s => Ok (Some (JString s))
      | VArr items =>
          let step (acc : result (nat * list json)) (item : jsval) :=
            result_bind acc (fun '(i, out) =>
              result_bind
                (serializeProperty fuel' replacer (Num.decimal (Z.of_nat i)) item)
                (fun o => Ok (S i, out ++ [default JNull o]))) in
          result_bind (fold_left step items (Ok (O, [])))
            (fun '(_, out) => Ok (Some (JArray out)))
      | VObj props =>
          let step (acc : result (list (string * json))) (kv : string * jsval) :=
            result_bind acc (fun out =>
              result_bind (serializeProperty fuel' replacer kv.1 kv.2)
                (fun o => Ok (match o with
                              | Some j => out ++ [(kv.1, j)]
                              | None => out
                              end))) in
          result_bind (fold_left step props (Ok []))
            (fun out => Ok (Some (JObject out)))
      end
  end.

Fixpoint depth (v : jsval) : nat :=
  match v with
  | VArr items => S (foldr (fun x d => Nat.max (depth x) d) O items)
  | VObj props => S (foldr (fun kv d => Nat.max (depth kv.2) d) O props)
  | _ => 1
  end.

Definition stringify (v : jsval) (replacer : string -> jsval -> jsval)
    : result (option json) :=
  serializeProperty (S (depth v)) replacer EmptyString v.

(** *** [JSON.parse(text, reviver)]: the parsed tree is rebuilt from the
    leaves up, the reviver replacing every value; a property whose
    revived value is [undefined] is deleted. *)

Fixpoint internalize (reviver : string -> jsval -> result jsval)
    (name : string) (j : json) : result jsval :=
  match j with
  | JNull => reviver name VNull
  | JBool b => reviver name (VBool b)
  | JNumber x => reviver name (VNum x)
  | JString s => reviver name (VStr s)
  | JArray items =>
      let fix elements (i : nat) (l : list json) : result (list jsval) :=
        match l with
        | [] => Ok []
        | x :: rest =>
            result_bind (internalize reviver (Num.decimal (Z.of_nat i)) x)
              (fun v => result_bind (elements (S i) rest)
                          (fun vs => Ok (v :: vs)))
        end in
      result_bind (elements O items) (fun vs => reviver name (VArr vs))
  | JObject props =>
      let fix members (l : list (string * json)) : result (list (string * jsval)) :=
        match l with
        | [] => Ok []
        | (k, x) :: rest =>
            result_bind (internalize reviver k x)
              (fun v => result_bind (members rest)
                          (fun vs => Ok (match v with
                                         | VUndefined => vs
                                         | _ => (k, v) :: vs
                                         end)))
        end in
      result_bind (members props) (fun vs => reviver name (VObj vs))
  end.

Definition parse (text : json) (reviver : string -> jsval -> result jsval)
    : result jsval :=
  internalize reviver EmptyString text.

(** *** Reading typed values out of a JavaScript value. *)

Definition toInteger (x : spec_float) : option Z :=
  match x with
  | S754_zero _ => Some 0
  | S754_finite sg m e =>
      let sign (z : Z) := if sg then - z else z in
      if 0 <=? e then Some (sign (Z.pos m * 2 ^ e))
      else if Z.pos m mod 2 ^ (- e) =? 0 then Some (sign (Z.pos m / 2 ^ (- e)))
      else None
  | _ => None
  end.

Definition asStr (v : jsval) : option string :=
  match v with VStr s => Some s | _ => None end.
Definition asNum (v : jsval) : option spec_float :=
  match v with VNum x => Some x | _ => None end.
Definition asInt (v : jsval) : option Z :=
  match v with VNum x => toInteger x | _ => None end.
Definition asBigInt (v : jsval) : option Z :=
  match v with VBigInt z => Some z | _ => None end.
Definition asList {A} (rd : jsval -> option A) (v : jsval) : option (list A) :=
  match v with VArr items => mapM rd items | _ => None end.
Definition optional {A} (rd : jsval -> option A) (v : jsval) : option (option A) :=
  match v with VUndefined => Some None | _ => Some <$> rd v end.
End JS.

(** ** Protocol and wallet records ([lib/p2p/types.ts], [SwapKeys]) *)

Record AsbQuoteResponse : Type := mkAsbQuoteResponse {
  price : Z;
  min_quantity : Z;
  max_quantity : Z;
  xmr_amount : Z;
}.

Record AsbSwapRequest : Type := mkAsbSwapRequest {
  btc_amount : Z;
  xmr_address : string;
  btc_refund_pubkey : bytes;
  secret_hash : bytes;
}.

Record AsbSwapResponse : Type := mkAsbSwapResponse {
  swap_id : string;
  asb_btc_redeem_pubkey : bytes;
  cancel_timelock : Z;
  punish_timelock : Z;
  min_btc_lock_confirmations : Z;
  min_xmr_lock_confirmations : Z;
  xmr_lock_address : option string;
}.

Record DiscoveredProvider : Type := mkDiscoveredProvider {
  dp_peerId : string;
  multiaddrs : list string;
  namespace : string;
  quote : option AsbQuoteResponse;
  lastSeen : Z;
  isOnline : bool;
}.

Record SwapKeys : Type := mkSwapKeys {
  depositPrivateKey : bytes;
  depositPublicKey : bytes;
  depositAddress : string;
  refundPrivateKey : bytes;
  refundPublicKey : bytes;
  refundAddress : string;
}.

Inductive NetworkName : Type := mainnet | testnet.

(** What the chain explorer answers about the transaction that spends an
    output: its id and the witness of the spending input, as hex texts. *)
Record SpendTx : Type := mkSpendTx {
  spend_txid : string;
  witness : list string;
}.

(** ** The world the code runs in *)

(** Everything observable the code does is appended to a trace. *)
Inductive Event : Type :=
  | EvSetItem (key : string) (value : JS.json)
  | EvRemoveItem (key : string)
  | EvConsoleError (msg : string)
  | EvPhaseChange (state : JS.jsval)
  | EvError (msg : string) (state : JS.jsval)
  | EvComplete (state : JS.jsval)
  | EvTransactionBroadcast (txType txId : string)
  | EvInitiateSwap (peerId : string) (request : AsbSwapRequest)
  | EvSendEncryptedSignature (peerId swapId : string) (signature : bytes)
  | EvBroadcast (txHex : string)
  | EvFindSpending (txId : string) (vout : Z)
  | EvSignRefund (lockTxId : string) (lockVout : option Z) (locktime : Z).

(** The collaborators the executor talks to (wallet, peer node, signing
    library, chain explorer) are not part of the engine: each one is a queue
    of the answers it will give, asked in order. *)
Record Replies : Type := mkReplies {
  keysReplies : list (result SwapKeys);
  signRefundReplies : list (result string);
  initiateSwapReplies : list (result AsbSwapResponse);
  transferProofReplies : list (result bytes);
  sendSignatureReplies : list (result unit);
  broadcastReplies : list (result string);
  confirmationReplies : list Z;
  heightReplies : list Z;
  spendReplies : list (option SpendTx);
}.

Record World : Type := mkWorld {
  clock : Z;                              (* Date.now() *)
  window : bool;                          (* typeof window !== 'undefined' *)
  localStorage : gmap string JS.json;
  randomSource : nat -> Byte.byte;        (* crypto.getRandomValues *)
  randomPos : nat;
  xmrAddressValid : string -> NetworkName -> bool;  (* isValidMoneroAddress *)
  replies : Replies;
  trace : list Event;
}.

Definition M (A : Type) : Type := World -> result A * World.

Definition ret {A} (a : A) : M A := fun w => (Ok a, w).

Definition throw {A} (msg : string) : M A := fun w => (Throw (JsError msg), w).

Definition bind {A B} (c : M A) (k : A -> M B) : M B :=
  fun w =>
    match c w with
    | (Ok a, w') => k a w'
    | (Throw e, w') => (Throw e, w')
    end.

Notation "'let*' x ':=' c 'in' k" := (bind c (fun x => k))
  (at level 10, x pattern, c at level 100, k at level 200).
Notation "c ';;' k" := (bind c (fun _ => k))
  (at level 100, k at level 200, right associativity).

Definition lift {A} (r : result A) : M A := fun w => (r, w).

(** [try { body } catch (error) { handler(error) }]: only a JavaScript
    error can be caught. *)
Definition try_catch {A} (body : M A) (handler : string -> M A) : M A :=
  fun w =>
    match body w with
    | (Throw (JsError msg), w') => handler msg w'
    | other => other
    end.

Definition Date_now : M Z := fun w => (Ok (clock w), w).

Definition emit (e : Event) : M unit := fun w =>
  (Ok tt, mkWorld (clock w) (window w) (localStorage w) (randomSource w)
            (randomPos w) (xmrAddressValid w) (replies w) (trace w ++ [e])).

(** [setTimeout]-based sleep: the clock moves on by the time slept. *)
Definition sleep (ms : Z) : M unit := fun w =>
  (Ok tt, mkWorld (clock w + ms) (window w) (localStorage w) (randomSource w)
            (randomPos w) (xmrAddressValid w) (replies w) (trace w)).

Definition getRandomValues (n : nat) : M bytes := fun w =>
  (Ok (map (fun i => randomSource w (randomPos w + i)%nat) (seq 0 n)),
   mkWorld (clock w) (window w) (localStorage w) (randomSource w)
     (randomPos w + n)%nat (xmrAddressValid w) (replies w) (trace w)).

Definition hasWindow : M bool := fun w => (Ok (window w), w).

Definition localStorage_getItem (key : string) : M (option JS.json) := fun w =>
  (Ok (localStorage w !! key), w).

Definition localStorage_setItem (key : string) (value : JS.json) : M unit := fun w =>
  (Ok tt, mkWorld (clock w) (window w) (<[key := value]> (localStorage w))
            (randomSource w) (randomPos w) (xmrAddressValid w) (replies w)
            (trace w ++ [EvSetItem key value])).

Definition localStorage_removeItem (key : string) : M unit := fun w =>
  (Ok tt, mkWorld (clock w) (window w) (delete key (localStorage w))
            (randomSource w) (randomPos w) (xmrAddressValid w) (replies w)
            (trace w ++ [EvRemoveItem key])).

Definition console_error (msg : string) : M unit := emit (EvConsoleError msg).

Definition setReplies (r : Replies) : M unit := fun w =>
  (Ok tt, mkWorld (clock w) (window w) (localStorage w) (randomSource w)
            (randomPos w) (xmrAddressValid w) r (trace w)).

Definition getReplies : M Replies := fun w => (Ok (replies w), w).

(** ** [lib/swap/state.ts]: swap state management *)

Module State.
(** Swap phases following the COMIT XMR-BTC protocol. *)
Inductive SwapPhase : Type :=
  | QUOTE_REQUESTED
  | QUOTE_RECEIVED
  | SWAP_INITIATED
  | BTC_LOCK_TX_CREATED
  | BTC_LOCK_TX_BROADCAST
  | BTC_LOCK_TX_CONFIRMED
  | XMR_LOCK_TX_SEEN
  | XMR_LOCK_TX_CONFIRMED
  | ENCRYPTED_SIG_SENT
  | BTC_REDEEMED
  | XMR_REDEEMABLE
  | XMR_REDEEMED
  | REFUND_TIMELOCK_EXPIRED
  | BTC_REFUNDED
  | COMPLETED
  | REFUNDED
  | FAILED.

#[export] Instance SwapPhase_eq_dec : EqDecision SwapPhase.
Proof. solve_decision. Defined.

(** The string value of each member of the enum. *)
Definition phaseName (p : SwapPhase) : string :=
  match p with
  | QUOTE_REQUESTED => "quote_requested"
  | QUOTE_RECEIVED => "quote_received"
  | SWAP_INITIATED => "swap_initiated"
  | BTC_LOCK_TX_CREATED => "btc_lock_tx_created"
  | BTC_LOCK_TX_BROADCAST => "btc_lock_tx_broadcast"
  | BTC_LOCK_TX_CONFIRMED => "btc_lock_tx_confirmed"
  | XMR_LOCK_TX_SEEN => "xmr_lock_tx_seen"
  | XMR_LOCK_TX_CONFIRMED => "xmr_lock_tx_confirmed"
  | ENCRYPTED_SIG_SENT => "encrypted_sig_sent"
  | BTC_REDEEMED => "btc_redeemed"
  | XMR_REDEEMABLE => "xmr_redeemable"
  | XMR_REDEEMED => "xmr_redeemed"
  | REFUND_TIMELOCK_EXPIRED => "refund_timelock_expired"
  | BTC_REFUNDED => "btc_refunded"
  | COMPLETED => "completed"
  | REFUNDED => "refunded"
  | FAILED => "failed"
  end.

Definition allPhases : list SwapPhase :=
  [QUOTE_REQUESTED; QUOTE_RECEIVED; SWAP_INITIATED; BTC_LOCK_TX_CREATED;
   BTC_LOCK_TX_BROADCAST; BTC_LOCK_TX_CONFIRMED; XMR_LOCK_TX_SEEN;
   XMR_LOCK_TX_CONFIRMED; ENCRYPTED_SIG_SENT; BTC_REDEEMED; XMR_REDEEMABLE;
   XMR_REDEEMED; REFUND_TIMELOCK_EXPIRED; BTC_REFUNDED; COMPLETED; REFUNDED;
   FAILED].

Definition networkName (n : NetworkName) : string :=
  match n with mainnet => "mainnet" | testnet => "testnet" end.

(** An element of [phaseHistory]. *)
Record PhaseEntry : Type := mkPhaseEntry {
  entry_phase : SwapPhase;
  timestamp : Z;
  details : option string;
}.

Definition entryToJS (e : PhaseEntry) : JS.jsval :=
  JS.VObj (omap (fun kv : string * option JS.jsval => pair kv.1 <$> kv.2)
    [ ("phase", Some (JS.VStr (phaseName (entry_phase e))));
      ("timestamp", Some (JS.VInt (timestamp e)));
      ("details", JS.VStr <$> details e) ]).

Record SwapState : Type := mkSwapState {
  id : string;
  peerId : string;
  createdAt : Z;
  updatedAt : Z;
  phase : SwapPhase;
  phaseHistory : list PhaseEntry;
  btcAmount : Z;
  xmrAmount : Z;
  exchangeRate : spec_float;
  minBtcLockConfirmations : Z;
  minXmrLockConfirmations : Z;
  btcCancelTimelock : Z;
  btcPunishTimelock : Z;
  xmrUnlockHeight : Z;
  userBtcDepositPubkey : string;
  userBtcRefundPubkey : string;
  asbBtcRedeemPubkey : string;
  userXmrAddress : string;
  asbXmrViewKey : option string;
  secretHash : string;
  secret : option string;
  btcLockTxId : option string;
  btcLockTxVout : option Z;
  btcLockTxHex : option string;
  btcRedeemTxId : option string;
  btcRefundTxId : option string;
  htlcScript : option string;
  xmrLockTxId : option string;
  xmrRedeemTxId : option string;
  encryptedSignature : option string;
  lastError : option string;
  errorCount : Z;
  network : NetworkName;
}.

(** A property of a [Partial<Omit<SwapState, 'id' | 'createdAt' |
    'phaseHistory'>>] literal; an optional property may be given the
    value [undefined] ([None]). *)
Inductive FieldUpdate : Type :=
  | U_peerId (v : string)
  | U_updatedAt (v : Z)
  | U_phase (v : SwapPhase)
  | U_btcAmount (v : Z)
  | U_xmrAmount (v : Z)
  | U_exchangeRate (v : spec_float)
  | U_minBtcLockConfirmations (v : Z)
  | U_minXmrLockConfirmations (v : Z)
  | U_btcCancelTimelock (v : Z)
  | U_btcPunishTimelock (v : Z)
  | U_xmrUnlockHeight (v : Z)
  | U_userBtcDepositPubkey (v : string)
  | U_userBtcRefundPubkey (v : string)
  | U_asbBtcRedeemPubkey (v : string)
  | U_userXmrAddress (v : string)
  | U_asbXmrViewKey (v : option string)
  | U_secretHash (v : string)
  | U_secret (v : option string)
  | U_btcLockTxId (v : option string)
  | U_btcLockTxVout (v : option Z)
  | U_btcLockTxHex (v : option string)
  | U_btcRedeemTxId (v : option string)
  | U_btcRefundTxId (v : option string)
  | U_htlcScript (v : option string)
  | U_xmrLockTxId (v : option string)
  | U_xmrRedeemTxId (v : option string)
  | U_encryptedSignature (v : option string)
  | U_lastError (v : option string)
  | U_errorCount (v : Z)
  | U_network (v : NetworkName).

(** [{ ...s, name: v }] for the one property [u] names. *)
Definition applyUpdate (s : SwapState) (u : FieldUpdate) : SwapState :=
  mkSwapState
    (id s)
    (match u with U_peerId v => v | _ => peerId s end)
    (createdAt s)
    (match u with U_updatedAt v => v | _ => updatedAt s end)
    (match u with U_phase v => v | _ => phase s end)
    (phaseHistory s)
    (match u with U_btcAmount v => v | _ => btcAmount s end)
    (match u with U_xmrAmount v => v | _ => xmrAmount s end)
    (match u with U_exchangeRate v => v | _ => exchangeRate s end)
    (match u with U_minBtcLockConfirmations v => v | _ => minBtcLockConfirmations s end)
    (match u with U_minXmrLockConfirmations v => v | _ => minXmrLockConfirmations s end)
    (match u with U_btcCancelTimelock v => v | _ => btcCancelTimelock s end)
    (match u with U_btcPunishTimelock v => v | _ => btcPunishTimelock s end)
    (match u with U_xmrUnlockHeight v => v | _ => xmrUnlockHeight s end)
    (match u with U_userBtcDepositPubkey v => v | _ => userBtcDepositPubkey s end)
    (match u with U_userBtcRefundPubkey v => v | _ => userBtcRefundPubkey s end)
    (match u with U_asbBtcRedeemPubkey v => v | _ => asbBtcRedeemPubkey s end)
    (match u with U_userXmrAddress v => v | _ => userXmrAddress s end)
    (match u with U_asbXmrViewKey v => v | _ => asbXmrViewKey s end)
    (match u with U_secretHash v => v | _ => secretHash s end)
    (match u with U_secret v => v | _ => secret s end)
    (match u with U_btcLockTxId v => v | _ => btcLockTxId s end)
    (match u with U_btcLockTxVout v => v | _ => btcLockTxVout s end)
    (match u with U_btcLockTxHex v => v | _ => btcLockTxHex s end)
    (match u with U_btcRedeemTxId v => v | _ => btcRedeemTxId s end)
    (match u with U_btcRefundTxId v => v | _ => btcRefundTxId s end)
    (match u with U_htlcScript v => v | _ => htlcScript s end)
    (match u with U_xmrLockTxId v => v | _ => xmrLockTxId s end)
    (match u with U_xmrRedeemTxId v => v | _ => xmrRedeemTxId s end)
    (match u with U_encryptedSignature v => v | _ => encryptedSignature s end)
    (match u with U_lastError v => v | _ => lastError s end)
    (match u with U_errorCount v => v | _ => errorCount s end)
    (match u with U_network v => v | _ => network s end).

(** The record as the JavaScript object it is; a property that is not
    set is left out. *)
Definition toJS (s : SwapState) : JS.jsval :=
  JS.VObj (omap (fun kv : string * option JS.jsval => pair kv.1 <$> kv.2)
    [ ("id", Some (JS.VStr (id s)));
      ("peerId", Some (JS.VStr (peerId s)));
      ("createdAt", Some (JS.VInt (createdAt s)));
      ("updatedAt", Some (JS.VInt (updatedAt s)));
      ("phase", Some (JS.VStr (phaseName (phase s))));
      ("phaseHistory", Some (JS.VArr (entryToJS <$> phaseHistory s)));
      ("btcAmount", Some (JS.VBigInt (btcAmount s)));
      ("xmrAmount", Some (JS.VBigInt (xmrAmount s)));
      ("exchangeRate", Some (JS.VNum (exchangeRate s)));
      ("minBtcLockConfirmations", Some (JS.VInt (minBtcLockConfirmations s)));
      ("minXmrLockConfirmations", Some (JS.VInt (minXmrLockConfirmations s)));
      ("btcCancelTimelock", Some (JS.VInt (btcCancelTimelock s)));
      ("btcPunishTimelock", Some (JS.VInt (btcPunishTimelock s)));
      ("xmrUnlockHeight", Some (JS.VInt (xmrUnlockHeight s)));
      ("userBtcDepositPubkey", Some (JS.VStr (userBtcDepositPubkey s)));
      ("userBtcRefundPubkey", Some (JS.VStr (userBtcRefundPubkey s)));
      ("asbBtcRedeemPubkey", Some (JS.VStr (asbBtcRedeemPubkey s)));
      ("userXmrAddress", Some (JS.VStr (userXmrAddress s)));
      ("asbXmrViewKey", JS.VStr <$> asbXmrViewKey s);
      ("secretHash", Some (JS.VStr (secretHash s)));
      ("secret", JS.VStr <$> secret s);
      ("btcLockTxId", JS.VStr <$> btcLockTxId s);
      ("btcLockTxVout", JS.VInt <$> btcLockTxVout s);
      ("btcLockTxHex", JS.VStr <$> btcLockTxHex s);
      ("btcRedeemTxId", JS.VStr <$> btcRedeemTxId s);
      ("btcRefundTxId", JS.VStr <$> btcRefundTxId s);
      ("htlcScript", JS.VStr <$> htlcScript s);
      ("xmrLockTxId", JS.VStr <$> xmrLockTxId s);
      ("xmrRedeemTxId", JS.VStr <$> xmrRedeemTxId s);
      ("encryptedSignature", JS.VStr <$> encryptedSignature s);
      ("lastError", JS.VStr <$> lastError s);
      ("errorCount", Some (JS.VInt (errorCount s)));
      ("network", Some (JS.VStr (networkName (network s)))) ]).

Definition asPhase (v : JS.jsval) : option SwapPhase :=
  s ← JS.asStr v;
  snd <$> list_find (fun p => bool_decide (phaseName p = s)) allPhases.

Definition asNetwork (v : JS.jsval) : option NetworkName :=
  match v with
  | JS.VStr "mainnet" => Some mainnet
  | JS.VStr "testnet" => Some testnet
  | _ => None
  end.

Definition entryFromJS (v : JS.jsval) : option PhaseEntry :=
  p ← asPhase (JS.getProp "phase" v);
  t ← JS.asInt (JS.getProp "timestamp" v);
  d ← JS.optional JS.asStr (JS.getProp "details" v);
  Some (mkPhaseEntry p t d).

(** Reading the record back from a JavaScript object, property by
    property.  TypeScript only casts the parsed value; an object that
    lacks a mandatory property or holds a value of another type has no
    counterpart among the records. *)
Definition fromJS (v : JS.jsval) : option SwapState :=
  f_id ← JS.asStr (JS.getProp "id" v);
  f_peerId ← JS.asStr (JS.getProp "peerId" v);
  f_createdAt ← JS.asInt (JS.getProp "createdAt" v);
  f_updatedAt ← JS.asInt (JS.getProp "updatedAt" v);
  f_phase ← asPhase (JS.getProp "phase" v);
  f_phaseHistory ← JS.asList entryFromJS (JS.getProp "phaseHistory" v);
  f_btcAmount ← JS.asBigInt (JS.getProp "btcAmount" v);
  f_xmrAmount ← JS.asBigInt (JS.getProp "xmrAmount" v);
  f_exchangeRate ← JS.asNum (JS.getProp "exchangeRate" v);
  f_minBtcLockConfirmations ← JS.asInt (JS.getProp "minBtcLockConfirmations" v);
  f_minXmrLockConfirmations ← JS.asInt (JS.getProp "minXmrLockConfirmations" v);
  f_btcCancelTimelock ← JS.asInt (JS.getProp "btcCancelTimelock" v);
  f_btcPunishTimelock ← JS.asInt (JS.getProp "btcPunishTimelock" v);
  f_xmrUnlockHeight ← JS.asInt (JS.getProp "xmrUnlockHeight" v);
  f_userBtcDepositPubkey ← JS.asStr (JS.getProp "userBtcDepositPubkey" v);
  f_userBtcRefundPubkey ← JS.asStr (JS.getProp "userBtcRefundPubkey" v);
  f_asbBtcRedeemPubkey ← JS.asStr (JS.getProp "asbBtcRedeemPubkey" v);
  f_userXmrAddress ← JS.asStr (JS.getProp "userXmrAddress" v);
  f_asbXmrViewKey ← JS.optional JS.asStr (JS.getProp "asbXmrViewKey" v);
  f_secretHash ← JS.asStr (JS.getProp "secretHash" v);
  f_secret ← JS.optional JS.asStr (JS.getProp "secret" v);
  f_btcLockTxId ← JS.optional JS.asStr (JS.getProp "btcLockTxId" v);
  f_btcLockTxVout ← JS.optional JS.asInt (JS.getProp "btcLockTxVout" v);
  f_btcLockTxHex ← JS.optional JS.asStr (JS.getProp "btcLockTxHex" v);
  f_btcRedeemTxId ← JS.optional JS.asStr (JS.getProp "btcRedeemTxId" v);
  f_btcRefundTxId ← JS.optional JS.asStr (JS.getProp "btcRefundTxId" v);
  f_htlcScript ← JS.optional JS.asStr (JS.getProp "htlcScript" v);
  f_xmrLockTxId ← JS.optional JS.asStr (JS.getProp "xmrLockTxId" v);
  f_xmrRedeemTxId ← JS.optional JS.asStr (JS.getProp "xmrRedeemTxId" v);
  f_encryptedSignature ← JS.optional JS.asStr (JS.getProp "encryptedSignature" v);
  f_lastError ← JS.optional JS.asStr (JS.getProp "lastError" v);
  f_errorCount ← JS.asInt (JS.getProp "errorCount" v);
  f_network ← asNetwork (JS.getProp "network" v);
  Some (mkSwapState
    f_id f_peerId f_createdAt f_updatedAt f_phase f_phaseHistory
    f_btcAmount f_xmrAmount f_exchangeRate f_minBtcLockConfirmations
    f_minXmrLockConfirmations f_btcCancelTimelock f_btcPunishTimelock
    f_xmrUnlockHeight f_userBtcDepositPubkey f_userBtcRefundPubkey
    f_asbBtcRedeemPubkey f_userXmrAddress f_asbXmrViewKey f_secretHash
    f_secret f_btcLockTxId f_btcLockTxVout f_btcLockTxHex f_btcRedeemTxId
    f_btcRefundTxId f_htlcScript f_xmrLockTxId f_xmrRedeemTxId
    f_encryptedSignature f_lastError f_errorCount f_network).

Definition STORAGE_KEY_PREFIX : string := "atomic_swap_".
Definition SWAP_LIST_KEY : string := "atomic_swap_list".

Record CreateParams : Type := mkCreateParams {
  p_peerId : string;
  p_btcAmount : Z;
  p_xmrAmount : Z;
  p_exchangeRate : spec_float;
  p_userBtcDepositPubkey : bytes;
  p_userBtcRefundPubkey : bytes;
  p_asbBtcRedeemPubkey : bytes;
  p_userXmrAddress : string;
  p_secretHash : bytes;
  p_btcCancelTimelock : Z;
  p_btcPunishTimelock : Z;
  p_minBtcLockConfirmations : Z;
  p_minXmrLockConfirmations : Z;
  p_network : NetworkName;
}.

(** Generate unique swap ID. *)
Definition generateSwapId : M string :=
  let* now := Date_now in
  let timestamp := Num.toString 36 now in
  let* random := getRandomValues 8 in
  let randomStr := JS.sliceTo 8 (Hex.encode random) in
  ret ("swap_" +:+ timestamp +:+ "_" +:+ randomStr).

(** Create a new swap state. *)
Definition createSwapState (params : CreateParams) : M SwapState :=
  let* id := generateSwapId in
  let* now := Date_now in
  ret (mkSwapState
         id (p_peerId params) now now SWAP_INITIATED
         [mkPhaseEntry SWAP_INITIATED now None]
         (p_btcAmount params) (p_xmrAmount params) (p_exchangeRate params)
         (p_minBtcLockConfirmations params) (p_minXmrLockConfirmations params)
         (p_btcCancelTimelock params) (p_btcPunishTimelock params)
         0
         (Hex.encode (p_userBtcDepositPubkey params))
         (Hex.encode (p_userBtcRefundPubkey params))
         (Hex.encode (p_asbBtcRedeemPubkey params))
         (p_userXmrAddress params)
         None
         (Hex.encode (p_secretHash params))
         None None None None None None None None None None None
         0 (p_network params)).

(** Transition to a new phase:
    [{ ...state, phase: newPhase, updatedAt: now, phaseHistory: [...] }]. *)
Definition transitionPhase (state : SwapState) (newPhase : SwapPhase)
    (details : option string) : M SwapState :=
  let* now := Date_now in
  ret (mkSwapState
         (id state) (peerId state) (createdAt state) now newPhase
         (phaseHistory state ++ [mkPhaseEntry newPhase now details])
         (btcAmount state) (xmrAmount state) (exchangeRate state)
         (minBtcLockConfirmations state) (minXmrLockConfirmations state)
         (btcCancelTimelock state) (btcPunishTimelock state)
         (xmrUnlockHeight state)
         (userBtcDepositPubkey state) (userBtcRefundPubkey state)
         (asbBtcRedeemPubkey state) (userXmrAddress state)
         (asbXmrViewKey state) (secretHash state) (secret state)
         (btcLockTxId state) (btcLockTxVout state) (btcLockTxHex state)
         (btcRedeemTxId state) (btcRefundTxId state) (htlcScript state)
         (xmrLockTxId state) (xmrRedeemTxId state) (encryptedSignature state)
         (lastError state) (errorCount state) (network state)).

(** Update swap with new data:
    [{ ...state, ...updates, updatedAt: Date.now() }]. *)
Definition updateSwapState (state : SwapState) (updates : list FieldUpdate)
    : M SwapState :=
  let* now := Date_now in
  ret (applyUpdate (fold_left applyUpdate updates state) (U_updatedAt now)).

(** Record error. *)
Definition recordSwapError (state : SwapState) (error : string) : M SwapState :=
  let* now := Date_now in
  ret (applyUpdate
         (applyUpdate (applyUpdate state (U_lastError (Some error)))
            (U_errorCount (errorCount state + 1)))
         (U_updatedAt now)).

(** Serialization with BigInt support. *)
Definition replacer (_ : string) (value : JS.jsval) : JS.jsval :=
  match value with
  | JS.VBigInt z => JS.VStr ("bigint:" +:+ Num.decimal z)
  | _ => value
  end.

Definition reviver (_ : string) (value : JS.jsval) : result JS.jsval :=
  match value with
  | JS.VStr s =>
      if JS.startsWith s "bigint:"
      then result_bind (JS.BigInt_of_string (JS.sliceFrom 7 s))
                       (fun z => Ok (JS.VBigInt z))
      else Ok value
  | _ => Ok value
  end.

(** [JSON.stringify] of an object is never [undefined]; the last branch
    is there for the type only. *)
Definition serializeSwapState (state : SwapState) : result JS.json :=
  result_bind (JS.stringify (toJS state) replacer) (fun o =>
    match o with
    | Some text => Ok text
    | None => Throw (JsError "undefined")
    end).

Definition deserializeSwapState (serialized : JS.json) : result JS.jsval :=
  JS.parse serialized reviver.

(** The parsed list of swap ids, as stored. *)
Definition getSwapIdList : M JS.json :=
  let* w := hasWindow in
  if negb w then ret (JS.JArray []) else
  let* listJson := localStorage_getItem SWAP_LIST_KEY in
  match listJson with
  | None => ret (JS.JArray [])
  | Some parsed => ret parsed
  end.

Definition isId (swapId : string) (item : JS.json) : bool :=
  match item with
  | JS.JString s => bool_decide (s = swapId)
  | _ => false
  end.

(** Storage operations using localStorage. *)
Definition saveSwapState (state : SwapState) : M unit :=
  let* w := hasWindow in
  if negb w then ret tt else
  let key := STORAGE_KEY_PREFIX +:+ id state in
  let* serialized := lift (serializeSwapState state) in
  localStorage_setItem key serialized ;;
  let* list := getSwapIdList in
  match list with
  | JS.JArray items =>
      if existsb (isId (id state)) items then ret tt
      else localStorage_setItem SWAP_LIST_KEY
             (JS.JArray (items ++ [JS.JString (id state)]))
  | JS.JString text =>
      (* a string has [includes], but no [push] *)
      if JS.includes text (id state) then ret tt
      else throw "list.push is not a function"
  | JS.JNull => throw "Cannot read properties of null (reading 'includes')"
  | _ => throw "list.includes is not a function"
  end.

(** The cast of the parsed value to [SwapState] is [fromJS]; a stored
    value that is no swap record is reported as an error here, where the
    source would hand the ill-typed object on. *)
Definition loadSwapState (swapId : string) : M (option SwapState) :=
  let* w := hasWindow in
  if negb w then ret None else
  let key := STORAGE_KEY_PREFIX +:+ swapId in
  let* serialized := localStorage_getItem key in
  match serialized with
  | None => ret None
  | Some text =>
      let* v := lift (deserializeSwapState text) in
      match fromJS v with
      | Some s => ret (Some s)
      | None => throw "stored value is not a SwapState"
      end
  end.

Definition deleteSwapState (swapId : string) : M unit :=
  let* w := hasWindow in
  if negb w then ret tt else
  let key := STORAGE_KEY_PREFIX +:+ swapId in
  localStorage_removeItem key ;;
  let* list := getSwapIdList in
  match list with
  | JS.JArray items =>
      localStorage_setItem SWAP_LIST_KEY
        (JS.JArray (filter (fun item => isId swapId item = false) items))
  | JS.JNull => throw "Cannot read properties of null (reading 'filter')"
  | _ => throw "getSwapIdList(...).filter is not a function"
  end.

(** Phase helpers. *)
Definition isTerminalPhase (phase : SwapPhase) : bool :=
  existsb (fun p => bool_decide (p = phase)) [COMPLETED; REFUNDED; FAILED].

(** Can refund if timelock expired and BTC hasn't been redeemed. *)
Definition canRefund (state : SwapState) (currentBlockHeight : Z) : bool :=
  (btcCancelTimelock state <=? currentBlockHeight)
  && negb (bool_decide (phase state = BTC_REDEEMED))
  && negb (bool_decide (phase state = XMR_REDEEMED))
  && negb (bool_decide (phase state = COMPLETED))
  && bool_decide (btcLockTxId state <> None).
(** [list.map(id => loadSwapState(id))]: the computations of a list, run
    from left to right. *)
Fixpoint forEach {A B} (f : A -> M B) (l : list A) : M (list B) :=
  match l with
  | [] => ret []
  | a :: rest =>
      let* b := f a in
      let* bs := forEach f rest in
      ret (b :: bs)
  end.

(** [sort((a, b) => b.createdAt - a.createdAt)]: newest first, records
    of the same age in the order they had (the sort is stable). *)
Fixpoint insertNewestFirst (s : SwapState) (l : list SwapState)
    : list SwapState :=
  match l with
  | [] => [s]
  | x :: rest =>
      if createdAt x <=? createdAt s then s :: l
      else x :: insertNewestFirst s rest
  end.

Definition sortNewestFirst (l : list SwapState) : list SwapState :=
  foldr insertNewestFirst [] l.

Section Listing.
(** The text of a stored id that is not a string, as the template
    literal of [loadSwapState] makes it. *)
Variable ToString : JS.json -> string.

Definition idText (item : JS.json) : string :=
  match item with
  | JS.JString s => s
  | other => ToString other
  end.

Definition getAllSwapStates : M (list SwapState) :=
  let* w := hasWindow in
  if negb w then ret [] else
  let* list := getSwapIdList in
  match list with
  | JS.JArray items =>
      let* loaded := forEach (fun item => loadSwapState (idText item)) items in
      ret (sortNewestFirst (omap (fun state => state) loaded))
  | JS.JNull => throw "Cannot read properties of null (reading 'map')"
  | _ => throw "list.map is not a function"
  end.

Definition getActiveSwaps : M (list SwapState) :=
  let* all := getAllSwapStates in
  ret (List.filter (fun swap => negb (isTerminalPhase (phase swap))) all).

Definition getPendingSwaps : M (list SwapState) :=
  let* all := getAllSwapStates in
  ret (List.filter
         (fun swap =>
            negb (bool_decide (phase swap = COMPLETED))
            && negb (bool_decide (phase swap = REFUNDED))
            && negb (bool_decide (phase swap = FAILED)))
         all).
End Listing.
End State.

(** ** Bech32 (BIP 173), as [btc.Address(network).encode] uses it for a
       version-0 witness program *)

Module Bech32.
Definition CHARSET : string := "qpzry9x8gf2tvdw0s3jn54khce6mua7l".
Definition GEN : list Z :=
  [0x3b6a57b2; 0x26508e6d; 0x1ea119fa; 0x3d4233dd; 0x2a1462b3].

Definition polymodStep (chk v : Z) : Z :=
  let b := Z.shiftr chk 25 in
  let chk' := Z.lxor (Z.shiftl (Z.land chk 0x1ffffff) 5) v in
  fold_left
    (fun acc ig => if Z.testbit b (Z.of_nat ig.1) then Z.lxor acc ig.2 else acc)
    (imap (fun i g => (i, g)) GEN) chk'.

Definition polymod (values : list Z) : Z := fold_left polymodStep values 1.

Definition codes (s : string) : list Z :=
  (fun c => Z.of_nat (nat_of_ascii c)) <$> list_ascii_of_string s.

Definition hrpExpand (hrp : string) : list Z :=
  ((fun c => Z.shiftr c 5) <$> codes hrp) ++ [0]
    ++ ((fun c => Z.land c 31) <$> codes hrp).

Definition createChecksum (hrp : string) (data : list Z) : list Z :=
  let pm := Z.lxor (polymod (hrpExpand hrp ++ data ++ replicate 6 0)) 1 in
  (fun i => Z.land (Z.shiftr pm (5 * (5 - Z.of_nat i))) 31) <$> seq 0 6.

(** Regroup bytes into 5-bit groups, padding the last group with zeros. *)
Fixpoint toWords (acc bits : Z) (bs : list Z) : list Z :=
  let fix flush (n : nat) (acc bits : Z) : list Z * Z :=
    match n with
    | O => ([], bits)
    | S n' =>
        if 5 <=? bits
        then let '(ws, b) := flush n' acc (bits - 5) in
             (Z.land (Z.shiftr acc (bits - 5)) 31 :: ws, b)
        else ([], bits)
    end in
  match bs with
  | [] => if 0 <? bits then [Z.land (Z.shiftl acc (5 - bits)) 31] else []
  | b :: rest =>
      let acc' := Z.lor (Z.shiftl acc 8) b in
      let '(ws, bits') := flush 3%nat acc' (bits + 8) in
      ws ++ toWords (Z.land acc' (Z.ones bits')) bits' rest
  end.

Definition char (w : Z) : ascii :=
  default "q"%char (String.get (Z.to_nat w) CHARSET).

Definition encode (hrp : string) (data : list Z) : string :=
  hrp +:+ "1"
      +:+ string_of_list_ascii (char <$> (data ++ createChecksum hrp data)).

(** A version-0 witness program: [wpkh] for 20 bytes, [wsh] for 32. *)
Definition segwitV0 (hrp : string) (program : bytes) : string :=
  encode hrp (0 :: toWords 0 0 (byte_to_Z <$> program)).

(** Reading an address: the value of each character, and whether a text
    is a version-0 witness address under [hrp], that is the prefix, the
    separator [1], the version 0, a program of 20 or 32 bytes in 5-bit
    groups, and six characters that make the checksum come out as 1. *)
Fixpoint indexIn (c : ascii) (s : string) (i : nat) : option nat :=
  match s with
  | EmptyString => None
  | String c' rest =>
      if bool_decide (c' = c) then Some i else indexIn c rest (S i)
  end.

Definition values (s : string) : option (list Z) :=
  mapM (fun c => Z.of_nat <$> indexIn c CHARSET 0) (list_ascii_of_string s).

Definition isSegwitV0 (hrp address : string) : bool :=
  if String.prefix (hrp +:+ "1") address then
    let n := S (String.length hrp) in
    match values (String.substring n (String.length address - n) address) with
    | Some (0 :: data) =>
        (polymod (hrpExpand hrp ++ 0 :: data) =? 1)
        && (bool_decide (length data = 38%nat)
            || bool_decide (length data = 58%nat))
    | _ => false
    end
  else false.
End Bech32.

(** ** [lib/bitcoin/transactions.ts]: Bitcoin transaction builder *)

Module Transactions.
(** Network parameters. *)
Record Network : Type := mkNetwork {
  bech32 : string;
  pubKeyHash : Z;
  scriptHash : Z;
  wif : Z;
}.

Definition MAINNET : Network := mkNetwork "bc" 0x00 0x05 0x80.
Definition TESTNET : Network := mkNetwork "tb" 0x6f 0xc4 0xef.

Record HtlcParams : Type := mkHtlcParams {
  secretHash : bytes;      (* SHA256 hash of the secret (32 bytes) *)
  redeemPubkey : bytes;    (* Alice's pubkey for redeeming (ASB) *)
  refundPubkey : bytes;    (* Bob's pubkey for refunding (User) *)
  locktime : Z;            (* Block height or timestamp for refund *)
}.

(** *** [btc.Script.encode] of @scure/btc-signer, for the two kinds of
    element this file passes: an opcode name and a byte string to push. *)
Inductive ScriptElem : Type :=
  | Op (name : string)
  | Push (data : bytes).

(** The opcodes this repository names. *)
Definition OP (name : string) : option Z :=
  if bool_decide (name = "OP_0") then Some 0x00
  else if bool_decide (name = "IF") then Some 0x63
  else if bool_decide (name = "ELSE") then Some 0x67
  else if bool_decide (name = "ENDIF") then Some 0x68
  else if bool_decide (name = "DROP") then Some 0x75
  else if bool_decide (name = "SIZE") then Some 0x82
  else if bool_decide (name = "EQUALVERIFY") then Some 0x88
  else if bool_decide (name = "SHA256") then Some 0xa8
  else if bool_decide (name = "CHECKSIG") then Some 0xac
  else if bool_decide (name = "CHECKLOCKTIMEVERIFY") then Some 0xb1
  else None.

Definition pushPrefix (len : Z) : list Z :=
  if len <? 0x4c then [len]
  else if len <=? 0xff then [0x4c; len]
  else if len <=? 0xffff then [0x4d; len mod 256; len / 256]
  else [0x4e; len mod 256; len / 256 mod 256; len / 65536 mod 256;
        len / 16777216 mod 256].

Definition encodeElem (e : ScriptElem) : result bytes :=
  match e with
  | Op name =>
      match OP name with
      | Some code => Ok [byte_of_Z code]
      | None => Throw (JsError ("Unknown opcode=" +:+ name))
      end
  | Push data =>
      Ok ((byte_of_Z <$> pushPrefix (Z.of_nat (length data))) ++ data)
  end.

Fixpoint Script_encode (elems : list ScriptElem) : result bytes :=
  match elems with
  | [] => Ok []
  | e :: rest =>
      result_bind (encodeElem e) (fun b =>
      result_bind (Script_encode rest) (fun bs => Ok (b ++ bs)))
  end.

(** *** The number encoding local to [createHtlcScript].  [&] and [>>=]
    work on the 32-bit two's complement reading of their operand. *)
Definition toInt32 (x : Z) : Z := (x + 2 ^ 31) mod 2 ^ 32 - 2 ^ 31.

(** [while (val > 0) { bytes.push(val & 0xff); val >>= 8; }] *)
Fixpoint encodeNum_loop (fuel : nat) (val : Z) (bs : list Z) : result (list Z) :=
  if 0 <? val then
    match fuel with
    | O => Throw OutOfFuel
    | S fuel' =>
        encodeNum_loop fuel' (Z.shiftr (toInt32 val) 8)
          (bs ++ [Z.land (toInt32 val) 0xff])
    end
  else Ok bs.

Definition encodeNum (n : Z) : result bytes :=
  if n =? 0 then Ok []
  else if (1 <=? n) && (n <=? 16) then Ok [byte_of_Z (0x50 + n)]
  else
    result_bind (encodeNum_loop 8 (Z.abs n) []) (fun bs =>
      let last := List.last bs 0 in
      Ok (byte_of_Z <$>
            (if Z.land last 0x80 =? 0
             then if n <? 0
                  then removelast bs ++ [Z.lor last 0x80]
                  else bs
             else bs ++ [if n <? 0 then 0x80 else 0x00]))).

Definition createHtlcScript (params : HtlcParams) : result bytes :=
  result_bind (encodeNum 32) (fun n32 =>
  result_bind (encodeNum (locktime params)) (fun nLock =>
  Script_encode
    [ (* IF branch - redeem with secret *)
      Op "IF";
      Op "SIZE"; Push n32; Op "EQUALVERIFY";
      Op "SHA256"; Push (secretHash params); Op "EQUALVERIFY";
      Push (redeemPubkey params);
      (* ELSE branch - refund after timelock *)
      Op "ELSE";
      Push nLock; Op "CHECKLOCKTIMEVERIFY"; Op "DROP";
      Push (refundPubkey params);
      Op "ENDIF";
      Op "CHECKSIG" ])).

(** Create P2WSH address from script. *)
Definition htlcScriptToAddress (script : bytes) (network : Network) : string :=
  let scriptHash := sha256 script in
  Bech32.segwitV0 (bech32 network) scriptHash.

(** *** Transactions, as far as the builder fills them in. *)
Record TxInput : Type := mkTxInput {
  in_txid : string;
  in_index : Z;
  in_script : bytes;
  in_amount : Z;
}.

Record TxOutput : Type := mkTxOutput {
  out_address : string;
  out_amount : Z;
}.

Record Transaction : Type := mkTransaction {
  tx_inputs : list TxInput;
  tx_outputs : list TxOutput;
}.

(** What the signing library decides on its own: which inputs and outputs
    it takes, and the raw bytes of a transaction it is willing to
    extract. *)
Record SignerLib : Type := mkSignerLib {
  acceptsInput : TxInput -> bool;
  acceptsOutput : string -> Z -> Network -> bool;
  extract : Transaction -> result bytes;
}.

Record Utxo : Type := mkUtxo {
  txid : string;
  vout : Z;
  value : Z;
  script : bytes;
}.

Record LockTxParams : Type := mkLockTxParams {
  inputs : list Utxo;
  htlcScript : bytes;
  amount : Z;              (* Amount to lock in satoshis *)
  changeAddress : string;  (* Change address *)
  feeRate : spec_float;    (* Satoshis per vbyte *)
  network : Network;
}.

Definition floatOfZ (z : Z) : spec_float :=
  match z with
  | Z0 => S754_zero false
  | Zpos p => S754_finite false p 0
  | Zneg p => S754_finite true p 0
  end.

Definition mul (x y : spec_float) : spec_float := SFmul 53 1024 x y.

(** [BigInt(Math.ceil(x))]: a RangeError unless [x] is finite. *)
Definition BigInt_ceil (x : spec_float) : result Z :=
  match x with
  | S754_zero _ => Ok 0
  | S754_finite sg m e =>
      if 0 <=? e then Ok ((if sg then -1 else 1) * (Z.pos m * 2 ^ e))
      else if sg then Ok (- (Z.pos m / 2 ^ (- e)))
      else Ok ((Z.pos m + 2 ^ (- e) - 1) / 2 ^ (- e))
  | _ => Throw (JsError "The number cannot be converted to a BigInt because it is not an integer")
  end.

Section Builder.
Variable lib : SignerLib.

Definition addInput (i : TxInput) (tx : Transaction) : result Transaction :=
  if acceptsInput lib i
  then Ok (mkTransaction (tx_inputs tx ++ [i]) (tx_outputs tx))
  else Throw (JsError "invalid input").

Definition addOutputAddress (address : string) (amount : Z) (network : Network)
    (tx : Transaction) : result Transaction :=
  if acceptsOutput lib address amount network
  then Ok (mkTransaction (tx_inputs tx) (tx_outputs tx ++ [mkTxOutput address amount]))
  else Throw (JsError "invalid output").

(** [for (const input of inputs) { tx.addInput(...); totalInput += input.value; }] *)
Fixpoint addInputs (ins : list Utxo) (tx : Transaction) (totalInput : Z)
    : result (Transaction * Z) :=
  match ins with
  | [] => Ok (tx, totalInput)
  | input :: rest =>
      result_bind
        (addInput (mkTxInput (txid input) (vout input) (script input) (value input)) tx)
        (fun tx' => addInputs rest tx' (totalInput + value input))
  end.

Definition estimateFee (inputCount : nat) (feeRate : spec_float) : result Z :=
  let estimatedSize := 150 + Z.of_nat inputCount * 70 in
  BigInt_ceil (mul (floatOfZ estimatedSize) feeRate).

(** Create the lock transaction (funds the HTLC). *)
Definition createLockTransaction (params : LockTxParams) : result Transaction :=
  let tx := mkTransaction [] [] in
  (* Add inputs *)
  result_bind (addInputs (inputs params) tx 0) (fun '(tx, totalInput) =>
  (* Calculate HTLC output script (P2WSH) *)
  let htlcScriptHash := sha256 (htlcScript params) in
  result_bind (Script_encode [Op "OP_0"; Push htlcScriptHash]) (fun htlcOutputScript =>
  (* Add HTLC output *)
  result_bind
    (addOutputAddress (htlcScriptToAddress (htlcScript params) (network params))
       (amount params) (network params) tx) (fun tx =>
  (* Estimate fee (rough calculation) *)
  result_bind (estimateFee (length (inputs params)) (feeRate params)) (fun fee =>
  (* Add change output if there's enough *)
  let change := totalInput - amount params - fee in
  if 546 <? change
  then addOutputAddress (changeAddress params) change (network params) tx
  else Ok tx)))).
End Builder.

(** Generate a random 32-byte secret. *)
Definition generateSecret : M bytes := getRandomValues 32.

(** Hash the secret for the HTLC. *)
Definition hashSecret (secret : bytes) : bytes := sha256 secret.
End Transactions.

(** ** [lib/p2p/discovery.ts]: [ProviderDiscovery.getQuote] *)

Module Discovery.
(** Get a quote from a specific provider.  The whole body sits in a
    [try]; the [catch] logs the error and answers [null]. *)
Definition getQuote (provider : DiscoveredProvider) (btcAmount : Z)
    : M (option AsbQuoteResponse) :=
  try_catch
    (match quote provider with
     | None => ret None
     | Some q =>
         (* Validate amount against provider limits *)
         if btcAmount <? min_quantity q then
           throw ("Amount below minimum: " +:+ Num.decimal (min_quantity q)
                    +:+ " satoshis")
         else if max_quantity q <? btcAmount then
           throw ("Amount above maximum: " +:+ Num.decimal (max_quantity q)
                    +:+ " satoshis")
         else ret (Some q)
     end)
    (fun error =>
       console_error ("Failed to get quote: Error: " +:+ error) ;;
       ret None).

(** Calculate XMR amount for given BTC amount and price. *)
Definition calculateXmrAmount (btcSatoshis priceInPiconeroPerSat : Z) : Z :=
  btcSatoshis * priceInPiconeroPerSat.
End Discovery.

(** ** [lib/swapProvider.ts]: [SwapProviderService.getQuote] *)

Module SwapProvider.
Record SwapProvider : Type := mkSwapProvider {
  peerId : string;
  multiaddr : string;
  testnet : bool;
  minBtc : string;
  maxBtc : string;
  price : string;          (* XMR per BTC *)
  uptime : spec_float;
  age : string;
}.

Record SwapQuote : Type := mkSwapQuote {
  provider : SwapProvider;
  btcAmount : string;
  xmrAmount : string;
  fee : string;
  rate : string;
  expiresAt : Z;
}.

(** The double written [0.001]. *)
Definition one_thousandth : spec_float :=
  S754_finite false 1152921504606847 (-60).

Section Quote.
(** The engine's conversions between text and doubles. *)
Variable parseFloat : string -> spec_float.
Variable toFixed : spec_float -> Z -> string.

Definition lt (x y : spec_float) : bool := SFltb x y.
Definition div (x y : spec_float) : spec_float := SFdiv 53 1024 x y.
Definition mul (x y : spec_float) : spec_float := SFmul 53 1024 x y.

(** Get a quote from a specific provider. *)
Definition getQuote (provider : SwapProvider) (btcAmount : string)
    : M SwapQuote :=
  let btc := parseFloat btcAmount in
  let rate := parseFloat (price provider) in
  (* Check amount limits *)
  if lt btc (parseFloat (minBtc provider)) then
    throw ("Amount below minimum: " +:+ minBtc provider +:+ " BTC")
  else if lt (parseFloat (maxBtc provider)) btc then
    throw ("Amount above maximum: " +:+ maxBtc provider +:+ " BTC")
  else
    (* Calculate XMR amount (BTC amount / rate = XMR amount) *)
    let xmrAmount := toFixed (div btc rate) 12 in
    (* Estimate fee (typically ~0.1% for atomic swaps) *)
    let fee := toFixed (mul btc one_thousandth) 8 in
    let* now := Date_now in
    ret (mkSwapQuote provider (toFixed btc 8) xmrAmount fee (toFixed rate 8)
           (now + 5 * 60 * 1000)).
End Quote.

(** Validate Bitcoin address. *)
Definition isValidBitcoinAddress (address : string) (isMainnet : bool) : bool :=
  if isMainnet then
    JS.startsWith address "bc1q" || JS.startsWith address "bc1p"
  else
    JS.startsWith address "tb1q" || JS.startsWith address "tb1p".
End SwapProvider.

(** ** [lib/monero/address.ts]: Monero addresses *)

Module MoneroAddress.
Inductive MoneroNetwork : Type := xmr_mainnet | xmr_testnet | xmr_stagenet.
Inductive AddressType : Type := standard | integrated | subaddress.

#[export] Instance MoneroNetwork_eq_dec : EqDecision MoneroNetwork.
Proof. solve_decision. Defined.

(** Base58 alphabet for Monero. *)
Definition MONERO_BASE58_ALPHABET : string :=
  "123456789ABCDEFGHJKLMNPQRSTUVWXYZabcdefghijkmnopqrstuvwxyz".

Fixpoint indexOf (c : ascii) (alphabet : string) (i : Z) : option Z :=
  match alphabet with
  | EmptyString => None
  | String c' rest =>
      if bool_decide (c' = c) then Some i else indexOf c rest (i + 1)
  end.

(** [for (const char of block) { ... num = num * base + BigInt(idx); }] *)
Fixpoint blockValue (block : string) (num : Z) : result Z :=
  match block with
  | EmptyString => Ok num
  | String c rest =>
      match indexOf c MONERO_BASE58_ALPHABET 0 with
      | Some idx => blockValue rest (num * 58 + idx)
      | None => Throw (JsError ("Invalid base58 character: " +:+ String c EmptyString))
      end
  end.

(** The [outputSize] low bytes of [num], the highest first. *)
Definition blockBytes (outputSize : nat) (num : Z) : list Z :=
  (fun j => (num / 256 ^ Z.of_nat (outputSize - 1 - j)) mod 256)
    <$> seq 0 outputSize.

(** Decode Monero base58, in blocks of 11 characters; [fuel] bounds the
    number of blocks. *)
Fixpoint base58Decode_loop (fuel : nat) (encoded : string) : result (list Z) :=
  match fuel with
  | O => Ok []
  | S fuel' =>
      match encoded with
      | EmptyString => Ok []
      | _ =>
          let len := String.length encoded in
          let block := String.substring 0 11 encoded in
          let isLastBlock := (len <=? 11)%nat in
          let outputSize :=
            if isLastBlock && (String.length block <? 11)%nat
            then ((String.length block * 8 + 10) / 11)%nat  (* Math.ceil *)
            else 8%nat in
          result_bind (blockValue block 0) (fun num =>
          result_bind
            (base58Decode_loop fuel' (String.substring 11 (len - 11) encoded))
            (fun rest => Ok (blockBytes outputSize num ++ rest)))
      end
  end.

Definition base58Decode (encoded : string) : result (list Z) :=
  base58Decode_loop (S (String.length encoded)) encoded.

Definition errorText {A} (r : result A) : string :=
  match r with
  | Throw (JsError msg) => msg
  | _ => "unknown error"
  end.

(** Validate and parse a Monero address, as far as network and type.
    The checksum is computed in the source, and compared with
    nothing. *)
Definition parseMoneroAddress (address : string)
    : result (MoneroNetwork * AddressType) :=
  if (String.length address <? 95)%nat then
    Throw (JsError "Invalid Monero address: too short")
  else
    let body :=
      result_bind (base58Decode address) (fun decoded =>
        (* 1 prefix + 32 spend + 32 view + 4 checksum = 69 bytes *)
        if (length decoded <? 69)%nat then
          Throw (JsError "Invalid Monero address: decoded length too short")
        else
          let prefix := default 0 (head decoded) in
          if prefix =? 0x12 then Ok (xmr_mainnet, standard)
          else if prefix =? 0x35 then Ok (xmr_testnet, standard)
          else if prefix =? 0x18 then Ok (xmr_stagenet, standard)
          else if prefix =? 0x13 then Ok (xmr_mainnet, integrated)
          else if prefix =? 0x36 then Ok (xmr_testnet, integrated)
          else if prefix =? 0x2a then Ok (xmr_mainnet, subaddress)
          else if prefix =? 0x3f then Ok (xmr_testnet, subaddress)
          else Throw (JsError ("Unknown Monero address prefix: "
                                 +:+ Num.decimal prefix))) in
    match body with
    | Ok parsed => Ok parsed
    | Throw e =>
        Throw (JsError ("Invalid Monero address: " +:+ errorText body))
    end.

(** Check if address is valid without throwing. *)
Definition isValidMoneroAddress (address : string)
    (expectedNetwork : option MoneroNetwork) : bool :=
  match parseMoneroAddress address with
  | Ok (network, _) =>
      match expectedNetwork with
      | Some expected => bool_decide (network = expected)
      | None => true
      end
  | Throw _ => false
  end.

(** [s.slice(start, end)] for integral arguments: a negative index counts
    from the end, and both are clamped to the string. *)
Definition slice (s : string) (start stop : Z) : string :=
  let len := Z.of_nat (String.length s) in
  let clamp (i : Z) := if i <? 0 then Z.max (len + i) 0 else Z.min i len in
  let from := clamp start in
  let to := clamp stop in
  String.substring (Z.to_nat from) (Z.to_nat (Z.max (to - from) 0)) s.

(** [s.slice(start)]. *)
Definition sliceFrom (s : string) (start : Z) : string :=
  slice s start (Z.of_nat (String.length s)).

(** Format address for display (truncated).  [-endChars] is [-0], that
    is 0, when [endChars] is 0. *)
Definition formatMoneroAddress (address : string) (startChars endChars : Z)
    : string :=
  if Z.of_nat (String.length address) <=? startChars + endChars + 3 then
    address
  else
    slice address 0 startChars +:+ "..." +:+ sliceFrom address (- endChars).
End MoneroAddress.

(** ** [lib/p2p/swapExecution.ts]: the simulated swap execution

    The swap states are objects that the executions, the table of active
    swaps and the listeners share: they live in a store and are named by
    their position in it.  The listeners are observers, a call of one is
    an entry of the log; the awaited delays move the clock. *)

Module SwapExecution.
Inductive SwapPhase : Type :=
  | initialized
  | btc_lock_published
  | btc_lock_confirmed
  | xmr_lock_proof_received
  | xmr_locked
  | encrypted_signature_sent
  | btc_redeemed
  | xmr_redeemed
  | cancel_timelock_expired
  | btc_cancelled
  | btc_refunded
  | btc_punished.

#[export] Instance SwapPhase_eq_dec : EqDecision SwapPhase.
Proof. solve_decision. Defined.

Definition phaseName (p : SwapPhase) : string :=
  match p with
  | initialized => "initialized"
  | btc_lock_published => "btc_lock_published"
  | btc_lock_confirmed => "btc_lock_confirmed"
  | xmr_lock_proof_received => "xmr_lock_proof_received"
  | xmr_locked => "xmr_locked"
  | encrypted_signature_sent => "encrypted_signature_sent"
  | btc_redeemed => "btc_redeemed"
  | xmr_redeemed => "xmr_redeemed"
  | cancel_timelock_expired => "cancel_timelock_expired"
  | btc_cancelled => "btc_cancelled"
  | btc_refunded => "btc_refunded"
  | btc_punished => "btc_punished"
  end.

Record SwapState : Type := mkSwapState {
  id : string;
  phase : SwapPhase;
  provider : DiscoveredProvider;
  btcAmount : Z;             (* satoshis *)
  xmrAmount : Z;             (* piconero *)
  xmrReceiveAddress : string;
  btcRefundAddress : string;
  btcLockTxId : option string;
  xmrLockTxId : option string;
  btcRedeemTxId : option string;
  cancelTimelock : Z;
  punishTimelock : Z;
  startTime : Z;
  lastUpdate : Z;
  error : option string;
}.

(** The calls of the listeners.  (A state object is referred to by its
    position in the store.) *)
Inductive Call : Type :=
  | OnPhaseChange (listener : nat) (phase : SwapPhase) (state : SwapState)
  | OnError (listener : nat) (message : string) (state : SwapState)
  | OnComplete (listener : nat) (state : SwapState).

Record Store : Type := mkStore {
  objects : list SwapState;
  activeSwaps : list (string * nat);   (* a Map, in insertion order *)
  now : Z;
  uuids : nat -> string;               (* crypto.randomUUID *)
  uuidPos : nat;
  randoms : nat -> nat;                (* Math.floor(Math.random() * 16) *)
  randomPos : nat;
  calls : list Call;
}.

Record Execution : Type := mkExecution {
  state : nat;
  listeners : list nat;
}.

(** [Map.prototype.set]: the value of a key that is there is replaced
    where it stands, a new key goes to the end. *)
Fixpoint mapSet (k : string) (r : nat) (m : list (string * nat))
    : list (string * nat) :=
  match m with
  | [] => [(k, r)]
  | (k', r') :: rest =>
      if bool_decide (k' = k) then (k, r) :: rest
      else (k', r') :: mapSet k r rest
  end.

Definition mapGet (k : string) (m : list (string * nat)) : option nat :=
  match list_find (fun kv => bool_decide (kv.1 = k)) m with
  | Some (_, (_, r)) => Some r
  | None => None
  end.

(** The object a reference names; every reference in use names one. *)
Definition deref (r : nat) (s : Store) : option SwapState := objects s !! r.

Definition assign (r : nat) (f : SwapState -> SwapState) (s : Store) : Store :=
  mkStore (alter f r (objects s)) (activeSwaps s) (now s) (uuids s) (uuidPos s)
    (randoms s) (randomPos s) (calls s).

Definition register (k : string) (r : nat) (s : Store) : Store :=
  mkStore (objects s) (mapSet k r (activeSwaps s)) (now s) (uuids s) (uuidPos s)
    (randoms s) (randomPos s) (calls s).

Definition call (c : Call) (s : Store) : Store :=
  mkStore (objects s) (activeSwaps s) (now s) (uuids s) (uuidPos s)
    (randoms s) (randomPos s) (calls s ++ [c]).

Definition withPhase (p : SwapPhase) (t : Z) (st : SwapState) : SwapState :=
  mkSwapState (id st) p (provider st) (btcAmount st) (xmrAmount st)
    (xmrReceiveAddress st) (btcRefundAddress st) (btcLockTxId st)
    (xmrLockTxId st) (btcRedeemTxId st) (cancelTimelock st)
    (punishTimelock st) (startTime st) t (error st).

Definition withError (msg : string) (t : Z) (st : SwapState) : SwapState :=
  mkSwapState (id st) (phase st) (provider st) (btcAmount st) (xmrAmount st)
    (xmrReceiveAddress st) (btcRefundAddress st) (btcLockTxId st)
    (xmrLockTxId st) (btcRedeemTxId st) (cancelTimelock st)
    (punishTimelock st) (startTime st) t (Some msg).

Definition withBtcLockTxId (txid : string) (st : SwapState) : SwapState :=
  mkSwapState (id st) (phase st) (provider st) (btcAmount st) (xmrAmount st)
    (xmrReceiveAddress st) (btcRefundAddress st) (Some txid)
    (xmrLockTxId st) (btcRedeemTxId st) (cancelTimelock st)
    (punishTimelock st) (startTime st) (lastUpdate st) (error st).

Definition withXmrLockTxId (txid : string) (st : SwapState) : SwapState :=
  mkSwapState (id st) (phase st) (provider st) (btcAmount st) (xmrAmount st)
    (xmrReceiveAddress st) (btcRefundAddress st) (btcLockTxId st)
    (Some txid) (btcRedeemTxId st) (cancelTimelock st)
    (punishTimelock st) (startTime st) (lastUpdate st) (error st).

Definition withBtcRedeemTxId (txid : string) (st : SwapState) : SwapState :=
  mkSwapState (id st) (phase st) (provider st) (btcAmount st) (xmrAmount st)
    (xmrReceiveAddress st) (btcRefundAddress st) (btcLockTxId st)
    (xmrLockTxId st) (Some txid) (cancelTimelock st)
    (punishTimelock st) (startTime st) (lastUpdate st) (error st).

(** [new SwapExecution(...)]. *)
Definition new_SwapExecution (provider : DiscoveredProvider)
    (btcAmount xmrAmount : Z) (xmrReceiveAddress btcRefundAddress : string)
    (s : Store) : Execution * Store :=
  let st := mkSwapState (uuids s (uuidPos s)) initialized provider
              btcAmount xmrAmount xmrReceiveAddress btcRefundAddress
              None None None
              72   (* 72 blocks (~12 hours) *)
              144  (* 144 blocks (~24 hours) *)
              (now s) (now s) None in
  let r := length (objects s) in
  (mkExecution r [],
   mkStore (objects s ++ [st]) (mapSet (id st) r (activeSwaps s)) (now s)
     (uuids s) (S (uuidPos s)) (randoms s) (randomPos s) (calls s)).

Definition addListener (this : Execution) (listener : nat) : Execution :=
  mkExecution (state this) (listeners this ++ [listener]).

(** [for (const listener of this.listeners) ...], each listener being
    handed the state object as it is at that moment. *)
Definition notify (this : Execution) (c : nat -> SwapState -> Call)
    (s : Store) : Store :=
  match deref (state this) s with
  | Some st => fold_left (fun acc l => call (c l st) acc) (listeners this) s
  | None => s
  end.

Definition updatePhase (this : Execution) (p : SwapPhase) (s : Store) : Store :=
  let s := assign (state this) (withPhase p (now s)) s in
  let s := match deref (state this) s with
           | Some st => register (id st) (state this) s
           | None => s
           end in
  notify this (fun l st => OnPhaseChange l p st) s.

Definition emitError (this : Execution) (msg : string) (s : Store) : Store :=
  let s := assign (state this) (withError msg (now s)) s in
  let s := match deref (state this) s with
           | Some st => register (id st) (state this) s
           | None => s
           end in
  notify this (fun l st => OnError l msg st) s.

Definition emitComplete (this : Execution) (s : Store) : Store :=
  notify this (fun l st => OnComplete l st) s.

Definition simulateDelay (ms : Z) (s : Store) : Store :=
  mkStore (objects s) (activeSwaps s) (now s + ms) (uuids s) (uuidPos s)
    (randoms s) (randomPos s) (calls s).

(** 64 characters of [0123456789abcdef], each picked by
    [Math.floor(Math.random() * 16)]. *)
Definition generateFakeTxId (s : Store) : string * Store :=
  (string_of_list_ascii
     (map (fun i => Hex.digit (Z.of_nat (randoms s (randomPos s + i) mod 16)))
        (seq 0 64)),
   mkStore (objects s) (activeSwaps s) (now s) (uuids s) (uuidPos s)
     (randoms s) (randomPos s + 64) (calls s)).

Definition generateFakeXmrTxId (s : Store) : string * Store :=
  generateFakeTxId s.

Definition requestSwap (this : Execution) (s : Store) : Store :=
  let s := simulateDelay 2000 s in
  updatePhase this initialized s.

Definition publishBtcLock (this : Execution) (s : Store) : Store :=
  let s := simulateDelay 3000 s in
  let '(txid, s) := generateFakeTxId s in
  let s := assign (state this) (withBtcLockTxId txid) s in
  let s := updatePhase this btc_lock_published s in
  (* Wait for confirmations *)
  let s := simulateDelay 5000 s in
  updatePhase this btc_lock_confirmed s.

Definition waitForXmrLock (this : Execution) (s : Store) : Store :=
  let s := simulateDelay 5000 s in
  let s := updatePhase this xmr_lock_proof_received s in
  let s := simulateDelay 3000 s in
  let '(txid, s) := generateFakeXmrTxId s in
  let s := assign (state this) (withXmrLockTxId txid) s in
  updatePhase this xmr_locked s.

Definition sendEncryptedSignature (this : Execution) (s : Store) : Store :=
  let s := simulateDelay 2000 s in
  updatePhase this encrypted_signature_sent s.

Definition waitForBtcRedeem (this : Execution) (s : Store) : Store :=
  let s := simulateDelay 5000 s in
  let '(txid, s) := generateFakeTxId s in
  let s := assign (state this) (withBtcRedeemTxId txid) s in
  updatePhase this btc_redeemed s.

Definition redeemXmr (this : Execution) (s : Store) : Store :=
  let s := simulateDelay 3000 s in
  updatePhase this xmr_redeemed s.

(** Execute the atomic swap.  Nothing in the body of the [try] fails, so
    the [catch] has no run; the result is the state object itself. *)
Definition execute (this : Execution) (s : Store) : nat * Store :=
  let s := requestSwap this s in
  let s := publishBtcLock this s in
  let s := waitForXmrLock this s in
  let s := sendEncryptedSignature this s in
  let s := waitForBtcRedeem this s in
  let s := redeemXmr this s in
  let s := emitComplete this s in
  (state this, s).

(** Cancel and refund the swap (if possible). *)
Definition cancelAndRefund (this : Execution) (s : Store)
    : result nat * Store :=
  match deref (state this) s with
  | None => (Throw (JsError "no state"), s)
  | Some st =>
      let canCancel :=
        existsb (fun p => bool_decide (p = phase st))
          [btc_lock_published; btc_lock_confirmed; xmr_lock_proof_received;
           xmr_locked] in
      if negb canCancel then
        (Throw (JsError ("Cannot cancel swap in phase: " +:+ phaseName (phase st))), s)
      else
        let s := simulateDelay 2000 s in
        let s := updatePhase this cancel_timelock_expired s in
        let s := simulateDelay 2000 s in
        let s := updatePhase this btc_cancelled s in
        let s := simulateDelay 2000 s in
        let s := updatePhase this btc_refunded s in
        (Ok (state this), s)
  end.

(** [{ ...this.state }]: a copy. *)
Definition getState (this : Execution) (s : Store) : option SwapState :=
  deref (state this) s.

(** Get all active swaps: the objects of the table, in its order. *)
Definition getActiveSwaps (s : Store) : list SwapState :=
  omap (fun kv : string * nat => deref kv.2 s) (activeSwaps s).

(** Get a specific swap by ID. *)
Definition getSwapById (k : string) (s : Store) : option nat :=
  mapGet k (activeSwaps s).

(** Resume a swap from persisted state: a new execution, whose state
    object then takes every property of [state]. *)
Definition resumeSwap (persisted : SwapState) (s : Store) : Execution * Store :=
  let '(execution, s) :=
    new_SwapExecution (provider persisted) (btcAmount persisted)
      (xmrAmount persisted) (xmrReceiveAddress persisted)
      (btcRefundAddress persisted) s in
  (* Restore state *)
  let s := assign (state execution) (fun _ => persisted) s in
  let s := register (id persisted) (state execution) s in
  (execution, s).
End SwapExecution.

(** ** [lib/swap/executor.ts]: the swap executor *)

Module Executor.
Import State.
Import Transactions (Network, MAINNET, TESTNET, SignerLib, Utxo, Transaction).

Record SwapConfig : Type := mkSwapConfig {
  isMainnet : bool;
  torProxyUrl : option string;
  btcRpcUrl : option string;
  mempoolUrl : option string;
}.

Record SwapQuote : Type := mkSwapQuote {
  q_peerId : string;
  q_btcAmount : Z;
  q_xmrAmount : Z;
  q_exchangeRate : spec_float;
  q_maxBtc : Z;
  q_minBtc : Z;
  q_expiresAt : Z;
}.

(** The fields of the class: [node] is [null] until [initialize] has run;
    the wallet and the callbacks live in the world. *)
Record SwapExecutor : Type := mkSwapExecutor {
  node : bool;
  config : SwapConfig;
  network : Network;
}.

Definition new_SwapExecutor (config : SwapConfig) : SwapExecutor :=
  mkSwapExecutor false config (if isMainnet config then MAINNET else TESTNET).

(** [!x] on an optional string: true for [undefined] and for the empty
    string. *)
Definition falsy (o : option string) : bool :=
  match o with
  | Some s => bool_decide (s = EmptyString)
  | None => true
  end.

(** *** The collaborators: each call takes the next prepared answer. *)

Definition next {A} (get : Replies -> list A) (set : list A -> Replies -> Replies)
    : M (option A) :=
  let* r := getReplies in
  match get r with
  | [] => ret None
  | a :: rest => setReplies (set rest r) ;; ret (Some a)
  end.

Definition answer {A} (o : option (result A)) : M A :=
  match o with
  | Some r => lift r
  | None => throw "no answer"
  end.

Definition wallet_getNextDepositKeys : M SwapKeys :=
  let* o := next keysReplies (fun l r =>
    mkReplies l (signRefundReplies r) (initiateSwapReplies r)
      (transferProofReplies r) (sendSignatureReplies r)
      (broadcastReplies r) (confirmationReplies r) (heightReplies r)
      (spendReplies r)) in
  answer o.

Definition wallet_getKeysAtIndex (depositIdx refundIdx : Z) : M SwapKeys :=
  wallet_getNextDepositKeys.

Definition wallet_signRefundTransaction (lockTxId : string) (lockTxVout : option Z)
    (lockTxAmount : Z) (htlcScript refundPrivateKey : bytes)
    (destinationAddress : string) (locktime : Z) (feeRate : Z) : M string :=
  emit (EvSignRefund lockTxId lockTxVout locktime) ;;
  let* o := next signRefundReplies (fun l r =>
    mkReplies (keysReplies r) l (initiateSwapReplies r)
      (transferProofReplies r) (sendSignatureReplies r)
      (broadcastReplies r) (confirmationReplies r) (heightReplies r)
      (spendReplies r)) in
  answer o.

Definition node_initiateSwap (peerId : string) (request : AsbSwapRequest)
    : M AsbSwapResponse :=
  emit (EvInitiateSwap peerId request) ;;
  let* o := next initiateSwapReplies (fun l r =>
    mkReplies (keysReplies r) (signRefundReplies r) l
      (transferProofReplies r) (sendSignatureReplies r)
      (broadcastReplies r) (confirmationReplies r) (heightReplies r)
      (spendReplies r)) in
  answer o.

Definition node_waitForTransferProof (peerId swapId : string) : M bytes :=
  let* o := next transferProofReplies (fun l r =>
    mkReplies (keysReplies r) (signRefundReplies r) (initiateSwapReplies r)
      l (sendSignatureReplies r)
      (broadcastReplies r) (confirmationReplies r) (heightReplies r)
      (spendReplies r)) in
  answer o.

Definition node_sendEncryptedSignature (peerId swapId : string)
    (signature : bytes) : M unit :=
  emit (EvSendEncryptedSignature peerId swapId signature) ;;
  let* o := next sendSignatureReplies (fun l r =>
    mkReplies (keysReplies r) (signRefundReplies r) (initiateSwapReplies r)
      (transferProofReplies r) l
      (broadcastReplies r) (confirmationReplies r) (heightReplies r)
      (spendReplies r)) in
  answer o.

Definition isValidMoneroAddress (address : string) (expected : NetworkName)
    : M bool :=
  fun w => (Ok (xmrAddressValid w address expected), w).

(** *** Helper methods over the chain explorer. *)

Definition broadcastTransaction (txHex : string) : M string :=
  emit (EvBroadcast txHex) ;;
  let* o := next broadcastReplies (fun l r =>
    mkReplies (keysReplies r) (signRefundReplies r) (initiateSwapReplies r)
      (transferProofReplies r) (sendSignatureReplies r)
      l (confirmationReplies r) (heightReplies r) (spendReplies r)) in
  answer o.

(** The confirmations of [getTransactionInfo]; 0 while the explorer does
    not know the transaction. *)
Definition getTransactionInfo (txId : string) : M Z :=
  let* o := next confirmationReplies (fun l r =>
    mkReplies (keysReplies r) (signRefundReplies r) (initiateSwapReplies r)
      (transferProofReplies r) (sendSignatureReplies r)
      (broadcastReplies r) l (heightReplies r) (spendReplies r)) in
  ret (default 0 o).

Definition getCurrentBlockHeight : M Z :=
  let* o := next heightReplies (fun l r =>
    mkReplies (keysReplies r) (signRefundReplies r) (initiateSwapReplies r)
      (transferProofReplies r) (sendSignatureReplies r)
      (broadcastReplies r) (confirmationReplies r) l (spendReplies r)) in
  match o with
  | Some h => ret h
  | None => throw "no answer"
  end.

(** The explorer answers every request, and at once: [None] stands for
    a response that is not ok or an output that is not spent.  A request
    that fails on the network, and the time a request takes, are outside
    the model. *)
Definition findSpendingTransaction (txId : string) (vout : Z)
    : M (option SpendTx) :=
  emit (EvFindSpending txId vout) ;;
  let* o := next spendReplies (fun l r =>
    mkReplies (keysReplies r) (signRefundReplies r) (initiateSwapReplies r)
      (transferProofReplies r) (sendSignatureReplies r)
      (broadcastReplies r) (confirmationReplies r) (heightReplies r) l) in
  ret (mjoin o).

(** The secret is the second witness element in the redeem path.
    Witness: <signature> <secret> <1> <htlc_script> *)
Definition extractSecretFromWitness (spendTx : SpendTx) : result (option bytes) :=
  match witness spendTx with
  | _ :: w1 :: _ =>
      result_bind (Hex.decode w1) (fun potentialSecret =>
        if bool_decide (length potentialSecret = 32%nat)
        then Ok (Some potentialSecret)
        else Ok None)
  | _ => Ok None
  end.

Definition notifyPhaseChange (state : SwapState) : M unit :=
  emit (EvPhaseChange (toJS state)).

Section Methods.
Variable lib : SignerLib.
Variable this : SwapExecutor.

Definition networkNameOf : NetworkName :=
  if isMainnet (config this) then mainnet else testnet.

(** The [try { ... } catch (error) { ... }] around the broadcast: record
    the error on the state reached so far, save, and throw it again. *)
Definition broadcastFailed (state : SwapState) (error : string) {A} : M A :=
  let* state := recordSwapError state
                  ("Failed to broadcast lock tx: Error: " +:+ error) in
  saveSwapState state ;;
  throw error.

(** Execute a swap, up to the point where the continuation is started;
    the result is the state that is returned to the caller, with the
    keys and the secret the continuation is given. *)
Definition executeSwap_prefix (quote : SwapQuote) (xmrDestinationAddress : string)
    (utxos : list Utxo) : M (SwapState * SwapKeys * bytes) :=
  if negb (node this) then throw "Executor not initialized" else
  (* Validate XMR address *)
  let expectedNetwork := networkNameOf in
  let* valid := isValidMoneroAddress xmrDestinationAddress expectedNetwork in
  if negb valid then throw "Invalid Monero destination address" else
  (* Generate secret for the HTLC *)
  let* secret := Transactions.generateSecret in
  let secretHash := Transactions.hashSecret secret in
  (* Get keys from wallet *)
  let* keys := wallet_getNextDepositKeys in
  (* Initiate swap with ASB *)
  let swapRequest :=
    mkAsbSwapRequest (q_btcAmount quote) xmrDestinationAddress
      (refundPublicKey keys) secretHash in
  let* swapResponse := node_initiateSwap (q_peerId quote) swapRequest in
  (* Create initial swap state *)
  let* state := createSwapState
    (mkCreateParams (q_peerId quote) (q_btcAmount quote) (q_xmrAmount quote)
       (q_exchangeRate quote) (depositPublicKey keys) (refundPublicKey keys)
       (asb_btc_redeem_pubkey swapResponse) xmrDestinationAddress secretHash
       (cancel_timelock swapResponse) (punish_timelock swapResponse)
       (min_btc_lock_confirmations swapResponse)
       (min_xmr_lock_confirmations swapResponse) networkNameOf) in
  (* Store secret securely (only locally) *)
  let* state := updateSwapState state [U_secret (Some (Hex.encode secret))] in
  saveSwapState state ;;
  notifyPhaseChange state ;;
  (* Create HTLC *)
  let* htlcScript := lift (Transactions.createHtlcScript
    (Transactions.mkHtlcParams secretHash (asb_btc_redeem_pubkey swapResponse)
       (refundPublicKey keys) (cancel_timelock swapResponse))) in
  let htlcAddress := Transactions.htlcScriptToAddress htlcScript (network this) in
  let* state := updateSwapState state [U_htlcScript (Some (Hex.encode htlcScript))] in
  (* Create lock transaction *)
  let* lockTx := lift (Transactions.createLockTransaction lib
    (Transactions.mkLockTxParams utxos htlcScript (q_btcAmount quote)
       (depositAddress keys) (Transactions.floatOfZ 10) (network this))) in
  let* state := transitionPhase state BTC_LOCK_TX_CREATED None in
  let* raw := lift (Transactions.extract lib lockTx) in
  let* state := updateSwapState state [U_btcLockTxHex (Some (Hex.encode raw))] in
  saveSwapState state ;;
  notifyPhaseChange state ;;
  (* Broadcast lock transaction *)
  let* txId := try_catch
    (let* raw := lift (Transactions.extract lib lockTx) in
     broadcastTransaction (Hex.encode raw))
    (fun error => broadcastFailed state error) in
  let* state := transitionPhase state BTC_LOCK_TX_BROADCAST None in
  let* state := updateSwapState state
    [U_btcLockTxId (Some txId);
     U_btcLockTxVout (Some 0) (* HTLC is first output *)] in
  try_catch
    (saveSwapState state ;;
     notifyPhaseChange state ;;
     emit (EvTransactionBroadcast "lock" txId))
    (fun error => broadcastFailed state error) ;;
  ret (state, keys, secret).

(** Wait for BTC lock transaction confirmations. *)
Fixpoint waitForBtcConfirmations_loop (fuel : nat) (lockTxId : string)
    (requiredConfirmations confirmations : Z) (state : SwapState)
    : M SwapState :=
  if confirmations <? requiredConfirmations then
    match fuel with
    | O => lift (Throw OutOfFuel)
    | S fuel' =>
        let* confirmations := getTransactionInfo lockTxId in
        if requiredConfirmations <=? confirmations then
          let* state := transitionPhase state BTC_LOCK_TX_CONFIRMED
            (Some (Num.decimal confirmations +:+ " confirmations")) in
          saveSwapState state ;;
          notifyPhaseChange state ;;
          ret state
        else
          (* Wait before checking again *)
          sleep 30000 ;;
          waitForBtcConfirmations_loop fuel' lockTxId requiredConfirmations
            confirmations state
    end
  else ret state.

Definition waitForBtcConfirmations (fuel : nat) (state : SwapState)
    : M SwapState :=
  if falsy (btcLockTxId state) then throw "No lock tx ID" else
  let requiredConfirmations := minBtcLockConfirmations state in
  waitForBtcConfirmations_loop fuel (default EmptyString (btcLockTxId state))
    requiredConfirmations 0 state.

(** Wait for XMR lock from ASB. *)
Definition waitForXmrLock (state : SwapState) : M SwapState :=
  if negb (node this) then throw "Node not initialized" else
  (* Wait for transfer proof from ASB *)
  let* proof := node_waitForTransferProof (peerId state) (id state) in
  let* state := transitionPhase state XMR_LOCK_TX_SEEN None in
  saveSwapState state ;;
  notifyPhaseChange state ;;
  let requiredConfirmations := minXmrLockConfirmations state in
  (* Simulate waiting for confirmations *)
  sleep (requiredConfirmations * 120000) ;;
  let* state := transitionPhase state XMR_LOCK_TX_CONFIRMED
    (Some (Num.decimal requiredConfirmations +:+ " XMR confirmations")) in
  saveSwapState state ;;
  notifyPhaseChange state ;;
  ret state.

Definition textEncode (s : string) : bytes :=
  Ascii.byte_of_ascii <$> list_ascii_of_string s.

(** Create encrypted signature (a placeholder in the source). *)
Definition createEncryptedSignature (state : SwapState) (keys : SwapKeys)
    : M bytes :=
  let message := textEncode
    ("swap:" +:+ id state +:+ ":"
       +:+ default "undefined" (btcLockTxId state)) in
  let messageHash := sha256 message in
  ret (messageHash ++ take 32 (refundPublicKey keys)).

(** Send encrypted signature to ASB. *)
Definition sendEncryptedSignature (state : SwapState) (keys : SwapKeys)
    : M SwapState :=
  if negb (node this) then throw "Node not initialized" else
  let* signature := createEncryptedSignature state keys in
  node_sendEncryptedSignature (peerId state) (id state) signature ;;
  let* state := transitionPhase state ENCRYPTED_SIG_SENT None in
  let* state := updateSwapState state
    [U_encryptedSignature (Some (Hex.encode signature))] in
  saveSwapState state ;;
  notifyPhaseChange state ;;
  ret state.

(** Wait for ASB to redeem BTC: the body of
    [while (Date.now() < maxWaitTime) { ... }]. *)
Fixpoint waitForBtcRedeem_loop (fuel : nat) (lockTxId : string)
    (maxWaitTime : Z) (state : SwapState) : M SwapState :=
  let* now := Date_now in
  if now <? maxWaitTime then
    match fuel with
    | O => lift (Throw OutOfFuel)
    | S fuel' =>
        let* spendingTx := findSpendingTransaction lockTxId 0 in
        let* revealed :=
          match spendingTx with
          | Some tx =>
              (* Extract secret from spending transaction witness *)
              let* s := lift (extractSecretFromWitness tx) in
              ret (pair tx <$> s)
          | None => ret None
          end in
        match revealed with
        | Some (spendingTx, revealedSecret) =>
            let* state := transitionPhase state BTC_REDEEMED None in
            let* state := updateSwapState state
              [U_btcRedeemTxId (Some (spend_txid spendingTx));
               U_secret (Some (Hex.encode revealedSecret))] in
            saveSwapState state ;;
            notifyPhaseChange state ;;
            (* Mark XMR as redeemable *)
            let* state := transitionPhase state XMR_REDEEMABLE
              (Some "Secret revealed - XMR can be claimed") in
            saveSwapState state ;;
            notifyPhaseChange state ;;
            ret state
        | None =>
            sleep 30000 ;; (* Check every 30 seconds *)
            waitForBtcRedeem_loop fuel' lockTxId maxWaitTime state
        end
    end
  else throw "Timeout waiting for BTC redemption".

Definition waitForBtcRedeem (fuel : nat) (state : SwapState) : M SwapState :=
  if falsy (btcLockTxId state) then throw "No lock tx ID" else
  let* now := Date_now in
  let maxWaitTime := now + 3600000 in (* 1 hour max wait *)
  waitForBtcRedeem_loop fuel (default EmptyString (btcLockTxId state))
    maxWaitTime state.

(** Continue swap execution after lock tx is broadcast. *)
Definition continueSwapExecution (fuel : nat) (state : SwapState)
    (keys : SwapKeys) (secret : bytes) : M unit :=
  let* state := waitForBtcConfirmations fuel state in
  let* state := waitForXmrLock state in
  let* state := sendEncryptedSignature state keys in
  let* state := waitForBtcRedeem fuel state in
  let* state := transitionPhase state COMPLETED None in
  saveSwapState state ;;
  notifyPhaseChange state ;;
  emit (EvComplete (toJS state)).

(** [executeSwap]: the prefix, then the continuation, whose failure is
    reported through the error callback and never reaches the caller.
    The continuation is run to its end before the state is returned. *)
Definition executeSwap (fuel : nat) (quote : SwapQuote)
    (xmrDestinationAddress : string) (utxos : list Utxo) : M SwapState :=
  let* (state, keys, secret) :=
    executeSwap_prefix quote xmrDestinationAddress utxos in
  try_catch (continueSwapExecution fuel state keys secret)
    (fun error =>
       console_error ("Swap execution error: Error: " +:+ error) ;;
       emit (EvError error (toJS state))) ;;
  ret state.

(** Refund BTC if swap fails and timelock expires. *)
Definition refundSwap (swapId : string) : M string :=
  let* loaded := loadSwapState swapId in
  match loaded with
  | None => throw "Swap not found"
  | Some state =>
      let* currentHeight := getCurrentBlockHeight in
      if negb (canRefund state currentHeight) then
        throw "Cannot refund: timelock not expired or swap already completed"
      else if falsy (btcLockTxId state) || falsy (htlcScript state) then
        throw "Missing lock transaction data"
      else
        let* keys := wallet_getKeysAtIndex 0 0 in
        let* script := lift (Hex.decode (default EmptyString (htlcScript state))) in
        let* refundTxHex := wallet_signRefundTransaction
          (default EmptyString (btcLockTxId state))
          (btcLockTxVout state)
          (btcAmount state)
          script
          (refundPrivateKey keys)
          (refundAddress keys)
          (btcCancelTimelock state)
          10 in
        let* txId := broadcastTransaction refundTxHex in
        let* updatedState := transitionPhase state BTC_REFUNDED None in
        let* updatedState := updateSwapState updatedState
          [U_btcRefundTxId (Some txId)] in
        let* updatedState := transitionPhase updatedState REFUNDED None in
        saveSwapState updatedState ;;
        emit (EvTransactionBroadcast "refund" txId) ;;
        notifyPhaseChange updatedState ;;
        ret txId
  end.

(** Resume an interrupted swap. *)
Definition resumeSwap (swapId : string) : M SwapState :=
  let* loaded := loadSwapState swapId in
  match loaded with
  | None => throw "Swap not found"
  | Some state =>
      let reload :=
        let* again := loadSwapState swapId in
        ret (default state again) in
      match phase state with
      | BTC_LOCK_TX_CREATED =>
          (* Need to broadcast lock tx *)
          if negb (falsy (btcLockTxHex state)) then
            let* txId := broadcastTransaction
              (default EmptyString (btcLockTxHex state)) in
            updateSwapState state [U_btcLockTxId (Some txId)]
          else reload
      | BTC_LOCK_TX_BROADCAST
      | BTC_LOCK_TX_CONFIRMED
      | XMR_LOCK_TX_SEEN
      | XMR_LOCK_TX_CONFIRMED
      | ENCRYPTED_SIG_SENT =>
          (* Continue monitoring *)
          reload
      | REFUND_TIMELOCK_EXPIRED =>
          (* Can attempt refund *)
          refundSwap swapId ;;
          reload
      | _ =>
          (* Already in terminal state *)
          reload
      end
  end.
End Methods.
End Executor.

(** ** Concrete data for the examples *)

Module Fixtures.
Import State Executor.

Definition bytesOf (hexText : string) : bytes :=
  match Hex.decode hexText with
  | Ok bs => bs
  | Throw _ => []
  end.

Definition isHex64 (s : string) : bool :=
  bool_decide (String.length s = 64%nat)
  && forallb (fun c => bool_decide (is_Some (Hex.value c)))
       (list_ascii_of_string s).

(** The script of a version-0 witness output: 00 14 and 20 bytes, or
    00 20 and 32 bytes. *)
Definition witnessProgram (script : bytes) : bool :=
  match script with
  | Byte.x00 :: Byte.x14 :: program => bool_decide (length program = 20%nat)
  | Byte.x00 :: Byte.x20 :: program => bool_decide (length program = 32%nat)
  | _ => false
  end.

(** A stand-in for the signing library that takes no more than the
    library does: an input with a transaction id of 64 hex digits, an
    index of 32 bits, an amount that is not negative and the script of
    a version-0 witness output; an output of an amount that is not
    negative to a version-0 witness address of the network.  It
    extracts nothing: the builder signs no input, and the library
    refuses a transaction whose inputs are not finalized. *)
Definition signer : Transactions.SignerLib :=
  Transactions.mkSignerLib
    (fun i =>
       isHex64 (Transactions.in_txid i)
       && (0 <=? Transactions.in_index i)
       && (Transactions.in_index i <? 2 ^ 32)
       && (0 <=? Transactions.in_amount i)
       && witnessProgram (Transactions.in_script i))
    (fun address amount network =>
       (0 <=? amount)
       && Bech32.isSegwitV0 (Transactions.bech32 network) address)
    (fun _ => Throw (JsError "Transaction has unfinalized inputs")).

Definition executor : SwapExecutor :=
  mkSwapExecutor true (mkSwapConfig true None None None) Transactions.MAINNET.

(** The public keys are the points G, 2G and 3G of secp256k1, the
    address the version-0 witness address of the key G. *)
Definition walletAddress : string := "bc1qw508d6qejxtdg4y5r3zarvary0c5xw7kv8f3t4".

Definition keys : SwapKeys :=
  mkSwapKeys
    (bytesOf "0000000000000000000000000000000000000000000000000000000000000001")
    (bytesOf "0279be667ef9dcbbac55a06295ce870b07029bfcdb2dce28d959f2815b16f81798")
    walletAddress
    (bytesOf "0000000000000000000000000000000000000000000000000000000000000003")
    (bytesOf "02f9308a019258c31049344f85f89d5229b531c845836f99b08601f113bce036f9")
    walletAddress.

Definition response : AsbSwapResponse :=
  mkAsbSwapResponse "asb-1"
    (bytesOf "02c6047f9441ed7d6d3045406e95c07cd85c778e4b8cef3ca7abac09b95c709ee5")
    800000 800144 1 2 None.

Definition quote : SwapQuote :=
  mkSwapQuote "12D3KooWCdMKjesXMJz1SiZ7HgotrxuqhQJbP5sgBm2BwP1cqThi"
    1000000 1600000000000 (S754_finite false 1600000 0)
    10000000 10000 1700000300000.

(** An output of 2 000 000 satoshis paid to the wallet's address. *)
Definition walletScript : bytes :=
  bytesOf "0014751e76e8199196d454941c45d1b3a323f1433bd6".

Definition utxos : list Transactions.Utxo :=
  [Transactions.mkUtxo
     "7d1e0c3f5a9b2d4e6f8091a2b3c4d5e6f708192a3b4c5d6e7f8091a2b3c4d5e6"
     1 2000000 walletScript].

(** A standard Monero address of the main network. *)
Definition xmrAddress : string :=
  "44AFFq5kSiGBoZ4NMDwYtN18obc8AemS33DBLWs3H7otXft3XjrpDtQGv7SqSsaBYBb98uNbr2VBBEt7f2wfn3RVGQBEP3A".

(** The random source hands out the bytes 0, 1, 2, ... *)
Definition counting (i : nat) : Byte.byte := byte_of_Z (Z.of_nat i).

Definition secretHex : string :=
  "000102030405060708090a0b0c0d0e0f101112131415161718191a1b1c1d1e1f".

Definition lockTxId : string :=
  "4a5e1e4baab89f3a32518a88c31bc87f618f76673e2cc77ab2127b7afdeda33b".

Definition redeemTxId : string :=
  "0e3e2357e806b6cdb1f70b54c3a3a17b6714ee1f0e68bebb44a74b1efd512098".

Definition signatureHex : string := "3044022001".


Definition answers (spends : list (option SpendTx)) : Replies :=
  mkReplies [Ok keys] [Ok "0200000001"] [Ok response] [Ok [Byte.x01]]
    [Ok tt] [Ok lockTxId; Ok "refund-tx"] [0; 1] [800000] spends.

Definition world (spends : list (option SpendTx)) : World :=
  mkWorld 1700000000000 true ∅ counting 0
    (fun address network =>
       MoneroAddress.isValidMoneroAddress address
         (Some (match network with
                | mainnet => MoneroAddress.xmr_mainnet
                | testnet => MoneroAddress.xmr_testnet
                end)))
    (answers spends) [].

(** A swap that has reached the given phase, with its lock transaction
    on the chain. *)
Definition stateIn (p : SwapPhase) : SwapState :=
  mkSwapState "swap_loyw3v28_20212223" (q_peerId quote)
    1700000000000 1700000400000 p
    [mkPhaseEntry SWAP_INITIATED 1700000000000 None;
     mkPhaseEntry p 1700000400000 None]
    1000000 1600000000000 (S754_finite false 1600000 0) 1 2
    800000 800144 0
    (Hex.encode (depositPublicKey keys)) (Hex.encode (refundPublicKey keys))
    (Hex.encode (asb_btc_redeem_pubkey response)) xmrAddress None
    (Hex.encode (sha256 (counting <$> seq 0 32))) (Some secretHex)
    (Some lockTxId) (Some 0) (Some "0200") None None (Some "63820120")
    None None None None 0 mainnet.

(** HTLC parameters whose [secretHash] has 31 bytes. *)
Definition shortHashParams : Transactions.HtlcParams :=
  Transactions.mkHtlcParams (replicate 31 Byte.xaa)
    (Byte.x02 :: replicate 32 Byte.x55) (Byte.x03 :: replicate 32 Byte.x44)
    800000.

(** The HTLC script for the hash of the secret 0, 1, ..., 31. *)
Definition htlc : bytes :=
  match Transactions.createHtlcScript
          (Transactions.mkHtlcParams (sha256 (counting <$> seq 0 32))
             (asb_btc_redeem_pubkey response) (refundPublicKey keys) 800000) with
  | Ok script => script
  | Throw _ => []
  end.

(** A lock of 1 000 000 satoshis from one wallet output worth [funds]. *)
Definition lockParams (funds : Z) : Transactions.LockTxParams :=
  Transactions.mkLockTxParams
    [Transactions.mkUtxo
       "7d1e0c3f5a9b2d4e6f8091a2b3c4d5e6f708192a3b4c5d6e7f8091a2b3c4d5e6"
       1 funds walletScript]
    htlc 1000000 walletAddress
    (Transactions.floatOfZ 10) Transactions.MAINNET.

(** The first of the fallback providers of [discovery.ts]. *)
Definition provider : DiscoveredProvider :=
  mkDiscoveredProvider "12D3KooWCdMKjesXMJz1SiZ7HgotrxuqhQJbP5sgBm2BwP1cqThi"
    ["/onion3/wyqduqymx6dwde3kk5l4l2zyv4wbdoximjdp6vlb5gvzquyqhxqccqyd:9939"]
    "/xmr-btc-swap/0.1.0/discover"
    (Some (mkAsbQuoteResponse 625000000000 10000 10000000 0))
    1700000000000 true.

(** The writes to the browser storage among the events of a trace. *)
Definition writes (tr : list Event) : list (string * JS.json) :=
  omap (fun e => match e with
                 | EvSetItem k v => Some (k, v)
                 | _ => None
                 end) tr.
End Fixtures.

(** ** Vocabulary of the properties *)

Module Spec.
Import State Transactions.

(** Whether an update names the phase, or the secret. *)
Definition namesPhase (u : FieldUpdate) : bool :=
  match u with U_phase _ => true | _ => false end.

Definition namesSecret (u : FieldUpdate) : bool :=
  match u with U_secret _ => true | _ => false end.


(** A data push: its length prefix and the data. *)
Definition push (data : bytes) : bytes :=
  (byte_of_Z <$> pushPrefix (Z.of_nat (length data))) ++ data.

(** The HTLC script, byte for byte. *)
Definition htlcScriptBytes (p : HtlcParams) (nLock : bytes) : bytes :=
  [Byte.x63; Byte.x82; Byte.x01; Byte.x20; Byte.x88; Byte.xa8]
    ++ push (secretHash p) ++ [Byte.x88]
    ++ push (redeemPubkey p) ++ [Byte.x67]
    ++ push nLock ++ [Byte.xb1; Byte.x75]
    ++ push (refundPubkey p) ++ [Byte.x68; Byte.xac].

(** The input a UTXO becomes, the value of all inputs, and the output
    that funds the HTLC. *)
Definition toInput (u : Utxo) : TxInput :=
  mkTxInput (txid u) (vout u) (script u) (value u).

Definition inputSum (ins : list Utxo) : Z :=
  foldr (fun u acc => value u + acc) 0 ins.

Definition htlcOutput (p : LockTxParams) : TxOutput :=
  mkTxOutput (htlcScriptToAddress (htlcScript p) (network p)) (amount p).

Definition outputSum (tx : Transaction) : Z :=
  foldr (fun o acc => out_amount o + acc) 0 (tx_outputs tx).

(** What [JSON.stringify] with the replacer of the state store prints for
    a value: a bigint as its tagged decimal text, everything else as
    JSON does. *)
Fixpoint jsonOf (v : JS.jsval) : option JS.json :=
  match v with
  | JS.VUndefined => None
  | JS.VNull => Some JS.JNull
  | JS.VBool b => Some (JS.JBool b)
  | JS.VNum x => Some (JS.numberToJson x)
  | JS.VBigInt z => Some (JS.JString ("bigint:" +:+ Num.decimal z))
  | JS.VStr s => Some (JS.JString s)
  | JS.VArr items =>
      Some (JS.JArray (map (fun x => default JS.JNull (jsonOf x)) items))
  | JS.VObj props =>
      Some (JS.JObject
              (omap (fun kv => match jsonOf (snd kv) with
                               | Some j => Some (fst kv, j)
                               | None => None
                               end) props))
  end.

(** The stored form of a swap record. *)
Definition recordJson (st : SwapState) : JS.json :=
  default JS.JNull (jsonOf (toJS st)).

(** A write to the storage is either the list of swap ids or a swap
    record.  Before a redemption has been observed (no redeem transaction
    id in the record) the record holds the secret [sec]; afterwards it
    holds some secret. *)
Definition carriesSecret (sec : string) (e : Event) : Prop :=
  match e with
  | EvSetItem _ (JS.JArray _) => True
  | EvSetItem _ v =>
      (JS.field "secret" v = Some (JS.JString sec)
       /\ JS.field "btcRedeemTxId" v = None)
      \/ (exists s txid,
            JS.field "secret" v = Some (JS.JString s)
            /\ JS.field "btcRedeemTxId" v = Some (JS.JString txid))
  | _ => True
  end.

(** The list of swap ids a world stores, empty while none is stored. *)
Definition storedIds (w : World) : list JS.json :=
  match localStorage w !! SWAP_LIST_KEY with
  | Some (JS.JArray items) => items
  | _ => []
  end.

(** The stored list, if any, is an array. *)
Definition listIntact (w : World) : Prop :=
  match localStorage w !! SWAP_LIST_KEY with
  | Some (JS.JArray _) | None => True
  | Some _ => False
  end.

Definition recordKey (swapId : string) : string :=
  STORAGE_KEY_PREFIX +:+ swapId.

(** The world a save in the browser leaves behind. *)
Definition saved (st : SwapState) (w : World) : World :=
  let withRecord := <[recordKey (id st) := recordJson st]> (localStorage w) in
  let write := EvSetItem (recordKey (id st)) (recordJson st) in
  if existsb (isId (id st)) (storedIds w)
  then mkWorld (clock w) (window w) withRecord (randomSource w) (randomPos w)
         (xmrAddressValid w) (replies w) (trace w ++ [write])
  else let ids := JS.JArray (storedIds w ++ [JS.JString (id st)]) in
       mkWorld (clock w) (window w) (<[SWAP_LIST_KEY := ids]> withRecord)
         (randomSource w) (randomPos w) (xmrAddressValid w) (replies w)
         ((trace w ++ [write]) ++ [EvSetItem SWAP_LIST_KEY ids]).




(** A save cannot fail: there is no browser, or the stored list is intact
    and the record does not take the key of the list. *)
Definition storable (st : SwapState) (w : World) : Prop :=
  window w = false \/ (listIntact w /\ id st <> "list").

Definition afterSave (st : SwapState) (w : World) : World :=
  if window w then saved st w else w.

Definition notified (st : SwapState) (w : World) : World :=
  mkWorld (clock w) (window w) (localStorage w) (randomSource w) (randomPos w)
    (xmrAddressValid w) (replies w) (trace w ++ [EvPhaseChange (toJS st)]).

(** [emits P Q c]: whatever the world, the events [c] adds to the trace
    all satisfy [P], and a value it returns satisfies [Q]. *)
Definition emits (P : Event -> Prop) {A} (Q : A -> Prop) (c : M A) : Prop :=
  forall w, exists new,
    trace (c w).2 = trace w ++ new
    /\ Forall P new
    /\ forall a, (c w).1 = Ok a -> Q a.

(** A computation that adds nothing to the trace. *)
Definition silent {A} (c : M A) : Prop := forall w, trace (c w).2 = trace w.

(** The secret a snapshot holds: [sec] while no redemption is recorded,
    some secret once one is. *)
Definition secretKept (sec : string) (st : SwapState) : Prop :=
  (State.secret st = Some sec /\ btcRedeemTxId st = None)
  \/ (exists s txid, State.secret st = Some s /\ btcRedeemTxId st = Some txid).

(** The properties of the object a swap record is, in order; an optional
    property that is not set has no value. *)
Definition fieldsOf (s : SwapState) : list (string * option JS.jsval) :=
    [ ("id", Some (JS.VStr (id s)));
      ("peerId", Some (JS.VStr (peerId s)));
      ("createdAt", Some (JS.VInt (createdAt s)));
      ("updatedAt", Some (JS.VInt (updatedAt s)));
      ("phase", Some (JS.VStr (phaseName (phase s))));
      ("phaseHistory", Some (JS.VArr (entryToJS <$> phaseHistory s)));
      ("btcAmount", Some (JS.VBigInt (btcAmount s)));
      ("xmrAmount", Some (JS.VBigInt (xmrAmount s)));
      ("exchangeRate", Some (JS.VNum (exchangeRate s)));
      ("minBtcLockConfirmations", Some (JS.VInt (minBtcLockConfirmations s)));
      ("minXmrLockConfirmations", Some (JS.VInt (minXmrLockConfirmations s)));
      ("btcCancelTimelock", Some (JS.VInt (btcCancelTimelock s)));
      ("btcPunishTimelock", Some (JS.VInt (btcPunishTimelock s)));
      ("xmrUnlockHeight", Some (JS.VInt (xmrUnlockHeight s)));
      ("userBtcDepositPubkey", Some (JS.VStr (userBtcDepositPubkey s)));
      ("userBtcRefundPubkey", Some (JS.VStr (userBtcRefundPubkey s)));
      ("asbBtcRedeemPubkey", Some (JS.VStr (asbBtcRedeemPubkey s)));
      ("userXmrAddress", Some (JS.VStr (userXmrAddress s)));
      ("asbXmrViewKey", JS.VStr <$> asbXmrViewKey s);
      ("secretHash", Some (JS.VStr (State.secretHash s)));
      ("secret", JS.VStr <$> secret s);
      ("btcLockTxId", JS.VStr <$> btcLockTxId s);
      ("btcLockTxVout", JS.VInt <$> btcLockTxVout s);
      ("btcLockTxHex", JS.VStr <$> btcLockTxHex s);
      ("btcRedeemTxId", JS.VStr <$> btcRedeemTxId s);
      ("btcRefundTxId", JS.VStr <$> btcRefundTxId s);
      ("htlcScript", JS.VStr <$> State.htlcScript s);
      ("xmrLockTxId", JS.VStr <$> xmrLockTxId s);
      ("xmrRedeemTxId", JS.VStr <$> xmrRedeemTxId s);
      ("encryptedSignature", JS.VStr <$> encryptedSignature s);
      ("lastError", JS.VStr <$> lastError s);
      ("errorCount", Some (JS.VInt (errorCount s)));
      ("network", Some (JS.VStr (networkName (State.network s)))) ].

(** The properties of an object, printed. *)
Definition printed (fields : list (string * option JS.jsval))
    : list (string * JS.json) :=
  omap (fun kv => match jsonOf (snd kv) with
                  | Some j => Some (fst kv, j)
                  | None => None
                  end)
    (omap (fun kv : string * option JS.jsval => pair kv.1 <$> kv.2) fields).



(** A string of decimal digits, and a string without white space. *)
Fixpoint allDigits (s : string) : Prop :=
  match s with
  | EmptyString => True
  | String c rest => (exists d, 0 <= d < 10 /\ c = Num.digit d) /\ allDigits rest
  end.

Fixpoint noWhite (s : string) : Prop :=
  match s with
  | EmptyString => True
  | String c rest => JS.isWhite c = false /\ noWhite rest
  end.

(** A text the reviver of the state store leaves alone. *)
Definition plainText (s : string) : Prop := JS.startsWith s "bigint:" = false.

(** A number JSON has a text for: finite, and not minus zero. *)
Definition printable (x : spec_float) : Prop :=
  match x with
  | S754_finite _ _ _ | S754_zero false => True
  | _ => False
  end.

Definition textOf (o : option string) : list string :=
  match o with Some s => [s] | None => [] end.

(** The free texts of a swap record. *)
Definition texts (st : SwapState) : list string :=
  [id st; peerId st; userBtcDepositPubkey st; userBtcRefundPubkey st;
   asbBtcRedeemPubkey st; userXmrAddress st; State.secretHash st]
    ++ textOf (asbXmrViewKey st) ++ textOf (State.secret st)
    ++ textOf (btcLockTxId st) ++ textOf (btcLockTxHex st)
    ++ textOf (btcRedeemTxId st) ++ textOf (btcRefundTxId st)
    ++ textOf (State.htlcScript st) ++ textOf (xmrLockTxId st)
    ++ textOf (xmrRedeemTxId st) ++ textOf (encryptedSignature st)
    ++ textOf (lastError st)
    ++ omap details (phaseHistory st).

(** A record that the stored form can give back: none of its texts
    carries the tag of a bigint, and its exchange rate has a JSON text. *)
Definition tagFree (st : SwapState) : Prop :=
  Forall plainText (texts st) /\ printable (exchangeRate st).

(** A JavaScript value that is stored and read back unchanged. *)
Definition restored (v : JS.jsval) : Prop :=
  v <> JS.VUndefined
  /\ exists j, jsonOf v = Some j
               /\ forall name, JS.internalize reviver name j = Ok v.

(** The phase a listener call reports, if it is a phase change. *)
Definition callPhase (c : SwapExecution.Call) : option SwapExecution.SwapPhase :=
  match c with
  | SwapExecution.OnPhaseChange _ p _ => Some p
  | _ => None
  end.

(** The phases [execute] goes through, and those a cancellation starts
    from. *)
Definition executionPhases : list SwapExecution.SwapPhase :=
  [SwapExecution.initialized; SwapExecution.btc_lock_published;
   SwapExecution.btc_lock_confirmed; SwapExecution.xmr_lock_proof_received;
   SwapExecution.xmr_locked; SwapExecution.encrypted_signature_sent;
   SwapExecution.btc_redeemed; SwapExecution.xmr_redeemed].

Definition cancellable (p : SwapExecution.SwapPhase) : Prop :=
  p = SwapExecution.btc_lock_published \/ p = SwapExecution.btc_lock_confirmed
  \/ p = SwapExecution.xmr_lock_proof_received \/ p = SwapExecution.xmr_locked.

(** What is followed through a run of an execution: the state object,
    the clock, the random numbers and the position in them, and the
    phases reported to the listeners. *)
Definition view (r : nat) (s : SwapExecution.Store)
    : option SwapExecution.SwapState * Z * nat * (nat -> nat)
      * list SwapExecution.SwapPhase :=
  (SwapExecution.deref r s, SwapExecution.now s, SwapExecution.randomPos s,
   SwapExecution.randoms s, omap callPhase (SwapExecution.calls s)).

(** The transaction id made of the 64 random numbers from [pos] on. *)
Definition fakeTxId (rnd : nat -> nat) (pos : nat) : string :=
  string_of_list_ascii
    (map (fun i => Hex.digit (Z.of_nat (rnd (pos + i)%nat mod 16))) (seq 0 64)).

(** The number a script reads from a push: the bytes are the magnitude,
    the lowest first, and the top bit of the last byte is the sign. *)
Definition leValue (bs : list Z) : Z := foldr (fun b acc => b + 256 * acc) 0 bs.

Definition scriptNum (push : bytes) : Z :=
  let zs := byte_to_Z <$> push in
  match last zs with
  | None => 0
  | Some top =>
      if top <? 0x80 then leValue zs
      else - (leValue zs - 0x80 * 256 ^ Z.of_nat (length zs - 1))
  end.

(** The bytes of a positive number, the lowest first, at most [k]. *)
Fixpoint leDigits (k : nat) (v : Z) : list Z :=
  match k with
  | O => []
  | S k' => if 0 <? v then v mod 256 :: leDigits k' (v / 256) else []
  end.

(** What can be seen of a swap before its lock transaction exists: the
    request to the provider, records written in SWAP_INITIATED (and the
    list of ids), and phase notifications of SWAP_INITIATED; nothing is
    broadcast, signed, logged or removed. *)
Definition beforeLock (e : Event) : Prop :=
  match e with
  | EvInitiateSwap _ _ => True
  | EvSetItem _ (JS.JArray _) => True
  | EvSetItem _ v => JS.field "phase" v = Some (JS.JString "swap_initiated")
  | EvPhaseChange v => exists st, v = toJS st /\ phase st = SWAP_INITIATED
  | _ => False
  end.

(** Newest first. *)
Definition newerFirst (a b : SwapState) : Prop := createdAt b <= createdAt a.

(** The world after an error was logged. *)
Definition logged (msg : string) (w : World) : World :=
  mkWorld (clock w) (window w) (localStorage w) (randomSource w) (randomPos w)
    (xmrAddressValid w) (replies w) (trace w ++ [EvConsoleError msg]).
End Spec.

(* ================================================================== *)
(** * Part II: properties *)
(* ================================================================== *)

(** ** Test vectors of the primitives *)

Example sha256_abc :
  Hex.encode (sha256 [Byte.x61; Byte.x62; Byte.x63])
  = "ba7816bf8f01cfea414140de5dae2223b00361a396177a9cb410ff61f20015ad".
Proof. vm_compute. reflexivity. Qed.

Example sha256_empty :
  Hex.encode (sha256 [])
  = "e3b0c44298fc1c149afbf4c8996fb92427ae41e4649b934ca495991b7852b855".
Proof. vm_compute. reflexivity. Qed.

Example bech32_p2wsh_vector :
  result_bind
    (Hex.decode "1863143c14c5166804bd19203356da136c985678cd4d27a1b8c6329604903262")
    (fun prog => Ok (Bech32.segwitV0 "bc" prog, Bech32.segwitV0 "tb" prog))
  = Ok ("bc1qrp33g0q5c5txsp9arysrx4k6zdkfs4nce4xj0gdcccefvpysxf3qccfmv3",
        "tb1qrp33g0q5c5txsp9arysrx4k6zdkfs4nce4xj0gdcccefvpysxf3q0sl5k7").
Proof. vm_compute. reflexivity. Qed.

(** ** The state store ([State]) *)

Module StateFacts.
Import State.

(** The three operations that produce a new snapshot read the clock and
    nothing else. *)
Lemma transitionPhase_run (st : SwapState) (p : SwapPhase)
    (d : option string) (w : World) :
  exists st',
    transitionPhase st p d w = (Ok st', w)
    /\ phase st' = p
    /\ phaseHistory st' = phaseHistory st ++ [mkPhaseEntry p (clock w) d]
    /\ updatedAt st' = clock w
    /\ id st' = id st /\ createdAt st' = createdAt st
    /\ secret st' = secret st /\ secretHash st' = secretHash st
    /\ btcLockTxId st' = btcLockTxId st
    /\ btcLockTxVout st' = btcLockTxVout st
    /\ btcRedeemTxId st' = btcRedeemTxId st.
Proof. eexists. repeat split. Qed.

Lemma recordSwapError_run (st : SwapState) (msg : string) (w : World) :
  exists st',
    recordSwapError st msg w = (Ok st', w)
    /\ phase st' = phase st
    /\ phaseHistory st' = phaseHistory st
    /\ lastError st' = Some msg
    /\ errorCount st' = errorCount st + 1
    /\ id st' = id st /\ secret st' = secret st.
Proof. eexists. repeat split. Qed.

Lemma applyUpdate_id (st : SwapState) (u : FieldUpdate) :
  id (applyUpdate st u) = id st
  /\ createdAt (applyUpdate st u) = createdAt st
  /\ phaseHistory (applyUpdate st u) = phaseHistory st.
Proof. repeat split. Qed.


Lemma fold_applyUpdate_phase (us : list FieldUpdate) (st : SwapState) :
  forallb (fun u => negb (Spec.namesPhase u)) us = true ->
  phase (fold_left applyUpdate us st) = phase st.
Proof.
  revert st; induction us as [|u us IH]; intros st H; simpl in *; [done|].
  apply andb_prop in H as [Hu Hus]. rewrite IH by done.
  destruct u; simpl in *; done.
Qed.

Lemma fold_applyUpdate_secret (us : list FieldUpdate) (st : SwapState) :
  forallb (fun u => negb (Spec.namesSecret u)) us = true ->
  secret (fold_left applyUpdate us st) = secret st.
Proof.
  revert st; induction us as [|u us IH]; intros st H; simpl in *; [done|].
  apply andb_prop in H as [Hu Hus]. rewrite IH by done.
  destruct u; simpl in *; done.
Qed.

Lemma updateSwapState_run (st : SwapState) (us : list FieldUpdate) (w : World) :
  updateSwapState st us w
  = (Ok (applyUpdate (fold_left applyUpdate us st) (U_updatedAt (clock w))), w).
Proof. reflexivity. Qed.

End StateFacts.

(** C1.  [canRefund(state, currentHeight)] is true exactly when the height
    has reached [state.btcCancelTimelock], the phase is none of
    BTC_REDEEMED, XMR_REDEEMED and COMPLETED, and [state.btcLockTxId] is
    set. *)
Theorem canRefund_iff (state : State.SwapState) (currentHeight : Z) :
  State.canRefund state currentHeight = true
  <-> (currentHeight >= State.btcCancelTimelock state
       /\ State.phase state <> State.BTC_REDEEMED
       /\ State.phase state <> State.XMR_REDEEMED
       /\ State.phase state <> State.COMPLETED
       /\ State.btcLockTxId state <> None).
Proof.
  unfold State.canRefund.
  rewrite !andb_true_iff, !negb_true_iff, !bool_decide_eq_false,
    bool_decide_eq_true, Z.leb_le.
  intuition lia.
Qed.

(** In particular a state in one of the three phases cannot be refunded,
    whatever the height. *)
Lemma canRefund_redeemed (state : State.SwapState) (currentHeight : Z) :
  State.phase state = State.BTC_REDEEMED
  \/ State.phase state = State.XMR_REDEEMED
  \/ State.phase state = State.COMPLETED ->
  State.canRefund state currentHeight = false.
Proof.
  intros H. unfold State.canRefund.
  destruct H as [-> | [-> | ->]]; simpl; rewrite ?andb_false_r; reflexivity.
Qed.




(** ** The transaction factory ([Transactions]) *)

Module TransactionsFacts.
Import Transactions.

Lemma toInt32_small (x : Z) : - 2 ^ 31 <= x < 2 ^ 31 -> toInt32 x = x.
Proof. intros H. unfold toInt32. rewrite Z.mod_small; lia. Qed.

Lemma toInt32_range (x : Z) : - 2 ^ 31 <= toInt32 x < 2 ^ 31.
Proof.
  unfold toInt32.
  pose proof (Z.mod_pos_bound (x + 2 ^ 31) (2 ^ 32) ltac:(lia)). lia.
Qed.

Lemma encodeNum_loop_step (fuel : nat) (val : Z) (bs : list Z) :
  encodeNum_loop (S fuel) val bs
  = if 0 <? val
    then encodeNum_loop fuel (Z.shiftr (toInt32 val) 8)
           (bs ++ [Z.land (toInt32 val) 0xff])
    else Ok bs.
Proof. reflexivity. Qed.

Lemma encodeNum_loop_done (fuel : nat) (val : Z) (bs : list Z) :
  val <= 0 -> encodeNum_loop fuel val bs = Ok bs.
Proof.
  intros H. assert ((0 <? val) = false) as E by (apply Z.ltb_ge; lia).
  destruct fuel; [unfold encodeNum_loop | rewrite encodeNum_loop_step];
    rewrite E; reflexivity.
Qed.

(** Once the value is below [256 ^ k], [k] more rounds empty it. *)
Lemma encodeNum_loop_bounded (k : nat) :
  forall (fuel : nat) (val : Z) (bs : list Z),
    (k <= fuel)%nat -> (k <= 3)%nat -> val < 256 ^ Z.of_nat k ->
    exists out, encodeNum_loop fuel val bs = Ok out.
Proof.
  induction k as [|k IH]; intros fuel val bs Hk H3 Hval.
  - exists bs. apply encodeNum_loop_done.
    change (256 ^ Z.of_nat 0) with 1 in Hval. lia.
  - destruct fuel as [|fuel]; [lia|]. rewrite encodeNum_loop_step.
    destruct (0 <? val) eqn:E; [|by eexists].
    apply Z.ltb_lt in E.
    assert (256 ^ Z.of_nat (S k) <= 2 ^ 24) as Hpow.
    { change (2 ^ 24) with (256 ^ 3). apply Z.pow_le_mono_r; lia. }
    apply IH; [lia|lia|].
    rewrite toInt32_small by lia.
    rewrite Z.shiftr_div_pow2 by lia.
    apply Z.div_lt_upper_bound; [lia|].
    rewrite Nat2Z.inj_succ, Z.pow_succ_r in Hval by lia. lia.
Qed.

(** The loop of [encodeNum] ends within the eight rounds it is given. *)
Lemma encodeNum_loop_total (val : Z) (bs : list Z) :
  exists out, encodeNum_loop 8 val bs = Ok out.
Proof.
  rewrite encodeNum_loop_step.
  destruct (0 <? val) eqn:E; [|by eexists].
  apply (encodeNum_loop_bounded 3); [lia|lia|].
  rewrite Z.shiftr_div_pow2 by lia.
  pose proof (toInt32_range val).
  apply Z.div_lt_upper_bound; lia.
Qed.

Lemma encodeNum_total (n : Z) : exists bs, encodeNum n = Ok bs.
Proof.
  unfold encodeNum.
  destruct (n =? 0); [by eexists|].
  destruct ((1 <=? n) && (n <=? 16)); [by eexists|].
  destruct (encodeNum_loop_total (Z.abs n) []) as [out ->]. by eexists.
Qed.

Lemma createHtlcScript_layout (p : HtlcParams) (nLock : bytes) :
  encodeNum (locktime p) = Ok nLock ->
  createHtlcScript p = Ok (Spec.htlcScriptBytes p nLock).
Proof.
  intros H. unfold createHtlcScript. rewrite H.
  change (encodeNum 32) with (Ok (A := bytes) [Byte.x20]).
  unfold Spec.htlcScriptBytes, Spec.push. cbn -[pushPrefix Z.of_nat length].
  repeat (rewrite <- ?app_assoc; simpl; f_equal).
Qed.
End TransactionsFacts.

Module LockFacts.
Import Transactions Spec.

Section WithLib.
Variable lib : SignerLib.

Lemma addInputs_inv (ins : list Utxo) :
  forall (tx tx' : Transaction) (total total' : Z),
    addInputs lib ins tx total = Ok (tx', total') ->
    tx' = mkTransaction (tx_inputs tx ++ (toInput <$> ins)) (tx_outputs tx)
    /\ total' = total + inputSum ins.
Proof.
  induction ins as [|u ins IH]; intros tx tx' total total' H; simpl in *.
  - inversion H; subst. rewrite app_nil_r. destruct tx'; split; [done|lia].
  - unfold addInput in H. fold (toInput u) in H.
    destruct (acceptsInput lib (toInput u)); [|discriminate].
    simpl in H. apply IH in H as [-> ->]. simpl.
    rewrite <- app_assoc. split; [done|lia].
Qed.

Lemma addInputs_accepted (ins : list Utxo) :
  forall (tx : Transaction) (total : Z),
    forallb (acceptsInput lib) (toInput <$> ins) = true ->
    addInputs lib ins tx total
    = Ok (mkTransaction (tx_inputs tx ++ (toInput <$> ins)) (tx_outputs tx),
          total + inputSum ins).
Proof.
  induction ins as [|u ins IH]; intros tx total H; simpl in *.
  - rewrite app_nil_r. destruct tx. do 2 f_equal. lia.
  - apply andb_prop in H as [Hu Hins].
    unfold addInput. fold (toInput u). rewrite Hu. simpl.
    rewrite IH by done. simpl. rewrite <- app_assoc. do 2 f_equal. lia.
Qed.

(** What a lock transaction that was built looks like. *)
Lemma createLockTransaction_inv (p : LockTxParams) (tx : Transaction) :
  createLockTransaction lib p = Ok tx ->
  exists fee,
    estimateFee (length (inputs p)) (feeRate p) = Ok fee
    /\ tx_inputs tx = toInput <$> inputs p
    /\ tx_outputs tx
       = htlcOutput p
           :: (if 546 <? inputSum (inputs p) - amount p - fee
               then [mkTxOutput (changeAddress p)
                       (inputSum (inputs p) - amount p - fee)]
               else []).
Proof.
  unfold createLockTransaction. intros H.
  destruct (addInputs lib (inputs p) (mkTransaction [] []) 0)
    as [[tx1 total]|] eqn:E1; [|discriminate].
  apply addInputs_inv in E1 as [-> ->]. simpl in H.
  unfold addOutputAddress at 1 in H.
  destruct (acceptsOutput lib _ (amount p) (network p)); [|discriminate].
  simpl in H.
  destruct (estimateFee (length (inputs p)) (feeRate p)) as [fee|] eqn:E2;
    [|discriminate].
  simpl in H. exists fee. split; [done|].
  replace (0 + inputSum (inputs p)) with (inputSum (inputs p)) in H by lia.
  destruct (546 <? inputSum (inputs p) - amount p - fee).
  - unfold addOutputAddress in H.
    destruct (acceptsOutput lib _ _ _); [|discriminate].
    inversion H; subst; simpl. done.
  - inversion H; subst; simpl. done.
Qed.

(** When the library takes the inputs and the HTLC output and the fee
    is finite, a remainder of at most 546 gives the transaction with
    the HTLC output alone. *)
Lemma createLockTransaction_no_change (p : LockTxParams) (fee : Z) :
  estimateFee (length (inputs p)) (feeRate p) = Ok fee ->
  forallb (acceptsInput lib) (toInput <$> inputs p) = true ->
  acceptsOutput lib (out_address (htlcOutput p)) (amount p) (network p) = true ->
  inputSum (inputs p) - amount p - fee <= 546 ->
  createLockTransaction lib p
  = Ok (mkTransaction (toInput <$> inputs p) [htlcOutput p]).
Proof.
  intros Hfee Hin Hout Hchange. unfold createLockTransaction.
  rewrite addInputs_accepted by done. simpl.
  unfold addOutputAddress at 1. simpl in Hout. rewrite Hout. simpl.
  rewrite Hfee. simpl.
  replace (0 + inputSum (inputs p)) with (inputSum (inputs p)) by lia.
  destruct (546 <? inputSum (inputs p) - amount p - fee) eqn:E;
    [apply Z.ltb_lt in E; lia|done].
Qed.
End WithLib.
End LockFacts.

(** C5, as stated, fails: inputs worth 500 satoshis cannot cover a lock of
    1 000 000 plus the fee of 2 200, and a transaction is returned. *)
Lemma createLockTransaction_insufficient_counterexample :
  Transactions.estimateFee 1 (Transactions.floatOfZ 10) = Ok 2200
  /\ Spec.inputSum (Transactions.inputs (Fixtures.lockParams 500))
     < Transactions.amount (Fixtures.lockParams 500) + 2200
  /\ Transactions.createLockTransaction Fixtures.signer (Fixtures.lockParams 500)
     = Ok (Transactions.mkTransaction
             (Spec.toInput <$> Transactions.inputs (Fixtures.lockParams 500))
             [Spec.htlcOutput (Fixtures.lockParams 500)]).
Proof. split; [|split]; vm_compute; reflexivity. Qed.

(** C5 (amended).  [createLockTransaction] never compares the value of the
    inputs with [amount + fee].  When the inputs do not cover it (or leave
    at most the dust threshold), the library taking the inputs and the HTLC
    output and the fee estimate [BigInt(Math.ceil((150 + 70 * inputCount) *
    feeRate))] being a number [fee] (the product is a finite double: a
    product that is infinite or not a number makes [BigInt] throw), the
    result is the transaction with all the inputs and the HTLC output
    alone, and no error. *)
Theorem createLockTransaction_insufficient (lib : Transactions.SignerLib)
    (p : Transactions.LockTxParams) (fee : Z) :
  Transactions.estimateFee (length (Transactions.inputs p)) (Transactions.feeRate p)
    = Ok fee ->
  forallb (Transactions.acceptsInput lib) (Spec.toInput <$> Transactions.inputs p)
    = true ->
  Transactions.acceptsOutput lib
    (Transactions.htlcScriptToAddress (Transactions.htlcScript p)
       (Transactions.network p))
    (Transactions.amount p) (Transactions.network p) = true ->
  Spec.inputSum (Transactions.inputs p) < Transactions.amount p + fee ->
  Transactions.createLockTransaction lib p
  = Ok (Transactions.mkTransaction
          (Spec.toInput <$> Transactions.inputs p) [Spec.htlcOutput p]).
Proof.
  intros Hfee Hin Hout Hlt.
  apply (LockFacts.createLockTransaction_no_change lib p fee); try done. lia.
Qed.

Lemma createLockTransaction_insufficient_witness :
  Transactions.createLockTransaction Fixtures.signer (Fixtures.lockParams 500)
  = Ok (Transactions.mkTransaction
          (Spec.toInput <$> Transactions.inputs (Fixtures.lockParams 500))
          [Spec.htlcOutput (Fixtures.lockParams 500)]).
Proof.
  apply (createLockTransaction_insufficient Fixtures.signer
           (Fixtures.lockParams 500) 2200).
  - vm_compute; reflexivity.
  - reflexivity.
  - reflexivity.
  - vm_compute; reflexivity.
Defined.

(** C6.  For a lock transaction built with [inputSum >= amount + fee], the
    change output (paying [inputSum - amount - fee] to the change address,
    after the HTLC output) is there exactly when that remainder exceeds 546
    satoshis; otherwise the HTLC output is the only one and the remainder
    is left to the miner on top of the fee. *)
Theorem createLockTransaction_change_iff (lib : Transactions.SignerLib)
    (p : Transactions.LockTxParams) (tx : Transactions.Transaction) (fee : Z) :
  Transactions.createLockTransaction lib p = Ok tx ->
  Transactions.estimateFee (length (Transactions.inputs p)) (Transactions.feeRate p)
    = Ok fee ->
  Spec.inputSum (Transactions.inputs p) >= Transactions.amount p + fee ->
  let change := Spec.inputSum (Transactions.inputs p) - Transactions.amount p - fee in
  (Transactions.tx_outputs tx
     = [Spec.htlcOutput p;
        Transactions.mkTxOutput (Transactions.changeAddress p) change]
   <-> change > 546)
  /\ (Transactions.tx_outputs tx = [Spec.htlcOutput p] <-> ~ change > 546)
  /\ (~ change > 546 ->
      Spec.inputSum (Transactions.inputs p) - Spec.outputSum tx = fee + change).
Proof.
  intros Htx Hfee Hsum change.
  destruct (LockFacts.createLockTransaction_inv lib p tx Htx)
    as (fee' & Hfee' & Hin & Hout).
  rewrite Hfee in Hfee'. inversion Hfee'; subst fee'. fold change in Hout.
  unfold Spec.outputSum. rewrite Hout.
  destruct (546 <? change) eqn:E;
    [apply Z.ltb_lt in E | apply Z.ltb_ge in E].
  - split; [split; [lia|done]|]. split; [split; [discriminate|lia]|lia].
  - split; [split; [discriminate|lia]|]. split; [split; [lia|done]|].
    intros _. simpl. lia.
Qed.

Lemma createLockTransaction_change_iff_witness :
  Transactions.tx_outputs
    (Transactions.mkTransaction
       (Spec.toInput <$> Transactions.inputs (Fixtures.lockParams 2000000))
       [Spec.htlcOutput (Fixtures.lockParams 2000000);
        Transactions.mkTxOutput Fixtures.walletAddress 997800])
  = [Spec.htlcOutput (Fixtures.lockParams 2000000);
     Transactions.mkTxOutput
       (Transactions.changeAddress (Fixtures.lockParams 2000000))
       (Spec.inputSum (Transactions.inputs (Fixtures.lockParams 2000000))
        - Transactions.amount (Fixtures.lockParams 2000000) - 2200)]
  <-> Spec.inputSum (Transactions.inputs (Fixtures.lockParams 2000000))
      - Transactions.amount (Fixtures.lockParams 2000000) - 2200 > 546.
Proof.
  refine (proj1 (createLockTransaction_change_iff Fixtures.signer
                   (Fixtures.lockParams 2000000) _ 2200 _ _ _)).
  - vm_compute; reflexivity.
  - vm_compute; reflexivity.
  - vm_compute; discriminate.
Defined.

Module ScriptNumFacts.
Import Transactions Spec.

Lemma loop_digits (k : nat) :
  forall (fuel : nat) (val : Z) (bs : list Z),
    (k <= fuel)%nat -> 0 <= val < 256 ^ Z.of_nat k -> val < 2 ^ 31 ->
    encodeNum_loop fuel val bs = Ok (bs ++ leDigits k val).
Proof.
  induction k as [|k IH]; intros fuel val bs Hk Hv H31.
  - change (256 ^ Z.of_nat 0) with 1 in Hv.
    rewrite TransactionsFacts.encodeNum_loop_done by lia.
    by rewrite app_nil_r.
  - destruct fuel as [|fuel]; [lia|].
    rewrite TransactionsFacts.encodeNum_loop_step. cbn [leDigits].
    destruct (0 <? val) eqn:E; [|by rewrite app_nil_r].
    apply Z.ltb_lt in E.
    rewrite TransactionsFacts.toInt32_small by lia.
    rewrite Z.shiftr_div_pow2 by lia. change (2 ^ 8) with 256.
    change 255 with (Z.ones 8). rewrite Z.land_ones by lia.
    change (2 ^ 8) with 256.
    rewrite IH.
    + by rewrite <- app_assoc.
    + lia.
    + split; [apply Z.div_pos; lia|].
      apply Z.div_lt_upper_bound; [lia|].
      rewrite Nat2Z.inj_succ, Z.pow_succ_r in Hv by lia. lia.
    + apply Z.div_lt_upper_bound; lia.
Qed.

Lemma leDigits_value (k : nat) :
  forall v, 0 <= v < 256 ^ Z.of_nat k -> leValue (leDigits k v) = v.
Proof.
  induction k as [|k IH]; intros v Hv.
  - change (256 ^ Z.of_nat 0) with 1 in Hv. simpl. lia.
  - cbn [leDigits]. destruct (0 <? v) eqn:E.
    + apply Z.ltb_lt in E. cbn [leValue foldr].
      fold (leValue (leDigits k (v / 256))). rewrite IH.
      * pose proof (Z.div_mod v 256). lia.
      * split; [apply Z.div_pos; lia|].
        apply Z.div_lt_upper_bound; [lia|].
        rewrite Nat2Z.inj_succ, Z.pow_succ_r in Hv by lia. lia.
    + apply Z.ltb_ge in E. simpl. lia.
Qed.

Lemma leDigits_bytes (k : nat) :
  forall v, Forall (fun b => 0 <= b < 256) (leDigits k v).
Proof.
  induction k as [|k IH]; intros v; [constructor|].
  cbn [leDigits]. destruct (0 <? v); [|constructor].
  constructor; [apply Z.mod_pos_bound; lia|apply IH].
Qed.

Lemma leDigits_length (k : nat) :
  forall v, (length (leDigits k v) <= k)%nat.
Proof.
  induction k as [|k IH]; intros v; [done|].
  cbn [leDigits]. destruct (0 <? v); simpl; [|lia].
  specialize (IH (v / 256)). lia.
Qed.

Lemma leValue_snoc_zero (bs : list Z) : leValue (bs ++ [0]) = leValue bs.
Proof.
  induction bs as [|b bs IH]; [reflexivity|].
  cbn [app leValue foldr]. fold (leValue (bs ++ [0])). fold (leValue bs).
  by rewrite IH.
Qed.

Lemma bytes_back (zs : list Z) :
  Forall (fun b => 0 <= b < 256) zs -> byte_to_Z <$> (byte_of_Z <$> zs) = zs.
Proof.
  induction 1 as [|z zs Hz _ IH]; [reflexivity|].
  cbn [fmap list_fmap]. f_equal; [|exact IH].
  assert (exists n, (n < 256)%nat /\ z = Z.of_nat n) as (n & Hn & ->).
  { exists (Z.to_nat z). split; lia. }
  clear Hz. do 256 (destruct n as [|n]; [reflexivity|]). lia.
Qed.

Lemma sign_bit (z : Z) :
  0 <= z < 256 -> (Z.land z 0x80 =? 0) = (z <? 0x80).
Proof.
  intros Hz.
  assert (exists n, (n < 256)%nat /\ z = Z.of_nat n) as (n & Hn & ->).
  { exists (Z.to_nat z). split; lia. }
  clear Hz. do 256 (destruct n as [|n]; [reflexivity|]). lia.
Qed.

Lemma last_default (zs : list Z) (d : Z) :
  zs <> [] -> last zs = Some (List.last zs d).
Proof.
  induction zs as [|z zs IH]; [done|]. intros _.
  destruct zs as [|z' zs]; [reflexivity|].
  change (last (z :: z' :: zs)) with (last (z' :: zs)).
  change (List.last (z :: z' :: zs) d) with (List.last (z' :: zs) d).
  by apply IH.
Qed.

(** From 17 up to the largest 32-bit integer, [encodeNum] gives the
    number as a script reads it. *)
Lemma encodeNum_reads_back (n : Z) :
  17 <= n < 2 ^ 31 ->
  exists push,
    encodeNum n = Ok push /\ scriptNum push = n
    /\ (1 <= length push <= 5)%nat.
Proof.
  intros Hn. unfold encodeNum.
  assert ((n =? 0) = false) as -> by (apply Z.eqb_neq; lia).
  assert (((1 <=? n) && (n <=? 16)) = false) as ->.
  { apply andb_false_iff. right. apply Z.leb_gt. lia. }
  rewrite Z.abs_eq by lia.
  rewrite (loop_digits 4) by (cbn; lia). cbn [app result_bind].
  assert ((n <? 0) = false) as -> by (apply Z.ltb_ge; lia).
  set (bs := leDigits 4 n).
  assert (leValue bs = n) as Hval by (apply leDigits_value; cbn; lia).
  pose proof (leDigits_bytes 4 n) as Hbytes. fold bs in Hbytes.
  pose proof (leDigits_length 4 n) as Hlen. fold bs in Hlen.
  assert (bs <> []) as Hne.
  { intros E. rewrite E in Hval. simpl in Hval. lia. }
  assert (0 <= List.last bs 0 < 256) as Hlast.
  { pose proof (last_default bs 0 Hne) as E.
    apply last_Some in E as (l' & E).
    rewrite E in Hbytes. apply Forall_app in Hbytes as [_ Hb].
    by inversion Hb. }
  rewrite (sign_bit _ Hlast).
  destruct (List.last bs 0 <? 128) eqn:E.
  - exists (byte_of_Z <$> bs). split; [reflexivity|]. split.
    + unfold scriptNum. rewrite (bytes_back bs Hbytes).
      by rewrite (last_default bs 0 Hne), E.
    + rewrite length_fmap. destruct bs; [done|]. simpl in *. lia.
  - exists (byte_of_Z <$> (bs ++ [0])). split; [reflexivity|]. split.
    + unfold scriptNum. rewrite bytes_back.
      * rewrite last_snoc. change (0 <? 128) with true. cbv iota.
        by rewrite leValue_snoc_zero.
      * apply Forall_app. split; [done|]. constructor; [lia|constructor].
    + rewrite length_fmap, length_app. simpl. lia.
Qed.

Lemma encodeNum_small (n : Z) :
  1 <= n <= 16 ->
  encodeNum n = Ok [byte_of_Z (0x50 + n)]
  /\ scriptNum [byte_of_Z (0x50 + n)] = 80 + n.
Proof.
  intros Hn.
  assert (n = 1 \/ n = 2 \/ n = 3 \/ n = 4 \/ n = 5 \/ n = 6 \/ n = 7 \/ n = 8
          \/ n = 9 \/ n = 10 \/ n = 11 \/ n = 12 \/ n = 13 \/ n = 14
          \/ n = 15 \/ n = 16) as H by lia.
  repeat (destruct H as [->|H]; [split; reflexivity|]). subst. split; reflexivity.
Qed.
End ScriptNumFacts.

(** C7, as stated, fails: a [secretHash] of 31 bytes is taken without
    complaint. *)
Lemma createHtlcScript_short_hash_counterexample :
  length (Transactions.secretHash Fixtures.shortHashParams) = 31%nat
  /\ Hex.encode <$> (match Transactions.createHtlcScript Fixtures.shortHashParams with
                     | Ok script => Some script
                     | Throw _ => None
                     end)
     = Some ("6382012088a81f" +:+ "aaaaaaaaaaaaaaaaaaaaaaaaaaaaaaaaaaaaaaaaaaaaaaaaaaaaaaaaaaaaaa"
               +:+ "8821" +:+ "025555555555555555555555555555555555555555555555555555555555555555"
               +:+ "67" +:+ "0300350c" +:+ "b175"
               +:+ "21" +:+ "034444444444444444444444444444444444444444444444444444444444444444"
               +:+ "68ac").
Proof. split; vm_compute; reflexivity. Qed.

(** C7 (amended).  [createHtlcScript] does not look at the length of
    [secretHash]: for every [HtlcParams] it returns a script, the same bytes
    for the same parameters, laid out as IF SIZE <32> EQUALVERIFY SHA256
    <secretHash> EQUALVERIFY <redeemPubkey> ELSE <encodeNum(locktime)>
    CHECKLOCKTIMEVERIFY DROP <refundPubkey> ENDIF CHECKSIG.  What stands
    in the ELSE branch is the push of [encodeNum(locktime)]: from 17 up to
    2^31 - 1 a push of one to five bytes that a script reads as the
    locktime; for 1 to 16 the single byte 0x50 + locktime, which a script
    reads as 80 + locktime; for 0 the empty push; for 2^31 the byte 00. *)
Theorem createHtlcScript_total (p : Transactions.HtlcParams) :
  exists nLock,
    Transactions.encodeNum (Transactions.locktime p) = Ok nLock
    /\ Transactions.createHtlcScript p = Ok (Spec.htlcScriptBytes p nLock)
    /\ (17 <= Transactions.locktime p < 2 ^ 31 ->
        Spec.scriptNum nLock = Transactions.locktime p
        /\ (1 <= length nLock <= 5)%nat)
    /\ (1 <= Transactions.locktime p <= 16 ->
        nLock = [byte_of_Z (0x50 + Transactions.locktime p)]
        /\ Spec.scriptNum nLock = 80 + Transactions.locktime p)
    /\ (Transactions.locktime p = 0 -> nLock = [])
    /\ (Transactions.locktime p = 2 ^ 31 -> nLock = [Byte.x00]).
Proof.
  destruct (TransactionsFacts.encodeNum_total (Transactions.locktime p))
    as [nLock H].
  exists nLock. split; [done|].
  split; [by apply TransactionsFacts.createHtlcScript_layout|].
  split; [|split; [|split]].
  - intros Hr. destruct (ScriptNumFacts.encodeNum_reads_back _ Hr) as (push & E & Hv & Hl).
    rewrite E in H. injection H as <-. by split.
  - intros Hr. destruct (ScriptNumFacts.encodeNum_small _ Hr) as [E Hv].
    rewrite E in H. injection H as <-. by split.
  - intros E. rewrite E in H. by injection H as <-.
  - intros E. rewrite E in H. by injection H as <-.
Qed.

Lemma createHtlcScript_total_witness :
  exists nLock,
    Transactions.createHtlcScript
      (Transactions.mkHtlcParams (sha256 (Fixtures.counting <$> seq 0 32))
         (asb_btc_redeem_pubkey Fixtures.response)
         (refundPublicKey Fixtures.keys) 800000)
    = Ok (Spec.htlcScriptBytes
            (Transactions.mkHtlcParams (sha256 (Fixtures.counting <$> seq 0 32))
               (asb_btc_redeem_pubkey Fixtures.response)
               (refundPublicKey Fixtures.keys) 800000) nLock)
    /\ Spec.scriptNum nLock = 800000.
Proof.
  destruct (createHtlcScript_total
              (Transactions.mkHtlcParams (sha256 (Fixtures.counting <$> seq 0 32))
                 (asb_btc_redeem_pubkey Fixtures.response)
                 (refundPublicKey Fixtures.keys) 800000))
    as (nLock & _ & Hs & Hr & _).
  exists nLock. split; [exact Hs|].
  apply Hr. cbn [Transactions.locktime]. lia.
Defined.

(** ** Provider quotes ([Discovery], [SwapProvider]) *)

(** C9, as stated, fails for [ProviderDiscovery.getQuote]: an amount below
    the provider's minimum is answered with [null], the error being caught
    and logged inside the function. *)
Lemma getQuote_below_minimum_counterexample :
  quote Fixtures.provider = Some (mkAsbQuoteResponse 625000000000 10000 10000000 0)
  /\ 5000 < 10000
  /\ (Discovery.getQuote Fixtures.provider 5000 (Fixtures.world [])).1 = Ok None
  /\ trace (Discovery.getQuote Fixtures.provider 5000 (Fixtures.world [])).2
     = [EvConsoleError
          "Failed to get quote: Error: Amount below minimum: 10000 satoshis"].
Proof. repeat split. Qed.

(** C9 (amended).  [ProviderDiscovery.getQuote] checks the amount against
    the provider's advertised bounds before it answers: within the bounds
    it returns the provider's quote; below the minimum it logs
    "Failed to get quote:" with the error "Amount below minimum: <min>
    satoshis", above the maximum with the error "Amount above maximum:
    <max> satoshis", and in both cases returns [null], raising nothing and
    doing nothing else.  [SwapProviderService.getQuote] does raise: its
    result is the error whenever the parsed amount is below the parsed
    minimum or above the parsed maximum. *)
Theorem getQuote_bounds (provider : DiscoveredProvider) (q : AsbQuoteResponse)
    (btcAmount : Z) (w : World) :
  quote provider = Some q ->
  (btcAmount < min_quantity q ->
   Discovery.getQuote provider btcAmount w
   = (Ok None,
      Spec.logged ("Failed to get quote: Error: Amount below minimum: "
                     +:+ Num.decimal (min_quantity q) +:+ " satoshis") w))
  /\ (min_quantity q <= btcAmount -> max_quantity q < btcAmount ->
      Discovery.getQuote provider btcAmount w
      = (Ok None,
         Spec.logged ("Failed to get quote: Error: Amount above maximum: "
                        +:+ Num.decimal (max_quantity q) +:+ " satoshis") w))
  /\ (min_quantity q <= btcAmount <= max_quantity q ->
      Discovery.getQuote provider btcAmount w = (Ok (Some q), w))
  /\ (forall (parseFloat : string -> spec_float)
             (toFixed : spec_float -> Z -> string)
             (sp : SwapProvider.SwapProvider) (amount : string),
        (SFltb (parseFloat amount) (parseFloat (SwapProvider.minBtc sp)) = true ->
         SwapProvider.getQuote parseFloat toFixed sp amount w
         = (Throw (JsError ("Amount below minimum: " +:+ SwapProvider.minBtc sp
                              +:+ " BTC")), w))
        /\ (SFltb (parseFloat amount) (parseFloat (SwapProvider.minBtc sp)) = false ->
            SFltb (parseFloat (SwapProvider.maxBtc sp)) (parseFloat amount) = true ->
            SwapProvider.getQuote parseFloat toFixed sp amount w
            = (Throw (JsError ("Amount above maximum: " +:+ SwapProvider.maxBtc sp
                                 +:+ " BTC")), w))).
Proof.
  intros Hq. unfold Discovery.getQuote, try_catch. rewrite Hq.
  split; [|split; [|split]].
  - intros Hlo.
    assert ((btcAmount <? min_quantity q) = true) as -> by (apply Z.ltb_lt; lia).
    reflexivity.
  - intros Hlo Hhi.
    assert ((btcAmount <? min_quantity q) = false) as -> by (apply Z.ltb_ge; lia).
    assert ((max_quantity q <? btcAmount) = true) as -> by (apply Z.ltb_lt; lia).
    reflexivity.
  - intros [Hlo Hhi].
    assert ((btcAmount <? min_quantity q) = false) as -> by (apply Z.ltb_ge; lia).
    assert ((max_quantity q <? btcAmount) = false) as -> by (apply Z.ltb_ge; lia).
    reflexivity.
  - intros parseFloat toFixed sp amount.
    unfold SwapProvider.getQuote, SwapProvider.lt. split.
    + intros ->. reflexivity.
    + intros -> ->. reflexivity.
Qed.

Lemma getQuote_bounds_witness :
  Discovery.getQuote Fixtures.provider 20000000 (Fixtures.world [])
  = (Ok None,
     Spec.logged "Failed to get quote: Error: Amount above maximum: 10000000 satoshis"
       (Fixtures.world [])).
Proof.
  refine (proj1 (proj2 (getQuote_bounds Fixtures.provider
                   (mkAsbQuoteResponse 625000000000 10000 10000000 0)
                   20000000 (Fixtures.world []) _)) _ _).
  - reflexivity.
  - vm_compute. discriminate.
  - reflexivity.
Defined.

(** ** JSON: what the replacer of the state store prints *)

Module JsonFacts.
Import JS Spec.

Lemma depth_item (items : list jsval) (x : jsval) :
  In x items ->
  (depth x <= foldr (fun x d => Nat.max (depth x) d) O items)%nat.
Proof.
  induction items as [|y items IH]; simpl; [done|].
  intros [->|H]; [lia|]. specialize (IH H). lia.
Qed.

Lemma depth_prop (props : list (string * jsval)) (kv : string * jsval) :
  In kv props ->
  (depth kv.2 <= foldr (fun kv d => Nat.max (depth kv.2) d) O props)%nat.
Proof.
  induction props as [|y props IH]; simpl; [done|].
  intros [->|H]; [lia|]. specialize (IH H). lia.
Qed.

Section Folds.
Variable ser : string -> jsval -> result (option json).

Lemma fold_array (items : list jsval) :
  (forall key x, In x items -> ser key x = Ok (jsonOf x)) ->
  forall (i : nat) (out : list json),
    fold_left
      (fun (acc : result (nat * list json)) (item : jsval) =>
         result_bind acc (fun '(i, out) =>
           result_bind (ser (Num.decimal (Z.of_nat i)) item)
             (fun o => Ok (S i, out ++ [default JNull o]))))
      items (Ok (i, out))
    = Ok ((i + length items)%nat,
          out ++ map (fun x => default JNull (jsonOf x)) items).
Proof.
  induction items as [|x items IH]; intros H i out; simpl.
  - rewrite app_nil_r. do 2 f_equal. lia.
  - rewrite H by (by left). simpl.
    rewrite IH by (intros; apply H; by right).
    rewrite <- app_assoc. simpl. do 2 f_equal. lia.
Qed.

Lemma fold_object (props : list (string * jsval)) :
  (forall kv, In kv props -> ser kv.1 kv.2 = Ok (jsonOf kv.2)) ->
  forall (out : list (string * json)),
    fold_left
      (fun (acc : result (list (string * json))) (kv : string * jsval) =>
         result_bind acc (fun out =>
           result_bind (ser kv.1 kv.2)
             (fun o => Ok (match o with
                           | Some j => out ++ [(kv.1, j)]
                           | None => out
                           end))))
      props (Ok out)
    = Ok (out ++ omap (fun kv => match jsonOf (snd kv) with
                                 | Some j => Some (fst kv, j)
                                 | None => None
                                 end) props).
Proof.
  induction props as [|[k v] props IH]; intros H out.
  - simpl. by rewrite app_nil_r.
  - cbn [fold_left]. rewrite (H (k, v)) by (by left).
    cbn [result_bind fst snd omap list_omap].
    change (list_omap ?f ?l) with (omap f l).
    destruct (jsonOf v) as [j|].
    + rewrite IH by (intros; apply H; by right).
      by rewrite <- app_assoc.
    + rewrite IH by (intros; apply H; by right). done.
Qed.
End Folds.

(** With enough fuel for the nesting, the printer follows [jsonOf]. *)
Lemma serializeProperty_jsonOf (fuel : nat) :
  forall (key : string) (v : jsval),
    (depth v <= fuel)%nat ->
    serializeProperty fuel State.replacer key v = Ok (jsonOf v).
Proof.
  induction fuel as [|fuel IH]; intros key v Hd.
  - destruct v; simpl in Hd; lia.
  - destruct v as [| | b | x | z | s | items | props]; try reflexivity.
    + simpl. rewrite fold_array.
      * reflexivity.
      * intros k x Hx. apply IH. simpl in Hd.
        pose proof (depth_item items x Hx). lia.
    + simpl. rewrite fold_object.
      * reflexivity.
      * intros kv Hkv. apply IH. simpl in Hd.
        pose proof (depth_prop props kv Hkv). lia.
Qed.

Lemma stringify_jsonOf (v : jsval) :
  stringify v State.replacer = Ok (jsonOf v).
Proof. unfold stringify. apply serializeProperty_jsonOf. lia. Qed.

(** A swap record is always printed, as [recordJson]. *)
Lemma serializeSwapState_ok (st : State.SwapState) :
  State.serializeSwapState st = Ok (recordJson st).
Proof.
  unfold State.serializeSwapState, recordJson.
  rewrite stringify_jsonOf. reflexivity.
Qed.
End JsonFacts.

(** ** Running the monad *)

Module MonadFacts.
Lemma bind_ok {A B} (c : M A) (k : A -> M B) (w w' : World) (a : A) :
  c w = (Ok a, w') -> bind c k w = k a w'.
Proof. intros H. unfold bind. by rewrite H. Qed.

Lemma bind_throw {A B} (c : M A) (k : A -> M B) (w w' : World) (e : Error) :
  c w = (Throw e, w') -> bind c k w = (Throw e, w').
Proof. intros H. unfold bind. by rewrite H. Qed.

Lemma bind_inv {A B} (c : M A) (k : A -> M B) (w w'' : World) (b : B) :
  bind c k w = (Ok b, w'') ->
  exists a w', c w = (Ok a, w') /\ k a w' = (Ok b, w'').
Proof.
  unfold bind. destruct (c w) as [[a|e] w'] eqn:E; [|discriminate].
  intros H. by exists a, w'.
Qed.

Lemma try_catch_ok {A} (body : M A) (h : string -> M A) (w w' : World) (a : A) :
  body w = (Ok a, w') -> try_catch body h w = (Ok a, w').
Proof. intros H. unfold try_catch. by rewrite H. Qed.

Lemma try_catch_error {A} (body : M A) (h : string -> M A) (w w' : World)
    (msg : string) :
  body w = (Throw (JsError msg), w') -> try_catch body h w = h msg w'.
Proof. intros H. unfold try_catch. by rewrite H. Qed.
End MonadFacts.

(** ** The browser storage *)

Module StorageFacts.
Import State Spec.

Lemma recordKey_not_list (swapId : string) :
  swapId <> "list" -> recordKey swapId <> SWAP_LIST_KEY.
Proof.
  intros H E. apply H. unfold recordKey, STORAGE_KEY_PREFIX, SWAP_LIST_KEY in E.
  simpl in E. by inversion E.
Qed.

Lemma recordKey_inj (a b : string) : recordKey a = recordKey b -> a = b.
Proof.
  unfold recordKey, STORAGE_KEY_PREFIX. simpl. intros E. by inversion E.
Qed.

(** Outside a browser the three storage operations do nothing. *)
Lemma storage_without_window (st : SwapState) (swapId : string) (w : World) :
  window w = false ->
  saveSwapState st w = (Ok tt, w)
  /\ loadSwapState swapId w = (Ok None, w)
  /\ deleteSwapState swapId w = (Ok tt, w).
Proof.
  intros H. unfold saveSwapState, loadSwapState, deleteSwapState, bind, hasWindow.
  rewrite H. done.
Qed.

(** In a browser whose list is intact, a save writes the record and adds
    the id to the list unless it is there. *)
Lemma saveSwapState_run (st : SwapState) (w : World) :
  window w = true -> listIntact w -> id st <> "list" ->
  saveSwapState st w = (Ok tt, saved st w).
Proof.
  intros Hw Hl Hid.
  destruct w as [clk win ls rs rp xv rep tr]. simpl in Hw. subst win.
  unfold saveSwapState, getSwapIdList, bind, hasWindow, lift,
    localStorage_setItem, localStorage_getItem.
  rewrite JsonFacts.serializeSwapState_ok. cbn [negb window localStorage].
  fold (recordKey (id st)).
  rewrite lookup_insert_ne by (by apply recordKey_not_list).
  unfold saved, storedIds, listIntact in *. cbn [localStorage] in *.
  destruct (ls !! SWAP_LIST_KEY) as [[| | | |items|]|]; try done.
  unfold ret. destruct (existsb (isId (id st)) items); reflexivity.
Qed.
End StorageFacts.

(** ** Hexadecimal text *)

Module HexFacts.
Lemma byte_roundtrip (b : Byte.byte) : byte_of_Z (byte_to_Z b) = b.
Proof. destruct b; reflexivity. Qed.

Lemma byte_to_Z_range (b : Byte.byte) : 0 <= byte_to_Z b < 256.
Proof. destruct b; vm_compute; split; congruence. Qed.

Lemma nibbles (b : Byte.byte) :
  Hex.value (Hex.digit (byte_to_Z b / 16)) = Some (byte_to_Z b / 16)
  /\ Hex.value (Hex.digit (byte_to_Z b mod 16)) = Some (byte_to_Z b mod 16).
Proof. destruct b; split; reflexivity. Qed.

(** Decoding what was encoded gives the bytes back. *)
Lemma decode_encode (bs : bytes) : Hex.decode (Hex.encode bs) = Ok bs.
Proof.
  induction bs as [|b bs IH]; [reflexivity|].
  cbn [Hex.encode Hex.decode].
  destruct (nibbles b) as [-> ->]. rewrite IH. cbn [result_bind].
  rewrite <- Z.div_mod by lia. by rewrite byte_roundtrip.
Qed.

Lemma encode_length (bs : bytes) :
  String.length (Hex.encode bs) = (2 * length bs)%nat.
Proof. induction bs as [|b bs IH]; simpl; [done|]. rewrite IH. lia. Qed.

(** Every decoded byte comes from two characters. *)
Lemma decode_length (n : nat) :
  forall (s : string) (bs : bytes),
    String.length s = n -> Hex.decode s = Ok bs ->
    String.length s = (2 * length bs)%nat.
Proof.
  induction n as [n IH] using lt_wf_ind. intros s bs Hn H.
  destruct s as [|hi [|lo rest]]; simpl in H.
  - by inversion H.
  - discriminate.
  - destruct (Hex.value hi), (Hex.value lo); try discriminate.
    destruct (Hex.decode rest) as [tail|] eqn:E; [|discriminate].
    simpl in H. inversion H; subst bs. simpl in *.
    rewrite (IH (String.length rest) ltac:(lia) rest tail eq_refl E). lia.
Qed.
End HexFacts.

(** ** The redemption monitor ([Executor]) *)

Module MonitorFacts.
Import Executor.

Lemma extractSecretFromWitness_iff (spend : SpendTx) (s : bytes) :
  extractSecretFromWitness spend = Ok (Some s)
  <-> exists w0 w1 rest,
        witness spend = w0 :: w1 :: rest
        /\ Hex.decode w1 = Ok s /\ length s = 32%nat.
Proof.
  unfold extractSecretFromWitness. split.
  - destruct (witness spend) as [|w0 [|w1 rest]]; try discriminate.
    destruct (Hex.decode w1) as [bs|] eqn:E; [|discriminate]. simpl.
    case_bool_decide; [|discriminate].
    intros H'; inversion H'; subst. by exists w0, w1, rest.
  - intros (w0 & w1 & rest & -> & -> & Hlen). simpl.
    by rewrite bool_decide_eq_true_2.
Qed.
End MonitorFacts.

(** X1.  The witness [createRedeemTransaction] builds,
    [signature, secret, 0x01, script] with a 32-byte secret, is read back
    by [extractSecretFromWitness] as exactly that secret; the witness
    [createRefundTransaction] builds, [signature, empty, script], and a
    witness of fewer than two elements give no secret; a second element of
    another length gives none either. *)
Theorem extractSecretFromWitness_layouts (txid sig script : string)
    (secret : bytes) :
  length secret = 32%nat ->
  Executor.extractSecretFromWitness
    (mkSpendTx txid [sig; Hex.encode secret; "01"; script]) = Ok (Some secret)
  /\ Executor.extractSecretFromWitness
       (mkSpendTx txid [sig; EmptyString; script]) = Ok None
  /\ Executor.extractSecretFromWitness (mkSpendTx txid [sig]) = Ok None
  /\ Executor.extractSecretFromWitness (mkSpendTx txid []) = Ok None
  /\ (forall other : bytes,
        length other <> 32%nat ->
        Executor.extractSecretFromWitness
          (mkSpendTx txid [sig; Hex.encode other; "01"; script]) = Ok None).
Proof.
  intros Hlen. unfold Executor.extractSecretFromWitness. simpl.
  rewrite HexFacts.decode_encode. simpl.
  rewrite bool_decide_eq_true_2 by done.
  repeat split. intros other Hother.
  rewrite HexFacts.decode_encode. simpl.
  by rewrite bool_decide_eq_false_2.
Qed.

Lemma extractSecretFromWitness_layouts_witness :
  Executor.extractSecretFromWitness
    (mkSpendTx Fixtures.redeemTxId
       [Fixtures.signatureHex; Hex.encode (Fixtures.counting <$> seq 0 32);
        "01"; "63820120"])
  = Ok (Some (Fixtures.counting <$> seq 0 32)).
Proof.
  refine (proj1 (extractSecretFromWitness_layouts Fixtures.redeemTxId
                   Fixtures.signatureHex "63820120"
                   (Fixtures.counting <$> seq 0 32) _)).
  reflexivity.
Defined.

Module RedeemFacts.
Import Executor State Spec.






End RedeemFacts.

Module QuietFacts.
Import Executor State Spec.

End QuietFacts.



Module SaveFacts.
Import State Spec.

Lemma saveSwapState_ok (st : SwapState) (w : World) :
  storable st w -> saveSwapState st w = (Ok tt, afterSave st w).
Proof.
  unfold storable, afterSave. destruct (window w) eqn:Hw.
  - intros [?|[Hl Hid]]; [done|]. by apply StorageFacts.saveSwapState_run.
  - intros _. by destruct (StorageFacts.storage_without_window st EmptyString w Hw).
Qed.

Lemma saved_fields (st : SwapState) (w : World) :
  clock (saved st w) = clock w
  /\ window (saved st w) = window w
  /\ replies (saved st w) = replies w
  /\ randomSource (saved st w) = randomSource w
  /\ randomPos (saved st w) = randomPos w
  /\ xmrAddressValid (saved st w) = xmrAddressValid w.
Proof. unfold saved. destruct (existsb _ _); done. Qed.

Lemma saved_record (st : SwapState) (w : World) :
  id st <> "list" ->
  localStorage (saved st w) !! recordKey (id st) = Some (recordJson st).
Proof.
  intros Hid. unfold saved. destruct (existsb _ _); cbn [localStorage].
  - by rewrite lookup_insert_eq.
  - rewrite lookup_insert_ne
      by (intros E; by apply (StorageFacts.recordKey_not_list (id st))).
    by rewrite lookup_insert_eq.
Qed.


Lemma afterSave_fields (st : SwapState) (w : World) :
  clock (afterSave st w) = clock w
  /\ window (afterSave st w) = window w
  /\ replies (afterSave st w) = replies w
  /\ randomSource (afterSave st w) = randomSource w
  /\ randomPos (afterSave st w) = randomPos w
  /\ xmrAddressValid (afterSave st w) = xmrAddressValid w.
Proof.
  unfold afterSave. destruct (window w) eqn:E; [|done].
  rewrite <- E. apply saved_fields.
Qed.


End SaveFacts.

Section Recognises.
Import State Spec Executor.

End Recognises.


(** ** Events a computation adds to the trace *)

Module HoareFacts.
Import State Spec.

Section Rules.
Variable P : Event -> Prop.

Lemma emits_ret {A} (Q : A -> Prop) (a : A) : Q a -> emits P Q (ret a).
Proof.
  intros HQ w. exists []. simpl. rewrite app_nil_r.
  split; [done|]. split; [constructor|]. intros a' E. by injection E as <-.
Qed.

Lemma emits_lift {A} (Q : A -> Prop) (r : result A) :
  (forall a, r = Ok a -> Q a) -> emits P Q (lift r).
Proof.
  intros HQ w. exists []. simpl. rewrite app_nil_r.
  split; [done|]. split; [constructor|done].
Qed.

Lemma emits_throw {A} (Q : A -> Prop) (msg : string) : emits P Q (throw msg).
Proof.
  intros w. exists []. simpl. rewrite app_nil_r.
  split; [done|]. split; [constructor|discriminate].
Qed.

Lemma emits_bind {A B} (Q1 : A -> Prop) (Q2 : B -> Prop) (c : M A) (k : A -> M B) :
  emits P Q1 c -> (forall a, Q1 a -> emits P Q2 (k a)) -> emits P Q2 (bind c k).
Proof.
  intros Hc Hk w. destruct (Hc w) as (new1 & Ht1 & HP1 & HQ1).
  unfold bind. destruct (c w) as [[a|e] w1] eqn:E; simpl in *.
  - destruct (Hk a (HQ1 a eq_refl) w1) as (new2 & Ht2 & HP2 & HQ2).
    exists (new1 ++ new2).
    split; [by rewrite Ht2, Ht1, app_assoc|].
    split; [by apply Forall_app|done].
  - exists new1. split; [done|]. split; [done|]. discriminate.
Qed.


Lemma emits_weaken {A} (Q Q' : A -> Prop) (c : M A) :
  emits P Q c -> (forall a, Q a -> Q' a) -> emits P Q' c.
Proof.
  intros Hc HQ w. destruct (Hc w) as (new & Ht & HP & HQ1).
  exists new. split; [done|]. split; [done|]. intros a E. by apply HQ, HQ1.
Qed.

Lemma emits_silent {A} (Q : A -> Prop) (c : M A) :
  silent c -> (forall w a, (c w).1 = Ok a -> Q a) -> emits P Q c.
Proof.
  intros Hs HQ w. exists []. rewrite app_nil_r.
  split; [apply Hs|]. split; [constructor|apply HQ].
Qed.

Lemma emits_emit (e : Event) : P e -> emits P (fun _ => True) (emit e).
Proof.
  intros He w. exists [e]. simpl. split; [done|]. split; [|done].
  by constructor.
Qed.

Lemma emits_setItem (k : string) (v : JS.json) :
  P (EvSetItem k v) -> emits P (fun _ => True) (localStorage_setItem k v).
Proof.
  intros He w. exists [EvSetItem k v]. simpl. split; [done|]. split; [|done].
  by constructor.
Qed.
End Rules.

Lemma silent_next {A} (get : Replies -> list A) (set : list A -> Replies -> Replies) :
  silent (Executor.next get set).
Proof.
  intros w. unfold Executor.next, bind, getReplies, setReplies, ret.
  destruct (get (replies w)); reflexivity.
Qed.

Lemma silent_answer {A} (o : option (result A)) : silent (Executor.answer o).
Proof. intros w. destruct o as [[?|?]|]; reflexivity. Qed.
End HoareFacts.

(** ** The stored form of a record *)

Module RecordFacts.
Import State Spec.

Lemma field_cons (k k' : string) (j : JS.json) (l : list (string * JS.json)) :
  JS.field k (JS.JObject ((k', j) :: l))
  = if bool_decide (k' = k) then Some j else JS.field k (JS.JObject l).
Proof.
  unfold JS.field. cbn [list_find]. cbn [fst].
  case_decide as H.
  - apply bool_decide_unpack in H. subst. by rewrite bool_decide_eq_true_2.
  - rewrite bool_decide_eq_false_2.
    + by destruct (list_find _ l) as [[? [? ?]]|].
    + intros ->. apply H. by apply bool_decide_pack.
Qed.

Lemma printed_cons (k : string) (o : option JS.jsval)
    (fields : list (string * option JS.jsval)) :
  printed ((k, o) :: fields)
  = match o ≫= jsonOf with
    | Some j => (k, j) :: printed fields
    | None => printed fields
    end.
Proof.
  unfold printed. destruct o as [v|]; [|reflexivity].
  cbn [omap list_omap fmap option_fmap option_map fst snd mbind option_bind].
  destruct (jsonOf v); reflexivity.
Qed.

Lemma field_absent (k : string) (fields : list (string * option JS.jsval)) :
  Forall (fun kv => kv.1 <> k) fields ->
  JS.field k (JS.JObject (printed fields)) = None.
Proof.
  induction fields as [|[k' o] fields IH]; intros H; [reflexivity|].
  inversion H as [|? ? Hk Hrest]; subst. rewrite printed_cons.
  destruct (o ≫= jsonOf); [|by apply IH].
  rewrite field_cons, bool_decide_eq_false_2 by done. by apply IH.
Qed.

Lemma field_present (k : string) (o : option JS.jsval)
    (pre post : list (string * option JS.jsval)) :
  Forall (fun kv => kv.1 <> k) pre ->
  Forall (fun kv => kv.1 <> k) post ->
  JS.field k (JS.JObject (printed (pre ++ (k, o) :: post))) = o ≫= jsonOf.
Proof.
  intros Hpre Hpost. induction pre as [|[k' o'] pre IH].
  - cbn [app]. rewrite printed_cons. destruct (o ≫= jsonOf) as [j|].
    + by rewrite field_cons, bool_decide_eq_true_2.
    + by apply field_absent.
  - inversion Hpre as [|? ? Hk Hrest]; subst. cbn [app].
    rewrite printed_cons. destruct (o' ≫= jsonOf); [|by apply IH].
    rewrite field_cons, bool_decide_eq_false_2 by done. by apply IH.
Qed.

Lemma toJS_fields (st : SwapState) :
  toJS st
  = JS.VObj (omap (fun kv : string * option JS.jsval => pair kv.1 <$> kv.2)
               (fieldsOf st)).
Proof. reflexivity. Qed.

Lemma recordJson_printed (st : SwapState) :
  recordJson st = JS.JObject (printed (fieldsOf st)).
Proof.
  unfold recordJson, printed. rewrite toJS_fields.
  generalize (omap (fun kv : string * option JS.jsval => pair kv.1 <$> kv.2)
                (fieldsOf st)).
  intros l. reflexivity.
Qed.

Ltac keys_differ := repeat constructor; discriminate.


End RecordFacts.

(** ** The secret in what is written to the storage *)

Module SecretFacts.
Import State Spec HoareFacts.

Lemma silent_bind {A B} (c : M A) (k : A -> M B) :
  silent c -> (forall a, silent (k a)) -> silent (bind c k).
Proof.
  intros Hc Hk w. unfold bind. specialize (Hc w).
  destruct (c w) as [[a|e] w1]; simpl in *; [|done].
  by rewrite Hk.
Qed.

Lemma carries_other (sec : string) (e : Event) :
  match e with EvSetItem _ _ => False | _ => True end -> carriesSecret sec e.
Proof. by destruct e. Qed.


Section WithSecret.
Variable sec : string.
Let P := carriesSecret sec.
Let kept := secretKept sec.








Ltac hbind L := eapply emits_bind; [L|].










End WithSecret.
End SecretFacts.

(** * Writes of a whole run *)

Section Writes.
Import State Spec HoareFacts SecretFacts Executor.

Ltac hbind L := eapply emits_bind; [L|].

Lemma createSwapState_fresh (p : CreateParams) (w : World) :
exists st w',
  createSwapState p w = (Ok st, w')
  /\ trace w' = trace w
  /\ phase st = SWAP_INITIATED
  /\ secret st = None /\ btcRedeemTxId st = None /\ btcLockTxId st = None
  /\ errorCount st = 0.
Proof.
unfold createSwapState, generateSwapId, bind, Date_now, getRandomValues, ret.
eexists _, _. split; [reflexivity|]. repeat split.
Qed.


End Writes.

(** ** [executeSwap] and the unsigned lock transaction *)

Module UnsignedFacts.
Import State Spec HoareFacts Executor.

Lemma recordJson_phase (st : SwapState) :
  JS.field "phase" (recordJson st) = Some (JS.JString (phaseName (phase st))).
Proof.
  rewrite RecordFacts.recordJson_printed.
  change (fieldsOf st)
    with (take 4 (fieldsOf st)
            ++ ("phase", Some (JS.VStr (phaseName (phase st))))
                 :: drop 5 (fieldsOf st)).
  rewrite RecordFacts.field_present.
  - reflexivity.
  - cbn [take fieldsOf]. repeat (constructor; [discriminate|]). constructor.
  - cbn [drop fieldsOf]. repeat (constructor; [discriminate|]). constructor.
Qed.

Lemma before_record (k : string) (st : SwapState) :
  phase st = SWAP_INITIATED -> beforeLock (EvSetItem k (recordJson st)).
Proof.
  intros H. pose proof (RecordFacts.recordJson_printed st) as E.
  unfold beforeLock. rewrite E. rewrite <- E.
  by rewrite recordJson_phase, H.
Qed.

Ltac hbind L := eapply emits_bind; [L|].

Lemma before_save (st : SwapState) :
  phase st = SWAP_INITIATED ->
  emits beforeLock (fun _ => True) (saveSwapState st).
Proof.
  intros Hp. unfold saveSwapState.
  hbind ltac:(apply (emits_silent beforeLock (fun _ => True)); done).
  intros win _. destruct win; cbn [negb]; [|by apply emits_ret].
  rewrite JsonFacts.serializeSwapState_ok.
  hbind ltac:(apply (emits_lift beforeLock (fun j => j = recordJson st))).
  { intros a E. by injection E as <-. }
  intros j ->.
  hbind ltac:(apply emits_setItem; by apply before_record).
  intros _ _.
  hbind ltac:(apply (emits_silent beforeLock (fun _ => True))).
  { intros w. unfold getSwapIdList, bind, hasWindow, localStorage_getItem.
    destruct (window w); [|done]. simpl.
    by destruct (localStorage w !! SWAP_LIST_KEY). }
  { done. }
  intros [| | |text|items|] _; try apply emits_throw.
  - destruct (JS.includes text (id st)); [by apply emits_ret|apply emits_throw].
  - destruct (existsb _ _); [by apply emits_ret|].
    by apply emits_setItem.
Qed.

Lemma before_notify (st : SwapState) :
  phase st = SWAP_INITIATED ->
  emits beforeLock (fun _ => True) (notifyPhaseChange st).
Proof. intros Hp. apply emits_emit. by exists st. Qed.

Lemma before_collaborator {A} (get : Replies -> list (result A))
    (set : list (result A) -> Replies -> Replies) :
  emits beforeLock (fun _ => True) (let* o := next get set in answer o).
Proof.
  apply (emits_silent beforeLock (fun _ => True)); [|done].
  apply SecretFacts.silent_bind; [apply silent_next|apply silent_answer].
Qed.

Section Unsigned.
Variable lib : Transactions.SignerLib.
Hypothesis unsigned :
  forall tx, Transactions.tx_inputs tx <> [] ->
             forall raw, Transactions.extract lib tx <> Ok raw.

(** The part of [executeSwap] before the continuation never gets past
    the serialisation of the lock transaction. *)
Lemma prefix_stops (this : SwapExecutor) (quote : Executor.SwapQuote) (addr : string)
    (utxos : list Transactions.Utxo) :
  utxos <> [] ->
  emits beforeLock (fun _ : SwapState * SwapKeys * bytes => False)
    (executeSwap_prefix lib this quote addr utxos).
Proof.
  intros Hne. unfold executeSwap_prefix.
  destruct (node this); cbn [negb]; [|apply emits_throw].
  hbind ltac:(apply (emits_silent beforeLock (fun _ => True)); done).
  intros valid _. destruct valid; cbn [negb]; [|apply emits_throw].
  hbind ltac:(apply (emits_silent beforeLock (fun _ => True)); done).
  intros sec _.
  hbind ltac:(apply before_collaborator). intros keys _.
  hbind ltac:(unfold node_initiateSwap; hbind ltac:(by apply emits_emit);
              intros _ _; apply before_collaborator).
  intros resp _.
  hbind ltac:(apply (emits_silent beforeLock
                       (fun st => phase st = SWAP_INITIATED))).
  { intros w1.
    by destruct (createSwapState_fresh
                   (mkCreateParams (q_peerId quote) (q_btcAmount quote)
                      (q_xmrAmount quote) (q_exchangeRate quote)
                      (depositPublicKey keys) (refundPublicKey keys)
                      (asb_btc_redeem_pubkey resp) addr
                      (Transactions.hashSecret sec)
                      (cancel_timelock resp) (punish_timelock resp)
                      (min_btc_lock_confirmations resp)
                      (min_xmr_lock_confirmations resp)
                      (networkNameOf this)) w1)
      as (st & w' & -> & ? & _). }
  { intros w1 a E.
    destruct (createSwapState_fresh
                (mkCreateParams (q_peerId quote) (q_btcAmount quote)
                   (q_xmrAmount quote) (q_exchangeRate quote)
                   (depositPublicKey keys) (refundPublicKey keys)
                   (asb_btc_redeem_pubkey resp) addr
                   (Transactions.hashSecret sec)
                   (cancel_timelock resp) (punish_timelock resp)
                   (min_btc_lock_confirmations resp)
                   (min_xmr_lock_confirmations resp)
                   (networkNameOf this)) w1)
      as (st & w' & E' & _ & Hp & _).
    rewrite E' in E. cbn [fst] in E. injection E as <-. exact Hp. }
  intros st0 Hst0.
  hbind ltac:(apply (emits_silent beforeLock
                       (fun st => phase st = SWAP_INITIATED)); [done|]).
  { intros w0 a E. rewrite StateFacts.updateSwapState_run in E.
    injection E as <-. exact Hst0. }
  intros st1 Hst1.
  hbind ltac:(by apply before_save). intros _ _.
  hbind ltac:(by apply before_notify). intros _ _.
  hbind ltac:(by apply (emits_lift beforeLock (fun _ => True))).
  intros script _.
  hbind ltac:(apply (emits_silent beforeLock (fun _ => True)); done).
  intros st2 _.
  hbind ltac:(apply (emits_lift beforeLock
                       (fun tx => Transactions.tx_inputs tx <> []))).
  { intros tx E.
    apply LockFacts.createLockTransaction_inv in E as (fee & _ & -> & _).
    cbn [Transactions.inputs]. by destruct utxos. }
  intros tx Htx.
  hbind ltac:(apply (emits_silent beforeLock (fun _ => True)); done).
  intros st3 _.
  hbind ltac:(apply (emits_lift beforeLock (fun _ : bytes => False))).
  { intros raw E. exact (unsigned tx Htx raw E). }
  intros raw [].
Qed.
End Unsigned.
End UnsignedFacts.

(** X4.  With a signing library that, like the one the repository uses,
    does not serialise a transaction whose inputs are not signed,
    [executeSwap] called with at least one UTXO returns no state: it
    raises an error, the same however long it is left to run, before the
    lock transaction is recorded.  By then it has at most sent the swap
    request to the provider, stored the record in SWAP_INITIATED and
    reported that phase; nothing is broadcast.  (Nothing in the repository
    signs the inputs between [createLockTransaction] and
    [lockTx.extract()].) *)
Theorem executeSwap_stops_unsigned (lib : Transactions.SignerLib)
    (this : Executor.SwapExecutor) (quote : Executor.SwapQuote) (addr : string)
    (utxos : list Transactions.Utxo) (w : World) :
  (forall tx, Transactions.tx_inputs tx <> [] ->
              forall raw, Transactions.extract lib tx <> Ok raw) ->
  utxos <> [] ->
  exists e w' new,
    (forall fuel : nat,
       Executor.executeSwap lib this fuel quote addr utxos w = (Throw e, w'))
    /\ trace w' = trace w ++ new
    /\ Forall Spec.beforeLock new.
Proof.
  intros Hlib Hne.
  destruct (UnsignedFacts.prefix_stops lib Hlib this quote addr utxos Hne w)
    as (new & Ht & HP & HQ).
  destruct (Executor.executeSwap_prefix lib this quote addr utxos w)
    as [[r|e] w1] eqn:E; cbn [fst snd] in *.
  - destruct (HQ r eq_refl).
  - exists e, w1, new. split; [|by split].
    intros fuel. unfold Executor.executeSwap, bind at 1. by rewrite E.
Qed.

Lemma executeSwap_stops_unsigned_witness :
  exists e w' new,
    (forall fuel : nat,
       Executor.executeSwap Fixtures.signer Fixtures.executor fuel Fixtures.quote
         Fixtures.xmrAddress Fixtures.utxos (Fixtures.world [])
       = (Throw e, w'))
    /\ trace w' = trace (Fixtures.world []) ++ new
    /\ Forall Spec.beforeLock new.
Proof.
  apply (executeSwap_stops_unsigned Fixtures.signer Fixtures.executor
           Fixtures.quote Fixtures.xmrAddress Fixtures.utxos (Fixtures.world [])).
  - intros tx _ raw. discriminate.
  - discriminate.
Defined.

(** The run of the witness does reach the serialisation: the address is a
    valid one, the wallet and the provider answer, and the lock
    transaction is built from a well-formed UTXO. *)
Example executeSwap_unsigned_run :
  (Executor.executeSwap Fixtures.signer Fixtures.executor 10 Fixtures.quote
     Fixtures.xmrAddress Fixtures.utxos (Fixtures.world [])).1
  = Throw (JsError "Transaction has unfinalized inputs")
  /\ length (trace (Executor.executeSwap Fixtures.signer Fixtures.executor 10
                      Fixtures.quote Fixtures.xmrAddress Fixtures.utxos
                      (Fixtures.world [])).2) = 4%nat.
Proof. split; vm_compute; reflexivity. Qed.

Section Guards.
Import State Spec Executor.

(** X6.  [executeSwap] fails before anything happens when the executor has
  no peer node or the Monero destination address is not valid for the
  executor's network: the error is the caller's, and the world is left as
  it was (no secret is drawn, no key is asked for, nothing is sent,
  stored or reported). *)
Theorem executeSwap_fails_fast (lib : Transactions.SignerLib)
  (this : SwapExecutor) (fuel : nat) (quote : SwapQuote) (addr : string)
  (utxos : list Transactions.Utxo) (w : World) :
node this = false
\/ xmrAddressValid w addr (networkNameOf this) = false ->
executeSwap lib this fuel quote addr utxos w
= (Throw (JsError (if node this then "Invalid Monero destination address"
                   else "Executor not initialized")), w).
Proof.
intros H. unfold executeSwap, executeSwap_prefix.
destruct (node this) eqn:Hn; cbn [negb].
- destruct H as [H|H]; [done|].
  unfold bind at 1. unfold bind at 1. unfold isValidMoneroAddress at 1.
  rewrite H. reflexivity.
- reflexivity.
Qed.
End Guards.

Lemma executeSwap_fails_fast_witness :
  Executor.executeSwap Fixtures.signer
    (Executor.mkSwapExecutor false (Executor.mkSwapConfig true None None None)
       Transactions.MAINNET)
    5 Fixtures.quote "4xmr" Fixtures.utxos (Fixtures.world [])
  = (Throw (JsError "Executor not initialized"), Fixtures.world []).
Proof.
  apply (executeSwap_fails_fast Fixtures.signer
    (Executor.mkSwapExecutor false (Executor.mkSwapConfig true None None None)
       Transactions.MAINNET)
    5 Fixtures.quote "4xmr" Fixtures.utxos (Fixtures.world [])).
  left. reflexivity.
Defined.

Module LoadFacts.
Import State Spec.

(** Reading a record changes nothing. *)
Lemma loadSwapState_world (swapId : string) (w : World) :
  (loadSwapState swapId w).2 = w.
Proof.
  unfold loadSwapState, bind, hasWindow, localStorage_getItem, lift, ret, throw.
  destruct (window w); cbn [negb]; [|done].
  destruct (localStorage w !! _); [|done].
  destruct (deserializeSwapState _); [|done].
  by destruct (fromJS _).
Qed.

Lemma loadSwapState_run (swapId : string) (w : World) :
  loadSwapState swapId w = ((loadSwapState swapId w).1, w).
Proof.
  rewrite <- (loadSwapState_world swapId w) at 3. by destruct (loadSwapState _ _).
Qed.
End LoadFacts.

Section Refund.
Import State Spec Executor.

(** X7.  [refundSwap] refuses a stored swap that cannot be refunded at the
  height the explorer reports, or whose lock transaction id or HTLC
  script is missing or empty: it throws, and apart from the height
  reply that was used the world is as before: nothing is signed,
  broadcast, stored or reported. *)
Theorem refundSwap_refuses (swapId : string)
  (st : SwapState) (h : Z) (rest : list Z) (w : World) :
(loadSwapState swapId w).1 = Ok (Some st) ->
heightReplies (replies w) = h :: rest ->
canRefund st h = false
\/ falsy (btcLockTxId st) = true \/ falsy (htlcScript st) = true ->
exists msg w',
  refundSwap swapId w = (Throw (JsError msg), w')
  /\ msg = (if canRefund st h
            then "Missing lock transaction data"
            else "Cannot refund: timelock not expired or swap already completed")
  /\ localStorage w' = localStorage w
  /\ trace w' = trace w
  /\ heightReplies (replies w') = rest.
Proof.
intros Hl Hh Hc. unfold refundSwap.
unfold bind at 1. rewrite LoadFacts.loadSwapState_run, Hl.
unfold bind at 1, getCurrentBlockHeight.
unfold bind at 1, next. unfold bind at 1, getReplies. rewrite Hh.
cbn [bind setReplies ret heightReplies].
destruct (canRefund st h) eqn:E; cbn [negb].
- destruct Hc as [?|Hc]; [done|].
  assert (falsy (btcLockTxId st) || falsy (htlcScript st) = true) as ->.
  { apply orb_true_iff. tauto. }
  eexists _, _. split; [reflexivity|]. done.
- eexists _, _. split; [reflexivity|]. done.
Qed.
End Refund.

Lemma refundSwap_refuses_witness :
  exists msg w',
    Executor.refundSwap "swap_loyw3v28_20212223"
      (Spec.saved (Fixtures.stateIn State.BTC_REDEEMED)
         (Fixtures.world [])) = (Throw (JsError msg), w')
    /\ trace w' = trace (Spec.saved (Fixtures.stateIn State.BTC_REDEEMED)
                           (Fixtures.world [])).
Proof.
  destruct (refundSwap_refuses "swap_loyw3v28_20212223"
              (Fixtures.stateIn State.BTC_REDEEMED) 800000 []
              (Spec.saved (Fixtures.stateIn State.BTC_REDEEMED)
                 (Fixtures.world [])))
    as (msg & w' & H & _ & _ & Ht & _).
  - vm_compute. reflexivity.
  - reflexivity.
  - left. vm_compute. reflexivity.
  - exists msg, w'. split; [exact H|exact Ht].
Defined.

Section Confirmations.
Import State Spec Executor.

(** X8.  [waitForBtcConfirmations] with a lock transaction id and a
  required number of confirmations that is zero or less returns the state
  it was given at once: the loop body never runs, so the explorer is not
  asked, nothing is saved or reported, and the swap does not enter
  BTC_LOCK_TX_CONFIRMED. *)
Theorem waitForBtcConfirmations_none_required (fuel : nat) (st : SwapState)
  (w : World) :
falsy (btcLockTxId st) = false ->
minBtcLockConfirmations st <= 0 ->
waitForBtcConfirmations fuel st w = (Ok st, w).
Proof.
intros Hid Hreq. unfold waitForBtcConfirmations. rewrite Hid.
assert ((0 <? minBtcLockConfirmations st) = false) as E
  by (apply Z.ltb_ge; lia).
destruct fuel; cbn [waitForBtcConfirmations_loop]; by rewrite E.
Qed.

(** X9.  When the first answer of the explorer already shows the required
  number of confirmations, [waitForBtcConfirmations] moves the swap to
  BTC_LOCK_TX_CONFIRMED, with the number of confirmations as the detail
  of the history entry, saves that snapshot and returns it; the clock
  has not moved. *)
Theorem waitForBtcConfirmations_first_poll (fuel : nat) (st : SwapState)
  (n : Z) (rest : list Z) (w : World) :
falsy (btcLockTxId st) = false ->
0 < minBtcLockConfirmations st <= n ->
confirmationReplies (replies w) = n :: rest ->
storable st w ->
exists st' w',
  waitForBtcConfirmations (S fuel) st w = (Ok st', w')
  /\ phase st' = BTC_LOCK_TX_CONFIRMED
  /\ phaseHistory st'
     = phaseHistory st
         ++ [mkPhaseEntry BTC_LOCK_TX_CONFIRMED (clock w)
               (Some (Num.decimal n +:+ " confirmations"))]
  /\ id st' = id st
  /\ clock w' = clock w
  /\ confirmationReplies (replies w') = rest
  /\ (window w = true ->
      localStorage w' !! recordKey (id st) = Some (recordJson st')).
Proof.
intros Hid [Hpos Hreq] Hrep Hst. unfold waitForBtcConfirmations. rewrite Hid.
cbn [waitForBtcConfirmations_loop].
assert ((0 <? minBtcLockConfirmations st) = true) as -> by (apply Z.ltb_lt; lia).
set (w1 := mkWorld (clock w) (window w) (localStorage w) (randomSource w)
             (randomPos w) (xmrAddressValid w)
             (mkReplies (keysReplies (replies w)) (signRefundReplies (replies w))
                (initiateSwapReplies (replies w)) (transferProofReplies (replies w))
                (sendSignatureReplies (replies w)) (broadcastReplies (replies w))
                rest (heightReplies (replies w)) (spendReplies (replies w)))
             (trace w)).
assert (getTransactionInfo (default EmptyString (btcLockTxId st)) w = (Ok n, w1))
  as Hget.
{ unfold getTransactionInfo, next, bind, getReplies, setReplies, ret.
  rewrite Hrep. reflexivity. }
rewrite (MonadFacts.bind_ok _ _ _ _ _ Hget).
assert ((minBtcLockConfirmations st <=? n) = true) as -> by (apply Z.leb_le; lia).
destruct (StateFacts.transitionPhase_run st BTC_LOCK_TX_CONFIRMED
            (Some (Num.decimal n +:+ " confirmations")) w1)
  as (s1 & Hs1 & Hp1 & Hh1 & _ & Hi1 & _).
rewrite (MonadFacts.bind_ok _ _ _ _ _ Hs1).
assert (storable s1 w1) as Hst1.
{ destruct Hst as [?|[? ?]]; [by left|right]. split; [done|]. by rewrite Hi1. }
rewrite (MonadFacts.bind_ok _ _ _ _ _ (SaveFacts.saveSwapState_ok _ _ Hst1)).
assert (notifyPhaseChange s1 (afterSave s1 w1)
        = (Ok tt, notified s1 (afterSave s1 w1))) as Hn by done.
rewrite (MonadFacts.bind_ok _ _ _ _ _ Hn).
exists s1, (notified s1 (afterSave s1 w1)). split; [reflexivity|].
destruct (SaveFacts.afterSave_fields s1 w1) as (Hc & Hw & Hr & _).
split; [done|]. split; [done|]. split; [done|].
split; [cbn [notified clock]; by rewrite Hc|].
split; [cbn [notified replies]; by rewrite Hr|].
intros Hwin. cbn [notified localStorage]. unfold afterSave.
change (window w1) with (window w). rewrite Hwin, <- Hi1.
apply SaveFacts.saved_record.
destruct Hst as [?|[? ?]]; [congruence|]. by rewrite Hi1.
Qed.
End Confirmations.

Lemma waitForBtcConfirmations_none_required_witness :
  Executor.waitForBtcConfirmations 0
    (State.applyUpdate (Fixtures.stateIn State.BTC_LOCK_TX_BROADCAST)
       (State.U_minBtcLockConfirmations 0))
    (Fixtures.world [])
  = (Ok (State.applyUpdate (Fixtures.stateIn State.BTC_LOCK_TX_BROADCAST)
           (State.U_minBtcLockConfirmations 0)),
     Fixtures.world []).
Proof.
  apply (waitForBtcConfirmations_none_required 0
           (State.applyUpdate (Fixtures.stateIn State.BTC_LOCK_TX_BROADCAST)
              (State.U_minBtcLockConfirmations 0))
           (Fixtures.world [])).
  - reflexivity.
  - vm_compute. discriminate.
Defined.

Lemma waitForBtcConfirmations_first_poll_witness :
  exists st' w',
    Executor.waitForBtcConfirmations 1
      (Fixtures.stateIn State.BTC_LOCK_TX_BROADCAST)
      (mkWorld 1700000000000 true ∅ Fixtures.counting 0 (fun _ _ => true)
         (mkReplies [] [] [] [] [] [] [3] [] []) [])
    = (Ok st', w')
    /\ State.phase st' = State.BTC_LOCK_TX_CONFIRMED.
Proof.
  destruct (waitForBtcConfirmations_first_poll 0
              (Fixtures.stateIn State.BTC_LOCK_TX_BROADCAST) 3 []
              (mkWorld 1700000000000 true ∅ Fixtures.counting 0 (fun _ _ => true)
                 (mkReplies [] [] [] [] [] [] [3] [] []) []))
    as (st' & w' & H & Hp & _).
  - reflexivity.
  - vm_compute. split; [reflexivity|discriminate].
  - reflexivity.
  - right. split; [exact I|discriminate].
  - exists st', w'. split; assumption.
Defined.

Module ListingFacts.
Import State Spec.

(** Loading the records of a list of ids changes nothing; the answers
    come in the order of the ids. *)
Lemma forEach_loads (ToString : JS.json -> string) (w : World)
    (items : list JS.json) (loaded : list (option SwapState)) :
  Forall2 (fun item o => (loadSwapState (idText ToString item) w).1 = Ok o)
    items loaded ->
  forEach (fun item => loadSwapState (idText ToString item)) items w
  = (Ok loaded, w).
Proof.
  induction 1 as [|item o items loaded Ho _ IH]; [reflexivity|].
  cbn [forEach]. unfold bind at 1.
  rewrite LoadFacts.loadSwapState_run, Ho.
  unfold bind at 1. rewrite IH. reflexivity.
Qed.

Lemma insertNewestFirst_perm (s : SwapState) (l : list SwapState) :
  insertNewestFirst s l ≡ₚ s :: l.
Proof.
  induction l as [|x l IH]; [reflexivity|].
  cbn [insertNewestFirst]. destruct (createdAt x <=? createdAt s); [reflexivity|].
  rewrite IH. apply Permutation_swap.
Qed.

Lemma sortNewestFirst_perm (l : list SwapState) : sortNewestFirst l ≡ₚ l.
Proof.
  induction l as [|x l IH]; [reflexivity|].
  unfold sortNewestFirst in *. cbn [foldr].
  by rewrite insertNewestFirst_perm, IH.
Qed.

Lemma insertNewestFirst_sorted (s : SwapState) (l : list SwapState) :
  StronglySorted newerFirst l -> StronglySorted newerFirst (insertNewestFirst s l).
Proof.
  induction 1 as [|x l Hs IH Hx]; cbn [insertNewestFirst].
  - repeat constructor.
  - destruct (createdAt x <=? createdAt s) eqn:E.
    + apply Z.leb_le in E. constructor; [by constructor|].
      constructor; [exact E|].
      eapply Forall_impl; [exact Hx|]. unfold newerFirst. intros y Hy. lia.
    + apply Z.leb_gt in E. constructor; [exact IH|].
      rewrite insertNewestFirst_perm. constructor; [|exact Hx].
      unfold newerFirst. lia.
Qed.

Lemma sortNewestFirst_sorted (l : list SwapState) :
  StronglySorted newerFirst (sortNewestFirst l).
Proof.
  induction l as [|x l IH]; [constructor|].
  unfold sortNewestFirst in *. cbn [foldr]. by apply insertNewestFirst_sorted.
Qed.

Lemma filter_sorted (f : SwapState -> bool) (l : list SwapState) :
  StronglySorted newerFirst l -> StronglySorted newerFirst (List.filter f l).
Proof.
  induction 1 as [|x l Hs IH Hx]; cbn [List.filter]; [constructor|].
  destruct (f x); [|exact IH].
  constructor; [exact IH|].
  apply Forall_forall. intros y Hy.
  apply list_elem_of_In, filter_In in Hy as [Hy _].
  rewrite Forall_forall in Hx. by apply Hx, list_elem_of_In.
Qed.

(** The test of [getActiveSwaps], as a proposition. *)
Lemma filter_pending (l : list SwapState) :
  List.filter (fun swap => negb (isTerminalPhase (phase swap))) l
  = filter (fun st => phase st <> COMPLETED /\ phase st <> REFUNDED
                      /\ phase st <> FAILED) l.
Proof.
  induction l as [|x l IH]; [reflexivity|].
  cbn [List.filter]. rewrite filter_cons, IH.
  destruct (phase x) eqn:E; cbn [isTerminalPhase negb];
    (destruct (decide _) as [H|H]; [try reflexivity; by destruct H as (? & ? & ?)
                                    |try reflexivity; exfalso; apply H; by repeat split]).
Qed.

Lemma getAllSwapStates_run (ToString : JS.json -> string) (w : World)
    (items : list JS.json) (loaded : list (option SwapState)) :
  window w = true ->
  localStorage w !! SWAP_LIST_KEY = Some (JS.JArray items) ->
  Forall2 (fun item o => (loadSwapState (idText ToString item) w).1 = Ok o)
    items loaded ->
  getAllSwapStates ToString w
  = (Ok (sortNewestFirst (omap (fun state => state) loaded)), w).
Proof.
  intros Hw Hl Hload.
  unfold getAllSwapStates, getSwapIdList, bind, hasWindow, localStorage_getItem, ret.
  cbv beta. rewrite Hw. cbn [negb]. cbv beta iota.
  rewrite Hw. cbn [negb]. cbv beta iota. rewrite Hl. cbv beta iota.
  by rewrite (forEach_loads ToString w items loaded Hload).
Qed.

Lemma getAllSwapStates_none (ToString : JS.json -> string) (w : World) :
  window w = false \/ localStorage w !! SWAP_LIST_KEY = None ->
  getAllSwapStates ToString w = (Ok [], w).
Proof.
  intros Hno.
  unfold getAllSwapStates, getSwapIdList, bind, hasWindow, localStorage_getItem, ret.
  cbv beta. destruct (window w) eqn:Hw; cbn [negb]; cbv beta iota; [|reflexivity].
  destruct Hno as [Hno|Hl]; [done|].
  rewrite Hw. cbn [negb]. cbv beta iota. by rewrite Hl.
Qed.
End ListingFacts.

Section Listings.
Import State Spec.

(** X10.  [getActiveSwaps] and [getPendingSwaps] are the same function: in
  every world, and whatever the stored list holds, both give the same
  result and leave the same world.  Outside a browser, and in a browser
  that has no stored list, the result is the empty list.  In a browser
  whose stored list is an array of ids each of which [loadSwapState]
  answers, the result is made of the records found, with those in
  COMPLETED, REFUNDED and FAILED left out and no other, each as many
  times as its id is listed, the newer before the older; the storage is
  not touched. *)
Theorem getPendingSwaps_is_getActiveSwaps (ToString : JS.json -> string)
  (w : World) :
getPendingSwaps ToString w = getActiveSwaps ToString w
/\ (window w = false \/ localStorage w !! SWAP_LIST_KEY = None ->
    getActiveSwaps ToString w = (Ok [], w))
/\ (forall (items : list JS.json) (loaded : list (option SwapState)),
      window w = true ->
      localStorage w !! SWAP_LIST_KEY = Some (JS.JArray items) ->
      Forall2 (fun item o => (loadSwapState (idText ToString item) w).1 = Ok o)
        items loaded ->
      exists l,
        getActiveSwaps ToString w = (Ok l, w)
        /\ l ≡ₚ filter (fun st => phase st <> COMPLETED /\ phase st <> REFUNDED
                                  /\ phase st <> FAILED)
                  (omap (fun o => o) loaded)
        /\ StronglySorted newerFirst l).
Proof.
split; [|split].
- unfold getPendingSwaps, getActiveSwaps, bind.
  destruct (getAllSwapStates ToString w) as [[all|e] w']; [|reflexivity].
  unfold ret. do 2 f_equal.
  induction all as [|s all IH]; [reflexivity|].
  cbn [List.filter]. rewrite IH.
  by destruct (phase s).
- intros Hno. unfold getActiveSwaps, bind.
  by rewrite (ListingFacts.getAllSwapStates_none ToString w Hno).
- intros items loaded Hw Hl Hload.
  eexists. split; [|split].
  + unfold getActiveSwaps, bind.
    rewrite (ListingFacts.getAllSwapStates_run ToString w items loaded Hw Hl Hload).
    reflexivity.
  + rewrite ListingFacts.filter_pending.
    by rewrite ListingFacts.sortNewestFirst_perm.
  + apply ListingFacts.filter_sorted, ListingFacts.sortNewestFirst_sorted.
Qed.

Lemma getPendingSwaps_is_getActiveSwaps_witness :
exists l,
  State.getActiveSwaps (fun _ => "[object Object]")
    (Spec.saved (Fixtures.stateIn State.XMR_LOCK_TX_SEEN) (Fixtures.world []))
  = (Ok l, Spec.saved (Fixtures.stateIn State.XMR_LOCK_TX_SEEN) (Fixtures.world []))
  /\ l ≡ₚ filter (fun st => State.phase st <> State.COMPLETED
                            /\ State.phase st <> State.REFUNDED
                            /\ State.phase st <> State.FAILED)
            (omap (fun o => o) [Some (Fixtures.stateIn State.XMR_LOCK_TX_SEEN)])
  /\ StronglySorted Spec.newerFirst l.
Proof.
refine (proj2 (proj2 (getPendingSwaps_is_getActiveSwaps (fun _ => "[object Object]")
          (Spec.saved (Fixtures.stateIn State.XMR_LOCK_TX_SEEN) (Fixtures.world []))))
          [JS.JString "swap_loyw3v28_20212223"]
          [Some (Fixtures.stateIn State.XMR_LOCK_TX_SEEN)] _ _ _).
- reflexivity.
- vm_compute. reflexivity.
- constructor; [|constructor]. vm_compute. reflexivity.
Defined.
End Listings.

Section Addresses.
Import Transactions.

(** X11.  The address of an HTLC script is accepted by
  [isValidBitcoinAddress] on the network it was made for and rejected on
  the other one, whatever the script: it starts with bc1q on mainnet and
  with tb1q on testnet. *)
Theorem htlcScriptToAddress_valid (script : bytes) :
SwapProvider.isValidBitcoinAddress (htlcScriptToAddress script MAINNET) true = true
/\ SwapProvider.isValidBitcoinAddress (htlcScriptToAddress script TESTNET) false = true
/\ SwapProvider.isValidBitcoinAddress (htlcScriptToAddress script MAINNET) false = false
/\ SwapProvider.isValidBitcoinAddress (htlcScriptToAddress script TESTNET) true = false.
Proof.
unfold htlcScriptToAddress, Bech32.segwitV0, Bech32.encode.
generalize (Bech32.toWords 0 0 (byte_to_Z <$> sha256 script)). intros ws.
assert (forall hrp, string_of_list_ascii
          (Bech32.char <$> ((0 :: ws) ++ Bech32.createChecksum hrp (0 :: ws)))
        = String "q" (string_of_list_ascii
            (Bech32.char <$> (ws ++ Bech32.createChecksum hrp (0 :: ws))))) as E
  by reflexivity.
cbn [bech32 MAINNET TESTNET]. rewrite !E.
generalize (string_of_list_ascii
              (Bech32.char <$> ws ++ Bech32.createChecksum "bc" (0 :: ws))).
generalize (string_of_list_ascii
              (Bech32.char <$> ws ++ Bech32.createChecksum "tb" (0 :: ws))).
intros t1 t2.
split; [by destruct t2|]. split; [by destruct t1|]. split; reflexivity.
Qed.
End Addresses.

Module FormatFacts.
Import MoneroAddress.

Lemma substring_length (s : string) (n m : nat) :
  (n + m <= String.length s)%nat ->
  String.length (String.substring n m s) = m.
Proof.
  revert n m. induction s as [|c s IH]; intros n m H; simpl in *.
  - destruct n, m; simpl; lia.
  - destruct n; simpl.
    + destruct m; simpl; [done|]. rewrite IH; [done|lia].
    + apply IH. lia.
Qed.

Lemma substring_all (s : string) :
  String.substring 0 (String.length s) s = s.
Proof. induction s as [|c s IH]; simpl; [done|]. by rewrite IH. Qed.

Lemma append_length (s t : string) :
  String.length (s +:+ t) = (String.length s + String.length t)%nat.
Proof. induction s as [|c s IH]; simpl; [done|]. by rewrite IH. Qed.
End FormatFacts.

Section Format.
Import MoneroAddress.

(** X12.  For an address longer than [startChars + endChars + 3],
  [formatMoneroAddress] gives the first [startChars] characters, three
  dots and the last [endChars] characters, [startChars + endChars + 3]
  characters in all, provided [endChars] is positive.  With
  [endChars = 0] the tail is [address.slice(-0)], the whole address: the
  result is then longer than the address it abbreviates. *)
Theorem formatMoneroAddress_length (address : string) (startChars endChars : Z) :
0 <= startChars -> 0 <= endChars ->
startChars + endChars + 3 < Z.of_nat (String.length address) ->
Z.of_nat (String.length (formatMoneroAddress address startChars endChars))
= startChars + 3
  + (if endChars =? 0 then Z.of_nat (String.length address) else endChars).
Proof.
intros Hs He Hlen. unfold formatMoneroAddress.
assert ((Z.of_nat (String.length address) <=? startChars + endChars + 3) = false)
  as -> by (apply Z.leb_gt; lia).
rewrite !FormatFacts.append_length. unfold sliceFrom, slice.
assert ((startChars <? 0) = false) as -> by (apply Z.ltb_ge; lia).
assert ((0 <? 0) = false) as -> by reflexivity.
assert ((Z.of_nat (String.length address) <? 0) = false) as ->
  by (apply Z.ltb_ge; lia).
rewrite !Z.min_id.
rewrite (Z.min_l 0) by lia. rewrite (Z.min_l startChars) by lia.
rewrite FormatFacts.substring_length by (simpl; lia).
destruct (endChars =? 0) eqn:E.
- apply Z.eqb_eq in E. subst endChars. change (- 0) with 0.
  change (0 <? 0) with false. cbv iota.
  rewrite (Z.min_l 0) by lia.
  rewrite FormatFacts.substring_length by (simpl; lia).
  cbn [String.length]. lia.
- apply Z.eqb_neq in E.
  assert ((- endChars <? 0) = true) as -> by (apply Z.ltb_lt; lia).
  rewrite FormatFacts.substring_length by lia.
  cbn [String.length]. lia.
Qed.
End Format.

Lemma formatMoneroAddress_length_witness :
  Z.of_nat (String.length
              (MoneroAddress.formatMoneroAddress "44AFFq5kSiGBoZ4NMDwYtN18obc8AemS33DBLWs3H7otXft3XjrpDtQGv7SqSsaBYBb98uNbr2VBBEt7f2wfn3RVGQBEP3A" 8 0))
  = 8 + 3 + 95.
Proof.
  apply (formatMoneroAddress_length
           "44AFFq5kSiGBoZ4NMDwYtN18obc8AemS33DBLWs3H7otXft3XjrpDtQGv7SqSsaBYBb98uNbr2VBBEt7f2wfn3RVGQBEP3A" 8 0).
  - lia.
  - lia.
  - vm_compute. reflexivity.
Defined.

Section Conservation.
Import Transactions Spec.

(** X13.  In a lock transaction that [createLockTransaction] built, the
  HTLC output comes first and, when there is a change output, the inputs
  are worth exactly the outputs and the estimated fee.  Without a change
  output the whole remainder [inputSum - amount] is left to the miners:
  the estimated fee and up to 546 satoshis more. *)
Theorem createLockTransaction_value (lib : SignerLib) (p : LockTxParams)
  (tx : Transaction) :
createLockTransaction lib p = Ok tx ->
exists fee,
  estimateFee (length (inputs p)) (feeRate p) = Ok fee
  /\ tx_outputs tx !! 0%nat = Some (htlcOutput p)
  /\ (length (tx_outputs tx) = 2%nat ->
      546 < inputSum (inputs p) - amount p - fee
      /\ inputSum (inputs p) = outputSum tx + fee)
  /\ (length (tx_outputs tx) <> 2%nat ->
      length (tx_outputs tx) = 1%nat
      /\ outputSum tx = amount p
      /\ inputSum (inputs p) - outputSum tx <= fee + 546).
Proof.
intros H. destruct (LockFacts.createLockTransaction_inv lib p tx H)
  as (fee & Hfee & _ & Hout).
exists fee. split; [done|]. unfold outputSum. rewrite Hout.
destruct (546 <? inputSum (inputs p) - amount p - fee) eqn:E.
- apply Z.ltb_lt in E. split; [done|]. split.
  + intros _. split; [done|]. simpl. lia.
  + intros Hn. by destruct Hn.
- apply Z.ltb_ge in E. split; [done|]. split.
  + intros Hn. discriminate Hn.
  + intros _. split; [done|]. simpl. split; lia.
Qed.
End Conservation.

Lemma createLockTransaction_value_witness :
  exists tx fee,
    Transactions.createLockTransaction Fixtures.signer (Fixtures.lockParams 2000000)
    = Ok tx
    /\ Transactions.estimateFee (length (Transactions.inputs (Fixtures.lockParams 2000000)))
         (Transactions.feeRate (Fixtures.lockParams 2000000)) = Ok fee
    /\ Transactions.tx_outputs tx !! 0%nat
       = Some (Spec.htlcOutput (Fixtures.lockParams 2000000)).
Proof.
  destruct (Transactions.createLockTransaction Fixtures.signer
              (Fixtures.lockParams 2000000)) as [tx|e] eqn:E.
  - destruct (createLockTransaction_value Fixtures.signer
                (Fixtures.lockParams 2000000) tx E) as (fee & Hf & H0 & _).
    exists tx, fee. split; [reflexivity|]. split; assumption.
  - exfalso. vm_compute in E. discriminate E.
Defined.

Section NotANumber.
Import SwapProvider.

(** X14.  [SwapProviderService.getQuote] lets through an amount that does
  not parse as a number: both comparisons with NaN are false, so neither
  limit error is raised and a quote is returned, whatever the provider's
  limits are. *)
Theorem getQuote_not_a_number (parseFloat : string -> spec_float)
  (toFixed : spec_float -> Z -> string) (sp : SwapProvider) (amount : string)
  (w : World) :
parseFloat amount = S754_nan ->
exists q,
  getQuote parseFloat toFixed sp amount w = (Ok q, w)
  /\ provider q = sp
  /\ btcAmount q = toFixed S754_nan 8
  /\ xmrAmount q = toFixed S754_nan 12
  /\ fee q = toFixed S754_nan 8
  /\ expiresAt q = clock w + 300000.
Proof.
intros Hnan. unfold getQuote, lt, div, mul. rewrite Hnan.
assert (forall y, SFltb S754_nan y = false) as E1 by reflexivity.
assert (forall y, SFltb y S754_nan = false) as E2 by (by intros []).
rewrite E1, E2.
assert (forall y, SFdiv 53 1024 S754_nan y = S754_nan) as -> by reflexivity.
eexists. split; [reflexivity|]. repeat split.
Qed.
End NotANumber.

Lemma getQuote_not_a_number_witness :
  exists q,
    SwapProvider.getQuote (fun _ => S754_nan) (fun _ _ => "NaN")
      (SwapProvider.mkSwapProvider "peer" "/onion3/x:9939" false "0.0001" "0.1"
         "0.0065" (S754_finite false 199 (-1)) "1 year")
      "abc" (Fixtures.world [])
    = (Ok q, Fixtures.world []).
Proof.
  destruct (getQuote_not_a_number (fun _ => S754_nan) (fun _ _ => "NaN")
              (SwapProvider.mkSwapProvider "peer" "/onion3/x:9939" false "0.0001"
                 "0.1" "0.0065" (S754_finite false 199 (-1)) "1 year")
              "abc" (Fixtures.world []) eq_refl) as (q & H & _).
  exists q. exact H.
Defined.

Module DeleteFacts.
Import State Spec.

Lemma existsb_filter_out (swapId : string) (items : list JS.json) :
  existsb (isId swapId)
    (filter (fun item => isId swapId item = false) items) = false.
Proof.
  induction items as [|x items IH]; [reflexivity|].
  rewrite filter_cons. case_decide as Hx; [|done].
  cbn [existsb]. by rewrite Hx, IH.
Qed.

Lemma isId_other (a b : string) (item : JS.json) :
  a <> b -> isId a item = true -> isId b item = false.
Proof.
  intros Hab. destruct item; try done. cbn [isId]. intros Ha.
  apply bool_decide_eq_true_1 in Ha. subst.
  by apply bool_decide_eq_false_2.
Qed.

Lemma existsb_filter_other (swapId other : string) (items : list JS.json) :
  other <> swapId ->
  existsb (isId other)
    (filter (fun item => isId swapId item = false) items)
  = existsb (isId other) items.
Proof.
  intros Hne. induction items as [|x items IH]; [reflexivity|].
  rewrite filter_cons. case_decide as Hx; cbn [existsb].
  - by rewrite IH.
  - rewrite IH. apply not_false_is_true in Hx.
    by rewrite (isId_other swapId other x).
Qed.
End DeleteFacts.

Section Delete.
Import State Spec.

(** X15.  In a browser whose stored list is intact, [deleteSwapState] of an
  id other than the text list removes the record and the id: a load of
  the id then gives [null], the list no longer holds the id, every other
  id is in the list exactly if it was before, and no other key of the
  storage has changed. *)
Theorem deleteSwapState_forgets (swapId : string) (w : World) :
window w = true -> listIntact w -> swapId <> "list" ->
exists w',
  deleteSwapState swapId w = (Ok tt, w')
  /\ loadSwapState swapId w' = (Ok None, w')
  /\ existsb (isId swapId) (storedIds w') = false
  /\ (forall other, other <> swapId ->
        existsb (isId other) (storedIds w') = existsb (isId other) (storedIds w))
  /\ (forall key, key <> recordKey swapId -> key <> SWAP_LIST_KEY ->
        localStorage w' !! key = localStorage w !! key).
Proof.
intros Hw Hl Hid.
destruct w as [clk win ls rs rp xv rep tr]. simpl in Hw. subst win.
unfold deleteSwapState, getSwapIdList, bind, hasWindow,
  localStorage_removeItem, localStorage_getItem, localStorage_setItem.
cbn [negb window localStorage]. fold (recordKey swapId).
pose proof (StorageFacts.recordKey_not_list swapId Hid) as Hk.
rewrite lookup_delete_ne by done.
unfold listIntact in Hl. cbn [localStorage] in Hl.
unfold storedIds. cbn [localStorage].
assert (exists items,
          match ls !! SWAP_LIST_KEY with
          | Some (JS.JArray l) => l
          | _ => []
          end = items
          /\ (ls !! SWAP_LIST_KEY = Some (JS.JArray items)
              \/ (ls !! SWAP_LIST_KEY = None /\ items = []))) as (items & Ei & Hcase).
{ destruct (ls !! SWAP_LIST_KEY) as [[| | | |l|]|]; try done.
  - exists l. split; [done|by left].
  - exists []. split; [done|by right]. }
rewrite Ei.
set (kept := filter (fun item => isId swapId item = false) items).
exists (mkWorld clk true
          (<[SWAP_LIST_KEY := JS.JArray kept]> (delete (recordKey swapId) ls))
          rs rp xv rep
          ((tr ++ [EvRemoveItem (recordKey swapId)])
             ++ [EvSetItem SWAP_LIST_KEY (JS.JArray kept)])).
split.
{ destruct Hcase as [E|[E ->]]; rewrite E; reflexivity. }
split.
{ unfold loadSwapState, bind, hasWindow, localStorage_getItem.
  cbn [negb window localStorage]. fold (recordKey swapId).
  rewrite lookup_insert_ne by done. by rewrite lookup_delete_eq. }
cbn [localStorage]. rewrite lookup_insert_eq.
split; [apply DeleteFacts.existsb_filter_out|].
split; [intros other Ho; by apply DeleteFacts.existsb_filter_other|].
intros key H1 H2. rewrite lookup_insert_ne by done.
by rewrite lookup_delete_ne.
Qed.

(** X16.  The key of a record is the prefix followed by the id, and the
  key of the list is the prefix followed by the text list: a swap whose
  id is that text is saved over the list of ids.  In a browser
  [saveSwapState] then fails on [list.includes], the record standing
  where the list was. *)
Theorem saveSwapState_list_key (st : SwapState) (w : World) :
window w = true -> id st = "list" ->
exists w',
  saveSwapState st w
  = (Throw (JsError "list.includes is not a function"), w')
  /\ localStorage w' !! SWAP_LIST_KEY = Some (recordJson st)
  /\ storedIds w' = [].
Proof.
intros Hw Hid.
destruct w as [clk win ls rs rp xv rep tr]. simpl in Hw. subst win.
unfold saveSwapState, getSwapIdList, bind, hasWindow, lift,
  localStorage_setItem, localStorage_getItem.
rewrite JsonFacts.serializeSwapState_ok. cbn [negb window localStorage].
rewrite Hid. change (STORAGE_KEY_PREFIX +:+ "list") with SWAP_LIST_KEY.
rewrite lookup_insert_eq. unfold storedIds. cbn [localStorage].
rewrite RecordFacts.recordJson_printed.
eexists. split; [reflexivity|]. cbn [localStorage].
by rewrite lookup_insert_eq.
Qed.
End Delete.

Lemma deleteSwapState_forgets_witness :
  exists w',
    State.deleteSwapState "swap_loyw3v28_20212223"
      (Spec.saved (Fixtures.stateIn State.COMPLETED) (Fixtures.world []))
    = (Ok tt, w')
    /\ State.loadSwapState "swap_loyw3v28_20212223" w' = (Ok None, w').
Proof.
  destruct (deleteSwapState_forgets "swap_loyw3v28_20212223"
              (Spec.saved (Fixtures.stateIn State.COMPLETED) (Fixtures.world [])))
    as (w' & H1 & H2 & _).
  - reflexivity.
  - vm_compute. exact I.
  - discriminate.
  - exists w'. split; assumption.
Defined.

Lemma saveSwapState_list_key_witness :
  exists w',
    State.saveSwapState
      (State.mkSwapState "list" "peer" 1700000000000 1700000000000
         State.SWAP_INITIATED
         [State.mkPhaseEntry State.SWAP_INITIATED 1700000000000 None]
         1000000 1600000000000 (S754_finite false 1600000 0) 1 2
         800000 800144 0 "02" "03" "02" "4xmr" None "aa" None
         None None None None None None None None None None 0 mainnet)
      (Fixtures.world [])
    = (Throw (JsError "list.includes is not a function"), w').
Proof.
  destruct (saveSwapState_list_key
              (State.mkSwapState "list" "peer" 1700000000000 1700000000000
         State.SWAP_INITIATED
         [State.mkPhaseEntry State.SWAP_INITIATED 1700000000000 None]
         1000000 1600000000000 (S754_finite false 1600000 0) 1 2
         800000 800144 0 "02" "03" "02" "4xmr" None "aa" None
         None None None None None None None None None None 0 mainnet)
              (Fixtures.world [])) as (w' & H & _).
  - reflexivity.
  - reflexivity.
  - exists w'. exact H.
Defined.

Module DecimalFacts.
Import JS Spec.

Lemma digit_cases (d : Z) :
  0 <= d < 10 ->
  d = 0 \/ d = 1 \/ d = 2 \/ d = 3 \/ d = 4 \/ d = 5 \/ d = 6 \/ d = 7
  \/ d = 8 \/ d = 9.
Proof. lia. Qed.

Lemma digit_value (d : Z) :
  0 <= d < 10 -> digitValue 10 (Num.digit d) = Some d /\ isWhite (Num.digit d) = false.
Proof.
  intros H. destruct (digit_cases d H) as [->|[->|[->|[->|[->|[->|[->|[->|[->| ->]]]]]]]]];
    split; reflexivity.
Qed.

Lemma digits_allDigits (fuel : nat) :
  forall (n : Z) (acc : string),
    0 <= n -> (fuel = O -> n = 0) -> allDigits acc ->
    allDigits (Num.digits fuel 10 n acc).
Proof.
  induction fuel as [|fuel IH]; intros n acc Hn H0 Hacc; [done|].
  cbn [Num.digits]. destruct (n <? 10) eqn:E.
  - apply Z.ltb_lt in E. split; [|done]. exists n. split; [lia|done].
  - apply Z.ltb_ge in E. destruct fuel as [|fuel'].
    + cbn [Num.digits]. split; [|done]. exists (n mod 10).
      split; [apply Z.mod_pos_bound; lia|done].
    + apply IH.
      * apply Z.div_pos; lia.
      * discriminate.
      * split; [|done]. exists (n mod 10).
        split; [apply Z.mod_pos_bound; lia|done].
Qed.

Lemma digits_parse (fuel : nat) :
  forall (n : Z) (acc : string),
    0 <= n < 10 ^ Z.of_nat fuel ->
    exists k, 0 <= k /\ forall a0,
      parseDigits 10 (Num.digits fuel 10 n acc) a0
      = parseDigits 10 acc (a0 * 10 ^ k + n).
Proof.
  induction fuel as [|fuel IH]; intros n acc Hn.
  - exists 0. split; [done|]. intros a0. cbn [Num.digits].
    change (10 ^ Z.of_nat 0) with 1 in Hn. f_equal. lia.
  - cbn [Num.digits]. destruct (n <? 10) eqn:E.
    + apply Z.ltb_lt in E. exists 1. split; [lia|]. intros a0.
      cbn [parseDigits].
      destruct (digit_value n) as [-> _]; [lia|]. f_equal.
    + apply Z.ltb_ge in E.
      destruct (IH (n / 10) (String (Num.digit (n mod 10)) acc)) as (k & Hk & Hp).
      { split; [apply Z.div_pos; lia|].
        apply Z.div_lt_upper_bound; [lia|].
        rewrite Nat2Z.inj_succ, Z.pow_succ_r in Hn by lia. lia. }
      exists (k + 1). split; [lia|]. intros a0. rewrite Hp.
      cbn [parseDigits].
      destruct (digit_value (n mod 10)) as [-> _];
        [apply Z.mod_pos_bound; lia|].
      f_equal. rewrite Z.pow_add_r by lia.
      pose proof (Z.div_mod n 10). lia.
Qed.

Lemma enough_fuel (n : Z) :
  0 <= n -> n < 10 ^ Z.of_nat (S (Z.to_nat (Z.log2 n))).
Proof.
  intros Hn. rewrite Nat2Z.inj_succ, Z2Nat.id by apply Z.log2_nonneg.
  destruct (Z.eq_dec n 0) as [->|Hne]; [reflexivity|].
  pose proof (Z.log2_spec n ltac:(lia)) as [_ Hlt].
  eapply Z.lt_le_trans; [exact Hlt|].
  apply Z.pow_le_mono_l. lia.
Qed.

(** The decimal text of a natural number: digits only, at least one, and
    read back as the number. *)
Lemma natural_text (n : Z) :
  0 <= n ->
  let t := Num.digits (S (Z.to_nat (Z.log2 n))) 10 n EmptyString in
  allDigits t /\ t <> EmptyString /\ parseDigits 10 t 0 = Some n.
Proof.
  intros Hn t. split; [|split].
  - apply digits_allDigits; done.
  - subst t. cbn [Num.digits]. destruct (n <? 10); [done|].
    generalize (n / 10) (Num.digit (n mod 10)).
    generalize (Z.to_nat (Z.log2 n)). intros f.
    assert (forall acc m, acc <> EmptyString -> Num.digits f 10 m acc <> EmptyString) as H.
    { induction f as [|f IH]; intros acc m Ha; cbn [Num.digits]; [done|].
      destruct (m <? 10); [done|]. by apply IH. }
    intros m c. by apply H.
  - destruct (digits_parse (S (Z.to_nat (Z.log2 n))) n EmptyString) as (k & _ & Hp).
    { split; [done|by apply enough_fuel]. }
    subst t. rewrite Hp. cbn [parseDigits]. f_equal.
Qed.

Lemma rev_app_rev_app (s : string) :
  forall t u, String.rev_app (String.rev_app s t) u = String.rev_app t (s +:+ u).
Proof.
  induction s as [|c s IH]; intros t u; [reflexivity|].
  cbn [String.rev_app]. rewrite IH. reflexivity.
Qed.

Lemma rev_rev (s : string) : String.rev (String.rev s) = s.
Proof.
  unfold String.rev. rewrite rev_app_rev_app. cbn [String.rev_app].
  induction s as [|c s IH]; [reflexivity|].
  change (String c s +:+ EmptyString) with (String c (s +:+ EmptyString)).
  by rewrite IH.
Qed.

Lemma noWhite_rev_app (s : string) :
  forall t, noWhite s -> noWhite t -> noWhite (String.rev_app s t).
Proof.
  induction s as [|c s IH]; intros t Hs Ht; [done|].
  destruct Hs as [Hc Hs]. cbn [String.rev_app]. apply IH; [done|]. by split.
Qed.

Lemma trimStart_noWhite (s : string) : noWhite s -> trimStart s = s.
Proof. destruct s as [|c s]; [done|]. intros [Hc _]. cbn [trimStart]. by rewrite Hc. Qed.

Lemma trim_noWhite (s : string) : noWhite s -> trim s = s.
Proof.
  intros H. unfold trim. rewrite (trimStart_noWhite s H).
  rewrite trimStart_noWhite by (by apply noWhite_rev_app).
  apply rev_rev.
Qed.

Lemma allDigits_noWhite (s : string) : allDigits s -> noWhite s.
Proof.
  induction s as [|c s IH]; [done|]. intros [(d & Hd & ->) Hs].
  split; [by destruct (digit_value d Hd)|by apply IH].
Qed.

Lemma digits_read (t : string) :
  allDigits t -> t <> EmptyString ->
  stringToBigInt t = parseDigits 10 t 0.
Proof.
  intros Hd Hne. unfold stringToBigInt.
  rewrite trim_noWhite by (by apply allDigits_noWhite).
  destruct t as [|c1 rest]; [done|].
  destruct Hd as [(d1 & Hd1 & ->) Hrest].
  destruct (digit_cases d1 Hd1) as [->|[->|[->|[->|[->|[->|[->|[->|[->| ->]]]]]]]]];
    try reflexivity.
  destruct rest as [|c2 rest']; [reflexivity|].
  destruct Hrest as [(d2 & Hd2 & ->) _].
  destruct (digit_cases d2 Hd2) as [->|[->|[->|[->|[->|[->|[->|[->|[->| ->]]]]]]]]];
    reflexivity.
Qed.

(** [BigInt(n.toString())] is [n]. *)
Lemma stringToBigInt_decimal (z : Z) :
  stringToBigInt (Num.decimal z) = Some z.
Proof.
  unfold Num.decimal, Num.toString. destruct (z <? 0) eqn:E.
  - apply Z.ltb_lt in E.
    destruct (natural_text (- z) ltac:(lia)) as (Hd & Hne & Hp).
    set (t := Num.digits _ 10 (- z) EmptyString) in *.
    unfold stringToBigInt.
    rewrite trim_noWhite
      by (split; [reflexivity|by apply allDigits_noWhite]).
    unfold parseNonEmpty. destruct t as [|c r]; [done|].
    rewrite Hp. cbn [fmap option_fmap option_map]. f_equal. lia.
  - apply Z.ltb_ge in E.
    destruct (natural_text z E) as (Hd & Hne & Hp).
    rewrite digits_read by done. exact Hp.
Qed.
End DecimalFacts.

Module RestoreFacts.
Import JS State Spec.

Lemma restored_str (s : string) : plainText s -> restored (VStr s).
Proof.
  intros H. split; [done|]. exists (JString s). split; [done|].
  intros name. cbn [internalize reviver]. unfold plainText in H. by rewrite H.
Qed.

Lemma restored_num (x : spec_float) : printable x -> restored (VNum x).
Proof.
  intros H. split; [done|]. exists (JNumber x). split.
  - by destruct x as [[]| | |].
  - done.
Qed.

Lemma restored_int (z : Z) : restored (VInt z).
Proof. apply restored_num. by destruct z. Qed.

Lemma restored_bigint (z : Z) : restored (VBigInt z).
Proof.
  split; [done|]. eexists. split; [reflexivity|]. intros name.
  cbn [internalize reviver].
  assert (startsWith ("bigint:" +:+ Num.decimal z) "bigint:" = true) as ->.
  { generalize (Num.decimal z). intros d. by destruct d. }
  assert (sliceFrom 7 ("bigint:" +:+ Num.decimal z) = Num.decimal z) as ->.
  { generalize (Num.decimal z). intros d. unfold sliceFrom.
    change (String.length ("bigint:" +:+ d)) with (7 + String.length d)%nat.
    replace (7 + String.length d - 7)%nat with (String.length d) by lia.
    change (substring 7 (String.length d) ("bigint:" +:+ d))
      with (substring 0 (String.length d) d).
    apply FormatFacts.substring_all. }
  unfold BigInt_of_string. by rewrite DecimalFacts.stringToBigInt_decimal.
Qed.

Lemma restored_arr (items : list jsval) :
  Forall restored items -> restored (VArr items).
Proof.
  intros H. split; [done|].
  exists (JArray (map (fun x => default JNull (jsonOf x)) items)).
  split; [done|]. intros name. cbn [internalize].
  match goal with
  | |- result_bind (?f O _) _ = _ =>
      assert (forall i, f i (map (fun x => default JNull (jsonOf x)) items)
                        = Ok items) as ->
  end; [|reflexivity].
  induction H as [|x items (_ & j & Hj & Hi) Hrest IH]; intros i; [reflexivity|].
  cbn [map]. rewrite Hj. cbn [default]. rewrite Hi. cbn [result_bind].
  rewrite IH. reflexivity.
Qed.

Lemma restored_obj (props : list (string * jsval)) :
  Forall (fun kv => restored kv.2) props -> restored (VObj props).
Proof.
  intros H. split; [done|].
  exists (JObject (omap (fun kv => match jsonOf (snd kv) with
                                   | Some j => Some (fst kv, j)
                                   | None => None
                                   end) props)).
  split; [reflexivity|].
  intros name. cbn [internalize].
  match goal with
  | |- result_bind (?f _) _ = _ =>
      assert (f (omap (fun kv => match jsonOf (snd kv) with
                                 | Some j => Some (fst kv, j)
                                 | None => None
                                 end) props) = Ok props) as ->
  end; [|reflexivity].
  induction H as [|[k v] props (Hu & j & Hj & Hi) Hrest IH]; [reflexivity|].
  cbn [omap list_omap fst snd] in *. rewrite Hj.
  change (list_omap ?f ?l) with (omap f l).
  rewrite Hi. cbn [result_bind]. rewrite IH. cbn [result_bind].
  by destruct v.
Qed.

(** The object made of the properties that have a value. *)
Lemma restored_fields (fields : list (string * option jsval)) :
  Forall (fun kv => forall v, kv.2 = Some v -> restored v) fields ->
  restored (VObj (omap (fun kv : string * option jsval => pair kv.1 <$> kv.2)
                    fields)).
Proof.
  intros H. apply restored_obj.
  induction H as [|[k o] fields Hk Hrest IH]; [constructor|].
  cbn [omap list_omap fst snd]. change (list_omap ?f ?l) with (omap f l).
  destruct o as [v|]; cbn [fmap option_fmap option_map]; [|done].
  constructor; [by apply Hk|done].
Qed.

Lemma plain_phaseName (p : SwapPhase) : plainText (phaseName p).
Proof. by destruct p. Qed.

Lemma restored_entry (e : PhaseEntry) :
  Forall plainText (textOf (details e)) -> restored (entryToJS e).
Proof.
  intros H. unfold entryToJS. apply restored_fields.
  repeat (apply Forall_cons; split); [| | |constructor]; cbn [snd]; intros v E.
  - injection E as <-. apply restored_str, plain_phaseName.
  - injection E as <-. apply restored_int.
  - destruct (details e) as [d|]; [|done]. injection E as <-.
    apply restored_str. by inversion H.
Qed.

Lemma restored_history (h : list PhaseEntry) :
  Forall plainText (omap details h) -> Forall restored (entryToJS <$> h).
Proof.
  induction h as [|e h IH]; intros H; [constructor|].
  cbn [omap list_omap fmap list_fmap] in *.
  change (list_omap ?f ?l) with (omap f l) in H.
  constructor.
  - apply restored_entry. destruct (details e); [|constructor].
    inversion H; subst. by repeat constructor.
  - apply IH. destruct (details e); [by inversion H|done].
Qed.
End RestoreFacts.

Module ReadFacts.
Import JS State Spec.

Lemma getProp_cons (k k' : string) (v : jsval) (l : list (string * jsval)) :
  getProp k (VObj ((k', v) :: l))
  = if bool_decide (k' = k) then v else getProp k (VObj l).
Proof.
  unfold getProp. cbn [list_find]. cbn [fst].
  case_decide as H.
  - apply bool_decide_unpack in H. subst. by rewrite bool_decide_eq_true_2.
  - rewrite bool_decide_eq_false_2.
    + by destruct (list_find _ l) as [[? [? ?]]|].
    + intros ->. apply H. by apply bool_decide_pack.
Qed.

Lemma getProp_absent (k : string) (fields : list (string * option jsval)) :
  k ∉ fields.*1 ->
  getProp k (VObj (omap (fun kv : string * option jsval => pair kv.1 <$> kv.2)
                     fields)) = VUndefined.
Proof.
  induction fields as [|[k' o] fields IH]; intros H; [reflexivity|].
  cbn [fmap list_fmap fst] in H. apply not_elem_of_cons in H as [Hk Hrest].
  cbn [omap list_omap fst snd]. change (list_omap ?f ?l) with (omap f l).
  destruct o as [v|]; cbn [fmap option_fmap option_map]; [|by apply IH].
  rewrite getProp_cons, bool_decide_eq_false_2 by done. by apply IH.
Qed.

Lemma getProp_fields (fields : list (string * option jsval)) :
  forall (i : nat) (k : string) (o : option jsval),
    fields !! i = Some (k, o) ->
    NoDup fields.*1 ->
    getProp k (VObj (omap (fun kv : string * option jsval => pair kv.1 <$> kv.2)
                       fields)) = default VUndefined o.
Proof.
  induction fields as [|[k' o'] fields IH]; intros i k o Hi Hnd; [done|].
  cbn [fmap list_fmap fst] in Hnd. apply NoDup_cons in Hnd as [Hk' Hnd].
  cbn [omap list_omap fst snd]. change (list_omap ?f ?l) with (omap f l).
  destruct i as [|i]; cbn [lookup list_lookup] in Hi.
  - injection Hi as -> ->.
    destruct o as [v|]; cbn [fmap option_fmap option_map default].
    + by rewrite getProp_cons, bool_decide_eq_true_2.
    + by apply getProp_absent.
  - assert (k' <> k) as Hne.
    { intros ->. apply Hk'. apply list_elem_of_fmap.
      exists (k, o). split; [done|]. by apply list_elem_of_lookup_2 in Hi. }
    destruct o' as [v'|]; cbn [fmap option_fmap option_map].
    + rewrite getProp_cons, bool_decide_eq_false_2 by done. by apply (IH i).
    + by apply (IH i).
Qed.

Lemma fields_nodup (st : SwapState) : NoDup (fieldsOf st).*1.
Proof.
  assert ((fieldsOf st).*1
          = ["id"; "peerId"; "createdAt"; "updatedAt"; "phase"; "phaseHistory";
             "btcAmount"; "xmrAmount"; "exchangeRate";
             "minBtcLockConfirmations"; "minXmrLockConfirmations";
             "btcCancelTimelock"; "btcPunishTimelock"; "xmrUnlockHeight";
             "userBtcDepositPubkey"; "userBtcRefundPubkey";
             "asbBtcRedeemPubkey"; "userXmrAddress"; "asbXmrViewKey";
             "secretHash"; "secret"; "btcLockTxId"; "btcLockTxVout";
             "btcLockTxHex"; "btcRedeemTxId"; "btcRefundTxId"; "htlcScript";
             "xmrLockTxId"; "xmrRedeemTxId"; "encryptedSignature";
             "lastError"; "errorCount"; "network"]) as -> by reflexivity.
  apply (bool_decide_unpack _). vm_compute. reflexivity.
Qed.

Lemma prop (st : SwapState) (i : nat) (k : string) (o : option jsval) :
  fieldsOf st !! i = Some (k, o) ->
  getProp k (toJS st) = default VUndefined o.
Proof.
  intros H. rewrite RecordFacts.toJS_fields.
  apply (getProp_fields _ i); [done|apply fields_nodup].
Qed.

Lemma asInt_VInt (z : Z) : asInt (VInt z) = Some z.
Proof.
  destruct z as [|p|p]; [reflexivity| |]; unfold asInt, VInt, toInteger;
    change (0 <=? 0) with true; cbv iota; change (2 ^ 0) with 1; f_equal; lia.
Qed.

Lemma asPhase_name (p : SwapPhase) : asPhase (VStr (phaseName p)) = Some p.
Proof. destruct p; vm_compute; reflexivity. Qed.

Lemma asNetwork_name (n : NetworkName) :
  asNetwork (VStr (networkName n)) = Some n.
Proof. by destruct n. Qed.

Lemma optional_str (o : option string) :
  optional asStr (default VUndefined (VStr <$> o)) = Some o.
Proof. by destruct o. Qed.

Lemma optional_int (o : option Z) :
  optional asInt (default VUndefined (VInt <$> o)) = Some o.
Proof.
  destruct o as [z|]; [|reflexivity].
  change (optional asInt (default VUndefined (VInt <$> Some z)))
    with (optional asInt (VInt z)).
  assert (optional asInt (VInt z) = Some <$> asInt (VInt z)) as ->
    by (by destruct z).
  by rewrite asInt_VInt.
Qed.

Lemma entry_prop (e : PhaseEntry) (i : nat) (k : string) (o : option jsval) :
  [ ("phase", Some (VStr (phaseName (entry_phase e))));
    ("timestamp", Some (VInt (timestamp e)));
    ("details", VStr <$> details e) ] !! i = Some (k, o) ->
  getProp k (entryToJS e) = default VUndefined o.
Proof.
  intros H. unfold entryToJS. apply (getProp_fields _ i); [done|].
  apply (bool_decide_unpack _). vm_compute. reflexivity.
Qed.

Lemma entry_read (e : PhaseEntry) : entryFromJS (entryToJS e) = Some e.
Proof.
  unfold entryFromJS.
  rewrite (entry_prop e 0%nat "phase" _ eq_refl).
  rewrite (entry_prop e 1%nat "timestamp" _ eq_refl).
  rewrite (entry_prop e 2%nat "details" _ eq_refl).
  cbn [default Datatypes.id]. rewrite asPhase_name, asInt_VInt, optional_str.
  by destruct e.
Qed.

Lemma history_read (h : list PhaseEntry) :
  asList entryFromJS (VArr (entryToJS <$> h)) = Some h.
Proof.
  unfold asList. induction h as [|e h IH]; [reflexivity|].
  cbn [fmap list_fmap mapM]. change (list_fmap _ _ ?f ?l) with (f <$> l).
  rewrite entry_read. cbn [mbind option_bind]. rewrite IH. reflexivity.
Qed.

(** Reading a record from its own object gives the record. *)
Lemma fromJS_toJS (st : SwapState) : fromJS (toJS st) = Some st.
Proof.
  unfold fromJS.
  rewrite (prop st 0%nat "id" _ eq_refl).
  rewrite (prop st 1%nat "peerId" _ eq_refl).
  rewrite (prop st 2%nat "createdAt" _ eq_refl).
  rewrite (prop st 3%nat "updatedAt" _ eq_refl).
  rewrite (prop st 4%nat "phase" _ eq_refl).
  rewrite (prop st 5%nat "phaseHistory" _ eq_refl).
  rewrite (prop st 6%nat "btcAmount" _ eq_refl).
  rewrite (prop st 7%nat "xmrAmount" _ eq_refl).
  rewrite (prop st 8%nat "exchangeRate" _ eq_refl).
  rewrite (prop st 9%nat "minBtcLockConfirmations" _ eq_refl).
  rewrite (prop st 10%nat "minXmrLockConfirmations" _ eq_refl).
  rewrite (prop st 11%nat "btcCancelTimelock" _ eq_refl).
  rewrite (prop st 12%nat "btcPunishTimelock" _ eq_refl).
  rewrite (prop st 13%nat "xmrUnlockHeight" _ eq_refl).
  rewrite (prop st 14%nat "userBtcDepositPubkey" _ eq_refl).
  rewrite (prop st 15%nat "userBtcRefundPubkey" _ eq_refl).
  rewrite (prop st 16%nat "asbBtcRedeemPubkey" _ eq_refl).
  rewrite (prop st 17%nat "userXmrAddress" _ eq_refl).
  rewrite (prop st 18%nat "asbXmrViewKey" _ eq_refl).
  rewrite (prop st 19%nat "secretHash" _ eq_refl).
  rewrite (prop st 20%nat "secret" _ eq_refl).
  rewrite (prop st 21%nat "btcLockTxId" _ eq_refl).
  rewrite (prop st 22%nat "btcLockTxVout" _ eq_refl).
  rewrite (prop st 23%nat "btcLockTxHex" _ eq_refl).
  rewrite (prop st 24%nat "btcRedeemTxId" _ eq_refl).
  rewrite (prop st 25%nat "btcRefundTxId" _ eq_refl).
  rewrite (prop st 26%nat "htlcScript" _ eq_refl).
  rewrite (prop st 27%nat "xmrLockTxId" _ eq_refl).
  rewrite (prop st 28%nat "xmrRedeemTxId" _ eq_refl).
  rewrite (prop st 29%nat "encryptedSignature" _ eq_refl).
  rewrite (prop st 30%nat "lastError" _ eq_refl).
  rewrite (prop st 31%nat "errorCount" _ eq_refl).
  rewrite (prop st 32%nat "network" _ eq_refl).
  cbn [default Datatypes.id asStr asBigInt asNum].
  rewrite !asInt_VInt, asPhase_name, asNetwork_name, history_read,
    !optional_str, optional_int.
  by destruct st.
Qed.
End ReadFacts.

Module RecordRestore.
Import JS State Spec RestoreFacts.

Lemma restored_opt_str (o : option string) :
  Forall plainText (textOf o) ->
  forall v, VStr <$> o = Some v -> restored v.
Proof.
  intros H v E. destruct o as [s|]; [|done]. injection E as <-.
  apply restored_str. by inversion H.
Qed.

Lemma restored_opt_int (o : option Z) :
  forall v, VInt <$> o = Some v -> restored v.
Proof.
  intros v E. destruct o as [z|]; [|done]. injection E as <-.
  apply restored_int.
Qed.

Lemma restored_some (x : jsval) :
  restored x -> forall v, Some x = Some v -> restored v.
Proof. by intros H v [= <-]. Qed.

Lemma plain_networkName (n : NetworkName) : plainText (networkName n).
Proof. by destruct n. Qed.

Lemma restored_toJS (st : SwapState) : tagFree st -> restored (toJS st).
Proof.
  intros [Ht Hx]. unfold texts in Ht.
  rewrite !Forall_app in Ht.
  destruct Ht as (Hfix & H1 & H2 & H3 & H4 & H5 & H6 & H7 & H8 & H9 & H10
                  & H11 & Hh).
  apply Forall_cons in Hfix as [F1 Hfix]. apply Forall_cons in Hfix as [F2 Hfix].
  apply Forall_cons in Hfix as [F3 Hfix]. apply Forall_cons in Hfix as [F4 Hfix].
  apply Forall_cons in Hfix as [F5 Hfix]. apply Forall_cons in Hfix as [F6 Hfix].
  apply Forall_cons in Hfix as [F7 _].
  rewrite RecordFacts.toJS_fields. apply restored_fields. unfold fieldsOf.
  repeat (apply Forall_cons; refine (conj _ _)); [..|constructor]; cbn [snd];
    first [ apply restored_opt_str; assumption
          | apply restored_opt_int
          | apply restored_some ];
    first [ apply restored_str; first [assumption | apply plain_phaseName
                                      | apply plain_networkName]
          | apply restored_int
          | apply restored_bigint
          | apply restored_num; assumption
          | apply restored_arr, restored_history; assumption ].
Qed.

(** What was printed for a record without tags is parsed as its object. *)
Lemma deserialize_recordJson (st : SwapState) :
  tagFree st -> deserializeSwapState (recordJson st) = Ok (toJS st).
Proof.
  intros H. destruct (restored_toJS st H) as (_ & j & Hj & Hi).
  unfold recordJson. rewrite Hj. apply Hi.
Qed.
End RecordRestore.

Section SaveLoad.
Import State Spec.

(** X17.  A record that is saved is loaded again as it was: in a browser
  whose stored list is intact, [loadSwapState] after [saveSwapState]
  returns the saved record, field for field, provided none of the
  record's texts starts with the tag bigint: and the exchange rate is a
  finite number other than minus zero. *)
Theorem saveSwapState_then_loadSwapState (st : SwapState) (w : World) :
window w = true -> listIntact w -> id st <> "list" -> tagFree st ->
exists w',
  saveSwapState st w = (Ok tt, w')
  /\ loadSwapState (id st) w' = (Ok (Some st), w').
Proof.
intros Hw Hl Hid Htag. exists (saved st w).
split; [by apply StorageFacts.saveSwapState_run|].
unfold loadSwapState, bind, hasWindow, localStorage_getItem, lift.
destruct (SaveFacts.saved_fields st w) as (_ & -> & _). rewrite Hw.
cbn [negb]. fold (recordKey (id st)).
rewrite (SaveFacts.saved_record st w Hid).
rewrite (RecordRestore.deserialize_recordJson st Htag).
by rewrite ReadFacts.fromJS_toJS.
Qed.
End SaveLoad.

Lemma saveSwapState_then_loadSwapState_witness :
  exists w',
    State.saveSwapState (Fixtures.stateIn State.BTC_LOCK_TX_BROADCAST)
      (Fixtures.world []) = (Ok tt, w')
    /\ State.loadSwapState "swap_loyw3v28_20212223" w'
       = (Ok (Some (Fixtures.stateIn State.BTC_LOCK_TX_BROADCAST)), w').
Proof.
  apply (saveSwapState_then_loadSwapState
           (Fixtures.stateIn State.BTC_LOCK_TX_BROADCAST) (Fixtures.world [])).
  - reflexivity.
  - exact I.
  - discriminate.
  - split; [|exact I]. vm_compute. repeat constructor.
Defined.

Module ReloadFacts.
Import State Spec.

(** What a load returns depends on the storage alone. *)
Lemma loadSwapState_storage (swapId : string) (w1 w2 : World) :
  window w1 = window w2 -> localStorage w1 = localStorage w2 ->
  (loadSwapState swapId w1).1 = (loadSwapState swapId w2).1.
Proof.
  intros Hw Hs. unfold loadSwapState, bind, hasWindow, localStorage_getItem,
    lift, ret, throw.
  cbv beta. rewrite Hw. destruct (window w2); cbn [negb]; [|done].
  cbv beta. rewrite Hs. destruct (localStorage w2 !! _); [|done].
  destruct (deserializeSwapState _); [|done].
  by destruct (fromJS _).
Qed.
End ReloadFacts.

Section Resume.
Import State Spec Executor.

(** X18.  [resumeSwap] of a stored swap that is neither in
  BTC_LOCK_TX_CREATED with a lock transaction to broadcast nor in
  REFUND_TIMELOCK_EXPIRED returns the stored record and does nothing
  else: no monitoring is started again, nothing is asked of the wallet,
  the peer or the explorer, and the world is as before. *)
Theorem resumeSwap_idle (swapId : string) (st : SwapState) (w : World) :
(loadSwapState swapId w).1 = Ok (Some st) ->
phase st <> REFUND_TIMELOCK_EXPIRED ->
(phase st = BTC_LOCK_TX_CREATED -> falsy (btcLockTxHex st) = true) ->
resumeSwap swapId w = (Ok st, w).
Proof.
intros Hl Hp Hhex. unfold resumeSwap.
unfold bind at 1. rewrite LoadFacts.loadSwapState_run, Hl.
assert ((let* again := loadSwapState swapId in ret (default st again)) w
        = (Ok st, w)) as Hre.
{ unfold bind. by rewrite LoadFacts.loadSwapState_run, Hl. }
destruct (phase st) eqn:E; try exact Hre; [|done].
rewrite (Hhex eq_refl). exact Hre.
Qed.

(** X19.  [resumeSwap] of a stored swap in BTC_LOCK_TX_CREATED broadcasts
  the stored lock transaction again and returns the record with the
  transaction id the explorer answered.  The record it returns is not
  saved and its phase is still BTC_LOCK_TX_CREATED: the storage is as
  before, so the next resume broadcasts once more. *)
Theorem resumeSwap_rebroadcasts (swapId : string) (st : SwapState)
  (txHex txId : string) (rest : list (result string)) (w : World) :
(loadSwapState swapId w).1 = Ok (Some st) ->
phase st = BTC_LOCK_TX_CREATED ->
btcLockTxHex st = Some txHex -> txHex <> EmptyString ->
broadcastReplies (replies w) = Ok txId :: rest ->
exists st' w',
  resumeSwap swapId w = (Ok st', w')
  /\ btcLockTxId st' = Some txId
  /\ phase st' = BTC_LOCK_TX_CREATED
  /\ phaseHistory st' = phaseHistory st
  /\ trace w' = trace w ++ [EvBroadcast txHex]
  /\ localStorage w' = localStorage w
  /\ (loadSwapState swapId w').1 = Ok (Some st).
Proof.
intros Hl Hp Hhex Hne Hrep. unfold resumeSwap.
unfold bind at 1. rewrite LoadFacts.loadSwapState_run, Hl.
rewrite Hp, Hhex. cbn [falsy default].
rewrite bool_decide_eq_false_2 by done. cbn [negb].
set (w1 := mkWorld (clock w) (window w) (localStorage w) (randomSource w)
             (randomPos w) (xmrAddressValid w)
             (mkReplies (keysReplies (replies w)) (signRefundReplies (replies w))
                (initiateSwapReplies (replies w)) (transferProofReplies (replies w))
                (sendSignatureReplies (replies w)) rest
                (confirmationReplies (replies w)) (heightReplies (replies w))
                (spendReplies (replies w)))
             (trace w ++ [EvBroadcast txHex])).
assert (broadcastTransaction txHex w = (Ok txId, w1)) as Hb.
{ unfold broadcastTransaction, next, bind, emit, getReplies, setReplies, ret,
    answer, lift.
  cbn [replies]. rewrite Hrep. reflexivity. }
rewrite (MonadFacts.bind_ok _ _ _ _ _ Hb).
rewrite StateFacts.updateSwapState_run.
eexists _, _. split; [reflexivity|].
split; [reflexivity|]. split; [exact Hp|]. split; [reflexivity|].
split; [reflexivity|]. split; [reflexivity|].
rewrite <- Hl. by apply ReloadFacts.loadSwapState_storage.
Qed.
End Resume.

Lemma resumeSwap_idle_witness :
  Executor.resumeSwap "swap_loyw3v28_20212223"
    (Spec.saved (Fixtures.stateIn State.ENCRYPTED_SIG_SENT) (Fixtures.world []))
  = (Ok (Fixtures.stateIn State.ENCRYPTED_SIG_SENT),
     Spec.saved (Fixtures.stateIn State.ENCRYPTED_SIG_SENT) (Fixtures.world [])).
Proof.
  apply (resumeSwap_idle "swap_loyw3v28_20212223"
           (Fixtures.stateIn State.ENCRYPTED_SIG_SENT)
           (Spec.saved (Fixtures.stateIn State.ENCRYPTED_SIG_SENT)
              (Fixtures.world []))).
  - vm_compute. reflexivity.
  - discriminate.
  - discriminate.
Defined.

Lemma resumeSwap_rebroadcasts_witness :
  exists st' w',
    Executor.resumeSwap "swap_loyw3v28_20212223"
      (Spec.saved (Fixtures.stateIn State.BTC_LOCK_TX_CREATED) (Fixtures.world []))
    = (Ok st', w')
    /\ State.btcLockTxId st' = Some Fixtures.lockTxId
    /\ State.phase st' = State.BTC_LOCK_TX_CREATED.
Proof.
  destruct (resumeSwap_rebroadcasts "swap_loyw3v28_20212223"
              (Fixtures.stateIn State.BTC_LOCK_TX_CREATED) "0200"
              Fixtures.lockTxId [Ok "refund-tx"]
              (Spec.saved (Fixtures.stateIn State.BTC_LOCK_TX_CREATED)
                 (Fixtures.world [])))
    as (st' & w' & H & Hid & Hp & _).
  - vm_compute. reflexivity.
  - reflexivity.
  - reflexivity.
  - discriminate.
  - reflexivity.
  - exists st', w'. repeat split; assumption.
Defined.

Section RefundDone.
Import State Spec Executor.

End RefundDone.


Module SimFacts.
Import SwapExecution Spec.

Lemma mapGet_cons (k k' : string) (r : nat) (m : list (string * nat)) :
  mapGet k ((k', r) :: m)
  = if bool_decide (k' = k) then Some r else mapGet k m.
Proof.
  unfold mapGet. cbn [list_find]. cbn [fst].
  case_decide as H.
  - apply bool_decide_unpack in H. subst. by rewrite bool_decide_eq_true_2.
  - rewrite bool_decide_eq_false_2.
    + by destruct (list_find _ m) as [[? [? ?]]|].
    + intros ->. apply H. by apply bool_decide_pack.
Qed.

Lemma mapGet_mapSet (k : string) (r : nat) (m : list (string * nat)) :
  mapGet k (mapSet k r m) = Some r.
Proof.
  induction m as [|[k' r'] m IH]; cbn [mapSet].
  - by rewrite mapGet_cons, bool_decide_eq_true_2.
  - case_bool_decide as E.
    + by rewrite mapGet_cons, bool_decide_eq_true_2.
    + by rewrite mapGet_cons, bool_decide_eq_false_2.
Qed.

Lemma mapGet_mapSet_ne (k k' : string) (r : nat) (m : list (string * nat)) :
  k' <> k -> mapGet k' (mapSet k r m) = mapGet k' m.
Proof.
  intros Hne. induction m as [|[k0 r0] m IH]; cbn [mapSet].
  - by rewrite mapGet_cons, bool_decide_eq_false_2.
  - case_bool_decide as E.
    + subst k0. by rewrite !mapGet_cons, !bool_decide_eq_false_2.
    + rewrite !mapGet_cons. by rewrite IH.
Qed.

(** After [set], the key is in the table with the new value, and the
    other entries are where they were or one place further. *)
Lemma mapSet_elem (k : string) (r : nat) (m : list (string * nat)) :
  (k, r) ∈ mapSet k r m.
Proof.
  induction m as [|[k' r'] m IH]; cbn [mapSet]; [by left|].
  case_bool_decide; [by left|by right].
Qed.

Lemma mapSet_keeps (k k' : string) (r r' : nat) (m : list (string * nat)) :
  k' <> k -> (k', r') ∈ m -> (k', r') ∈ mapSet k r m.
Proof.
  intros Hne. induction m as [|[k0 r0] m IH]; intros H; [by inversion H|].
  cbn [mapSet]. apply elem_of_cons in H as [H|H].
  - injection H as <- <-. rewrite bool_decide_eq_false_2 by done. by left.
  - case_bool_decide; right; [done|by apply IH].
Qed.

(** Two different entries of a table that name the same object make the
    object appear twice in the list of values. *)
Lemma twice (s : Store) (st : SwapState) (x y : string * nat)
    (m : list (string * nat)) :
  x ∈ m -> y ∈ m -> x <> y ->
  deref x.2 s = Some st -> deref y.2 s = Some st ->
  exists l1 l2 l3,
    omap (fun kv : string * nat => deref kv.2 s) m = l1 ++ st :: l2 ++ st :: l3.
Proof.
  intros Hx Hy Hne Dx Dy.
  apply list_elem_of_split in Hx as (a & b & ->).
  apply elem_of_app in Hy as [Hy|Hy].
  - apply list_elem_of_split in Hy as (a1 & a2 & ->).
    exists (omap (fun kv : string * nat => deref kv.2 s) a1),
           (omap (fun kv : string * nat => deref kv.2 s) a2),
           (omap (fun kv : string * nat => deref kv.2 s) b).
    rewrite !omap_app. cbn [omap list_omap]. rewrite Dx, Dy.
    by rewrite <- !app_assoc.
  - apply elem_of_cons in Hy as [Hy|Hy]; [by subst|].
    apply list_elem_of_split in Hy as (b1 & b2 & ->).
    exists (omap (fun kv : string * nat => deref kv.2 s) a),
           (omap (fun kv : string * nat => deref kv.2 s) b1),
           (omap (fun kv : string * nat => deref kv.2 s) b2).
    rewrite !omap_app. cbn [omap list_omap]. rewrite Dx.
    change (list_omap ?f ?l) with (omap f l).
    rewrite !omap_app. cbn [omap list_omap]. by rewrite Dy.
Qed.
End SimFacts.

Section Resumed.
Import SwapExecution Spec.

(** X21.  [resumeSwap] of [swapExecution.ts] enters the resumed swap in the
  table of active swaps twice: once under the fresh id the constructor
  drew and once under the id of the persisted state, both entries naming
  the one state object, which holds the persisted state.
  [getActiveSwaps] therefore lists the swap twice. *)
Theorem resumeSwap_registers_twice (persisted : SwapState) (s : Store) :
uuids s (uuidPos s) <> id persisted ->
exists l1 l2 l3,
  let '(execution, s') := resumeSwap persisted s in
  deref (state execution) s' = Some persisted
  /\ getSwapById (uuids s (uuidPos s)) s' = Some (state execution)
  /\ getSwapById (id persisted) s' = Some (state execution)
  /\ getActiveSwaps s' = l1 ++ persisted :: l2 ++ persisted :: l3.
Proof.
intros Hne. unfold resumeSwap, new_SwapExecution. cbn [id state].
set (r := length (objects s)).
set (m := mapSet (id persisted) r (mapSet (uuids s (uuidPos s)) r (activeSwaps s))).
set (s' := register _ _ _).
assert (deref r s' = Some persisted) as Hd.
{ unfold deref. subst s'. cbn [objects register assign].
  rewrite list_lookup_alter_eq. subst r.
  by rewrite lookup_app_r, Nat.sub_diag by lia. }
destruct (SimFacts.twice s' persisted (uuids s (uuidPos s), r) (id persisted, r) m)
  as (l1 & l2 & l3 & Hl).
- subst m. apply SimFacts.mapSet_keeps; [done|]. apply SimFacts.mapSet_elem.
- subst m. apply SimFacts.mapSet_elem.
- intros E. injection E as E. done.
- exact Hd.
- exact Hd.
- exists l1, l2, l3. split; [exact Hd|].
  unfold getSwapById. subst s'. cbn [activeSwaps register assign].
  split; [|split].
  + rewrite SimFacts.mapGet_mapSet_ne by done. apply SimFacts.mapGet_mapSet.
  + apply SimFacts.mapGet_mapSet.
  + exact Hl.
Qed.
End Resumed.

Lemma resumeSwap_registers_twice_witness :
  exists l1 l2 l3,
    let '(execution, s') :=
      SwapExecution.resumeSwap
        (SwapExecution.mkSwapState "swap-1" SwapExecution.xmr_locked
           Fixtures.provider 1000000 160000000 "4xmr" "bc1qrefund"
           (Some Fixtures.lockTxId) None None 72 144 1700000000000
           1700000400000 None)
        (SwapExecution.mkStore [] [] 1700000500000 (fun _ => "uuid-0") 0
           (fun _ => 0%nat) 0 []) in
    SwapExecution.deref (SwapExecution.state execution) s'
    = Some (SwapExecution.mkSwapState "swap-1" SwapExecution.xmr_locked
              Fixtures.provider 1000000 160000000 "4xmr" "bc1qrefund"
              (Some Fixtures.lockTxId) None None 72 144 1700000000000
              1700000400000 None)
    /\ SwapExecution.getSwapById "uuid-0" s' = Some (SwapExecution.state execution)
    /\ SwapExecution.getSwapById "swap-1" s' = Some (SwapExecution.state execution)
    /\ SwapExecution.getActiveSwaps s'
       = l1 ++ SwapExecution.mkSwapState "swap-1" SwapExecution.xmr_locked
                 Fixtures.provider 1000000 160000000 "4xmr" "bc1qrefund"
                 (Some Fixtures.lockTxId) None None 72 144 1700000000000
                 1700000400000 None
            :: l2 ++ SwapExecution.mkSwapState "swap-1" SwapExecution.xmr_locked
                       Fixtures.provider 1000000 160000000 "4xmr" "bc1qrefund"
                       (Some Fixtures.lockTxId) None None 72 144 1700000000000
                       1700000400000 None
            :: l3.
Proof.
  apply (resumeSwap_registers_twice
           (SwapExecution.mkSwapState "swap-1" SwapExecution.xmr_locked
              Fixtures.provider 1000000 160000000 "4xmr" "bc1qrefund"
              (Some Fixtures.lockTxId) None None 72 144 1700000000000
              1700000400000 None)
           (SwapExecution.mkStore [] [] 1700000500000 (fun _ => "uuid-0") 0
              (fun _ => 0%nat) 0 [])).
  discriminate.
Defined.

Module RunFacts.
Import SwapExecution Spec.

Ltac open_view H Hd :=
  unfold view in H; injection H as ? ? ? ? ?; subst;
  match goal with E : deref _ _ = _ |- _ => rename E into Hd end.

Lemma notify_fields (this : Execution) (c : nat -> SwapState -> Call)
    (s : Store) (st : SwapState) :
  deref (state this) s = Some st ->
  notify this c s
  = mkStore (objects s) (activeSwaps s) (now s) (uuids s) (uuidPos s)
      (randoms s) (randomPos s)
      (calls s ++ map (fun l => c l st) (listeners this)).
Proof.
  intros Hd. unfold notify. rewrite Hd.
  generalize (listeners this). intros ls. revert s Hd.
  induction ls as [|l ls IH]; intros s Hd.
  - cbn [fold_left map]. rewrite app_nil_r. by destruct s.
  - cbn [fold_left map]. rewrite IH by done.
    cbn [call objects activeSwaps now uuids uuidPos randoms randomPos calls].
    by rewrite <- app_assoc.
Qed.

Lemma phases_of_calls (p : SwapPhase) (f : nat -> SwapState) (ls : list nat) :
  omap callPhase (map (fun l => OnPhaseChange l p (f l)) ls)
  = replicate (length ls) p.
Proof. induction ls as [|l ls IH]; [done|]. cbn. by rewrite <- IH. Qed.

Lemma view_updatePhase (this : Execution) (p : SwapPhase) (s : Store)
    (st : SwapState) (t : Z) (pos : nat) (rnd : nat -> nat)
    (ps : list SwapPhase) :
  view (state this) s = (Some st, t, pos, rnd, ps) ->
  view (state this) (updatePhase this p s)
  = (Some (withPhase p t st), t, pos, rnd,
     ps ++ replicate (length (listeners this)) p).
Proof.
  intros H. open_view H Hd. unfold view.
  unfold updatePhase.
  assert (deref (state this) (assign (state this) (withPhase p (now s)) s)
          = Some (withPhase p (now s) st)) as Hd1.
  { unfold deref, assign. cbn [objects]. rewrite list_lookup_alter_eq.
    unfold deref in Hd. by rewrite Hd. }
  rewrite Hd1.
  rewrite (notify_fields this _ _ (withPhase p (now s) st)) by exact Hd1.
  unfold deref in *. cbn [objects register assign now randomPos randoms calls].
  rewrite omap_app.
  rewrite (phases_of_calls p (fun _ => withPhase p (now s) st)).
  by rewrite list_lookup_alter_eq, Hd.
Qed.

Lemma view_assign (r : nat) (f : SwapState -> SwapState) (s : Store)
    (st : SwapState) (t : Z) (pos : nat) (rnd : nat -> nat)
    (ps : list SwapPhase) :
  view r s = (Some st, t, pos, rnd, ps) ->
  view r (assign r f s) = (Some (f st), t, pos, rnd, ps).
Proof.
  intros H. open_view H Hd. unfold view, deref, assign in *.
  cbn [objects now randomPos randoms calls].
  by rewrite list_lookup_alter_eq, Hd.
Qed.

Lemma view_simulateDelay (r : nat) (ms : Z) (s : Store)
    (o : option SwapState) (t : Z) (pos : nat) (rnd : nat -> nat)
    (ps : list SwapPhase) :
  view r s = (o, t, pos, rnd, ps) ->
  view r (simulateDelay ms s) = (o, t + ms, pos, rnd, ps).
Proof. unfold view, deref, simulateDelay. intros H. by simplify_eq. Qed.

Lemma view_generateFakeTxId (r : nat) (s : Store)
    (o : option SwapState) (t : Z) (pos : nat) (rnd : nat -> nat)
    (ps : list SwapPhase) :
  view r s = (o, t, pos, rnd, ps) ->
  (generateFakeTxId s).1 = fakeTxId rnd pos
  /\ view r (generateFakeTxId s).2 = (o, t, (pos + 64)%nat, rnd, ps).
Proof. unfold view, deref, generateFakeTxId. intros H. by simplify_eq. Qed.

Lemma view_emitComplete (this : Execution) (s : Store)
    (st : SwapState) (t : Z) (pos : nat) (rnd : nat -> nat)
    (ps : list SwapPhase) :
  view (state this) s = (Some st, t, pos, rnd, ps) ->
  view (state this) (emitComplete this s) = (Some st, t, pos, rnd, ps).
Proof.
  intros H. open_view H Hd. unfold view.
  unfold emitComplete. rewrite (notify_fields this _ _ st) by exact Hd.
  unfold deref in *. cbn [objects now randomPos randoms calls].
  rewrite omap_app.
  assert (omap callPhase (map (fun l => OnComplete l st) (listeners this)) = [])
    as -> by (by induction (listeners this)).
  by rewrite app_nil_r, Hd.
Qed.

Lemma fakeTxId_length (rnd : nat -> nat) (pos : nat) :
  String.length (fakeTxId rnd pos) = 64%nat.
Proof.
  unfold fakeTxId.
  assert (forall l, String.length (string_of_list_ascii l) = length l) as E.
  { induction l as [|c l IH]; simpl; [done|]. by rewrite IH. }
  by rewrite E, length_map, length_seq.
Qed.
End RunFacts.

Section Runs.
Import SwapExecution Spec.

(** X22.  [execute] does not look at the phase the swap is in: from any
  state it goes through initialized, btc_lock_published,
  btc_lock_confirmed, xmr_lock_proof_received, xmr_locked,
  encrypted_signature_sent, btc_redeemed and xmr_redeemed, reporting
  each phase to every listener in that order, and 28 seconds later the
  state object is in xmr_redeemed with three transaction ids of 64
  characters, made of the next 192 random numbers; id and error are as
  they were.  A [cancelAndRefund] after that is refused, and the refusal
  is not recorded as an error. *)
Theorem execute_runs_through (this : Execution) (s : Store) (st : SwapState) :
deref (state this) s = Some st ->
exists st' s',
  execute this s = (state this, s')
  /\ deref (state this) s' = Some st'
  /\ phase st' = xmr_redeemed
  /\ btcLockTxId st' = Some (fakeTxId (randoms s) (randomPos s))
  /\ xmrLockTxId st' = Some (fakeTxId (randoms s) (randomPos s + 64))
  /\ btcRedeemTxId st' = Some (fakeTxId (randoms s) (randomPos s + 128))
  /\ id st' = id st /\ error st' = error st
  /\ lastUpdate st' = now s + 28000
  /\ now s' = now s + 28000
  /\ omap callPhase (calls s')
     = omap callPhase (calls s)
         ++ (p ← executionPhases; replicate (length (listeners this)) p)
  /\ cancelAndRefund this s'
     = (Throw (JsError "Cannot cancel swap in phase: xmr_redeemed"), s').
Proof.
intros Hd.
assert (view (state this) s
        = (Some st, now s, randomPos s, randoms s, omap callPhase (calls s)))
  as V0 by (unfold view; by rewrite Hd).
unfold execute, requestSwap, publishBtcLock, waitForXmrLock,
  sendEncryptedSignature, waitForBtcRedeem, redeemXmr, generateFakeXmrTxId.
(* requestSwap *)
apply (RunFacts.view_simulateDelay _ 2000) in V0.
apply (RunFacts.view_updatePhase this initialized) in V0.
set (s1 := updatePhase this initialized _) in *.
(* publishBtcLock *)
apply (RunFacts.view_simulateDelay _ 3000) in V0.
destruct (RunFacts.view_generateFakeTxId _ _ _ _ _ _ _ V0) as [T1 V1]. clear V0.
destruct (generateFakeTxId (simulateDelay 3000 s1)) as [tx1 s2]. cbn [fst snd] in *.
apply (RunFacts.view_assign _ (withBtcLockTxId tx1)) in V1.
apply (RunFacts.view_updatePhase this btc_lock_published) in V1.
apply (RunFacts.view_simulateDelay _ 5000) in V1.
apply (RunFacts.view_updatePhase this btc_lock_confirmed) in V1.
set (s3 := updatePhase this btc_lock_confirmed _) in *.
(* waitForXmrLock *)
apply (RunFacts.view_simulateDelay _ 5000) in V1.
apply (RunFacts.view_updatePhase this xmr_lock_proof_received) in V1.
apply (RunFacts.view_simulateDelay _ 3000) in V1.
destruct (RunFacts.view_generateFakeTxId _ _ _ _ _ _ _ V1) as [T2 V2]. clear V1.
destruct (generateFakeTxId _) as [tx2 s4] in T2, V2 |- *. cbn [fst snd] in *.
apply (RunFacts.view_assign _ (withXmrLockTxId tx2)) in V2.
apply (RunFacts.view_updatePhase this xmr_locked) in V2.
set (s5 := updatePhase this xmr_locked _) in *.
(* sendEncryptedSignature *)
apply (RunFacts.view_simulateDelay _ 2000) in V2.
apply (RunFacts.view_updatePhase this encrypted_signature_sent) in V2.
set (s6 := updatePhase this encrypted_signature_sent _) in *.
(* waitForBtcRedeem *)
apply (RunFacts.view_simulateDelay _ 5000) in V2.
destruct (RunFacts.view_generateFakeTxId _ _ _ _ _ _ _ V2) as [T3 V3]. clear V2.
destruct (generateFakeTxId _) as [tx3 s7] in T3, V3 |- *. cbn [fst snd] in *.
apply (RunFacts.view_assign _ (withBtcRedeemTxId tx3)) in V3.
apply (RunFacts.view_updatePhase this btc_redeemed) in V3.
set (s8 := updatePhase this btc_redeemed _) in *.
(* redeemXmr *)
apply (RunFacts.view_simulateDelay _ 3000) in V3.
apply (RunFacts.view_updatePhase this xmr_redeemed) in V3.
apply RunFacts.view_emitComplete in V3.
set (s9 := emitComplete this _) in *.
unfold view in V3. injection V3 as Vd Vt Vp Vr Vc.
eexists _, s9. split; [reflexivity|]. split; [exact Vd|].
subst tx1 tx2 tx3.
cbn [phase btcLockTxId xmrLockTxId btcRedeemTxId id error lastUpdate
     withPhase withBtcLockTxId withXmrLockTxId withBtcRedeemTxId].
split; [reflexivity|]. split; [reflexivity|].
split; [reflexivity|].
split; [by rewrite <- Nat.add_assoc|].
split; [reflexivity|]. split; [reflexivity|].
split; [lia|]. split; [lia|].
split.
{ rewrite Vc. cbn [executionPhases mbind list_bind mret]. 
  rewrite <- !app_assoc. rewrite app_nil_r. reflexivity. }
unfold cancelAndRefund. rewrite Vd. reflexivity.
Qed.

(** X23.  [cancelAndRefund] starts exactly from btc_lock_published,
  btc_lock_confirmed, xmr_lock_proof_received and xmr_locked: from those
  it reports cancel_timelock_expired, btc_cancelled and btc_refunded to
  every listener and leaves the state object in btc_refunded six
  seconds later; from any other phase it throws, naming the phase, and
  changes nothing, the error being neither stored in the state nor
  reported to a listener. *)
Theorem cancelAndRefund_guard (this : Execution) (s : Store) (st : SwapState) :
deref (state this) s = Some st ->
(cancellable (phase st) ->
 exists st' s',
   cancelAndRefund this s = (Ok (state this), s')
   /\ deref (state this) s' = Some st'
   /\ phase st' = btc_refunded
   /\ id st' = id st /\ error st' = error st
   /\ now s' = now s + 6000
   /\ omap callPhase (calls s')
      = omap callPhase (calls s)
          ++ (p ← [cancel_timelock_expired; btc_cancelled; btc_refunded];
              replicate (length (listeners this)) p))
/\ (~ cancellable (phase st) ->
    cancelAndRefund this s
    = (Throw (JsError ("Cannot cancel swap in phase: " +:+ phaseName (phase st))),
       s)).
Proof.
intros Hd. unfold cancelAndRefund. rewrite Hd. split.
- intros Hc.
  assert (existsb (fun p => bool_decide (p = phase st))
            [btc_lock_published; btc_lock_confirmed; xmr_lock_proof_received;
             xmr_locked] = true) as ->.
  { destruct Hc as [->|[->|[->| ->]]]; reflexivity. }
  cbn [negb].
  assert (view (state this) s
          = (Some st, now s, randomPos s, randoms s, omap callPhase (calls s)))
    as V by (unfold view; by rewrite Hd).
  apply (RunFacts.view_simulateDelay _ 2000) in V.
  apply (RunFacts.view_updatePhase this cancel_timelock_expired) in V.
  apply (RunFacts.view_simulateDelay _ 2000) in V.
  apply (RunFacts.view_updatePhase this btc_cancelled) in V.
  apply (RunFacts.view_simulateDelay _ 2000) in V.
  apply (RunFacts.view_updatePhase this btc_refunded) in V.
  unfold view in V. injection V as Vd Vt Vp Vr Vc.
  eexists _, _. split; [reflexivity|]. split; [exact Vd|].
  cbn [phase id error withPhase].
  split; [reflexivity|]. split; [reflexivity|]. split; [reflexivity|].
  split; [lia|].
  rewrite Vc. cbn [mbind list_bind mret].
  rewrite <- !app_assoc. rewrite app_nil_r. reflexivity.
- intros Hn.
  assert (existsb (fun p => bool_decide (p = phase st))
            [btc_lock_published; btc_lock_confirmed; xmr_lock_proof_received;
             xmr_locked] = false) as ->; [|reflexivity].
  unfold cancellable in Hn. destruct (phase st); try reflexivity;
    exfalso; apply Hn; tauto.
Qed.
End Runs.

Lemma execute_runs_through_witness :
  exists st' s',
    SwapExecution.execute (SwapExecution.mkExecution 0 [7%nat])
      (SwapExecution.mkStore
         [SwapExecution.mkSwapState "swap-1" SwapExecution.btc_refunded
            Fixtures.provider 1000000 160000000 "4xmr" "bc1qrefund"
            None None None 72 144 1700000000000 1700000400000 None]
         [("swap-1", 0%nat)] 1700000500000 (fun _ => "uuid-0") 0
         (fun i => i) 0 [])
    = (0%nat, s')
    /\ SwapExecution.deref 0 s' = Some st'
    /\ SwapExecution.phase st' = SwapExecution.xmr_redeemed
    /\ SwapExecution.now s' = 1700000500000 + 28000.
Proof.
  destruct (execute_runs_through (SwapExecution.mkExecution 0 [7%nat])
              (SwapExecution.mkStore
                 [SwapExecution.mkSwapState "swap-1" SwapExecution.btc_refunded
                    Fixtures.provider 1000000 160000000 "4xmr" "bc1qrefund"
                    None None None 72 144 1700000000000 1700000400000 None]
                 [("swap-1", 0%nat)] 1700000500000 (fun _ => "uuid-0") 0
                 (fun i => i) 0 [])
              (SwapExecution.mkSwapState "swap-1" SwapExecution.btc_refunded
                 Fixtures.provider 1000000 160000000 "4xmr" "bc1qrefund"
                 None None None 72 144 1700000000000 1700000400000 None)
              eq_refl)
    as (st' & s' & H & Hd & Hp & _ & _ & _ & _ & _ & _ & Hn & _).
  exists st', s'. repeat split; assumption.
Defined.

Lemma cancelAndRefund_guard_witness :
  exists st' s',
    SwapExecution.cancelAndRefund (SwapExecution.mkExecution 0 [7%nat])
      (SwapExecution.mkStore
         [SwapExecution.mkSwapState "swap-1" SwapExecution.xmr_locked
            Fixtures.provider 1000000 160000000 "4xmr" "bc1qrefund"
            (Some Fixtures.lockTxId) None None 72 144 1700000000000
            1700000400000 None]
         [("swap-1", 0%nat)] 1700000500000 (fun _ => "uuid-0") 0
         (fun i => i) 0 [])
    = (Ok 0%nat, s')
    /\ SwapExecution.deref 0 s' = Some st'
    /\ SwapExecution.phase st' = SwapExecution.btc_refunded.
Proof.
  destruct (proj1 (cancelAndRefund_guard (SwapExecution.mkExecution 0 [7%nat])
              (SwapExecution.mkStore
                 [SwapExecution.mkSwapState "swap-1" SwapExecution.xmr_locked
                    Fixtures.provider 1000000 160000000 "4xmr" "bc1qrefund"
                    (Some Fixtures.lockTxId) None None 72 144 1700000000000
                    1700000400000 None]
                 [("swap-1", 0%nat)] 1700000500000 (fun _ => "uuid-0") 0
                 (fun i => i) 0 [])
              (SwapExecution.mkSwapState "swap-1" SwapExecution.xmr_locked
                 Fixtures.provider 1000000 160000000 "4xmr" "bc1qrefund"
                 (Some Fixtures.lockTxId) None None 72 144 1700000000000
                 1700000400000 None)
              eq_refl))
    as (st' & s' & H & Hd & Hp & _).
  - right. right. right. reflexivity.
  - exists st', s'. repeat split; assumption.
Defined.
